(** * Socratic tutoring sessions: the route handlers of [server/routes/socratic.js]

    A shallow embedding of the Express router that orchestrates a tutoring
    session (document upload, chat, learning level, study plan, topic status)
    together with the properties of its study-plan state machine.

    Conventions of the embedding.
    - JavaScript strings are [string]s holding the UTF-8 bytes of the text.
    - A Mongo [ObjectId] (session id, user id) is a number [N].
    - The session store is a finite map from [_id] to the stored document;
      a handler works on its own copy of the document and [save] writes the
      copy back, as Mongoose does.
    - Everything the handlers cannot decide themselves comes from the
      environment as an explicit argument: whether a store operation throws,
      what the reasoning service answers, which [_id] a new document gets.
    - A handler is a function from the world before the request to the HTTP
      response and the world after it.  The calls of [logger.error] in the
      [catch] blocks are not modelled: [utils/logger] is not part of the
      sources at hand, so nothing is stated about what is logged or where. *)

From stdpp Require Import gmap strings list.
From Stdlib Require Import ZArith Ascii String DecimalString DecimalNat Sorted.

Open Scope string_scope.
Open Scope list_scope.

(** ** Data model *)

(** An entry of [session.studyPlan]. *)
Record Topic := mkTopic {
  topic : string;
  description : string;
  status : string
}.

(** An entry of [session.messages]. *)
Record Message := mkMessage {
  role : string;
  content : string
}.

(** A [SocraticSession] document.  Mongoose array paths are always arrays
    (an absent one reads as the empty array), hence plain lists. *)
Record Session := mkSession {
  _id : N;
  userId : N;
  fileHashes : list string;
  filenames : list string;
  messages : list Message;
  studyPlan : list Topic;
  currentTopicIndex : Z;
  learningLevel : string
}.

#[global] Instance Topic_eq_dec : EqDecision Topic.
Proof. solve_decision. Defined.
#[global] Instance Message_eq_dec : EqDecision Message.
Proof. solve_decision. Defined.
#[global] Instance Session_eq_dec : EqDecision Session.
Proof. solve_decision. Defined.

(** Field updates ([session.f = v]). *)
Definition with_fileHashes (v : list string) (s : Session) : Session :=
  mkSession (_id s) (userId s) v (filenames s) (messages s) (studyPlan s)
            (currentTopicIndex s) (learningLevel s).
Definition with_filenames (v : list string) (s : Session) : Session :=
  mkSession (_id s) (userId s) (fileHashes s) v (messages s) (studyPlan s)
            (currentTopicIndex s) (learningLevel s).
Definition with_messages (v : list Message) (s : Session) : Session :=
  mkSession (_id s) (userId s) (fileHashes s) (filenames s) v (studyPlan s)
            (currentTopicIndex s) (learningLevel s).
Definition with_studyPlan (v : list Topic) (s : Session) : Session :=
  mkSession (_id s) (userId s) (fileHashes s) (filenames s) (messages s) v
            (currentTopicIndex s) (learningLevel s).
Definition with_currentTopicIndex (v : Z) (s : Session) : Session :=
  mkSession (_id s) (userId s) (fileHashes s) (filenames s) (messages s)
            (studyPlan s) v (learningLevel s).
Definition with_learningLevel (v : string) (s : Session) : Session :=
  mkSession (_id s) (userId s) (fileHashes s) (filenames s) (messages s)
            (studyPlan s) (currentTopicIndex s) v.

Definition with_status (v : string) (t : Topic) : Topic :=
  mkTopic (topic t) (description t) v.

(** [session.messages.push({ role, content })]. *)
Definition push_message (r c : string) (s : Session) : Session :=
  with_messages (messages s ++ [mkMessage r c]) s.

(** ** Exceptions, responses and the world *)

(** The part of an axios error that the handlers read:
    [error.response.status] and [error.response.data.error]. *)
Record ErrorResponse := mkErrorResponse {
  err_status : nat;
  err_data_error : option string
}.

(** A thrown [Error]: its [message] and, for a failed HTTP call that got an
    answer, its [response]. *)
Record Exn := mkExn {
  exn_message : string;
  exn_response : option ErrorResponse
}.

(** The JSON bodies the handlers send. *)
Inductive Body :=
| BMessage (message : string)
| BFailure (message error : string)
| BUpload (message : string) (sessionId : N) (cached : bool)
          (summary : option string)
| BChat (response : string) (topic_completed : bool)
| BSession (session : option Session).

Record Response := mkResponse {
  res_status : nat;
  res_body : Body
}.

(** [res.json(b)] and [res.status(c).json(b)]. *)
Definition json (b : Body) : Response := mkResponse 200 b.
Definition status_json (c : nat) (b : Body) : Response := mkResponse c b.

(** The session collection and the files on disk (path to content). *)
Record World := mkWorld {
  db : gmap N Session;
  files : gmap string string
}.

Definition with_db (d : gmap N Session) (w : World) : World :=
  mkWorld d (files w).
Definition with_files (f : gmap string string) (w : World) : World :=
  mkWorld (db w) f.

(** ** The monad of the handlers: world passing with exceptions *)

Inductive Outcome (A : Type) :=
| Returned (a : A)
| Thrown (e : Exn).
Arguments Returned {A} a.
Arguments Thrown {A} e.

Definition IO (A : Type) : Type := World → Outcome A * World.

Definition ret {A} (a : A) : IO A := λ w, (Returned a, w).
Definition throw {A} (e : Exn) : IO A := λ w, (Thrown e, w).
Definition bind {A B} (m : IO A) (k : A → IO B) : IO B :=
  λ w, match m w with
       | (Returned a, w') => k a w'
       | (Thrown e, w') => (Thrown e, w')
       end.

Declare Scope io_scope.
Delimit Scope io_scope with io.
Notation "'let*' x := m 'in' k" := (bind m (λ x, k))
  (at level 10, x pattern, m at level 100, k at level 200) : io_scope.
Notation "m >> k" := (bind m (λ _, k))
  (at level 10, k at level 200) : io_scope.
Open Scope io_scope.

(** [try { m } catch (error) { h error }] around a whole handler body:
    every exception becomes the response [h error]; what the body had
    written to the world before it threw stays written. *)
Definition try_catch (m : IO Response) (h : Exn → Response) (w : World)
  : Response * World :=
  match m w with
  | (Returned r, w') => (r, w')
  | (Thrown e, w') => (h e, w')
  end.

(** ** Store, file system and gateway primitives *)

Definition plain_error (msg : string) : Exn := mkExn msg None.

(** An environment fault: [Some e] makes the operation throw [e]. *)
Definition faulty (fault : option Exn) : IO unit :=
  match fault with
  | Some e => throw e
  | None => ret tt
  end.

(** The query [{ _id: id, userId }] on the collection: the document
    stored under [id], if its two fields match. *)
Definition lookup_owned (d : gmap N Session) (id uid : N) : option Session :=
  match d !! id with
  | Some s => if decide (_id s = id ∧ userId s = uid) then Some s else None
  | None => None
  end.

(** [SocraticSession.findOne({ _id: id, userId })]. *)
Definition findOne (fault : option Exn) (id uid : N) : IO (option Session) :=
  faulty fault >> λ w, (Returned (lookup_owned (db w) id uid), w).

Definition duplicate_key : Exn := plain_error "E11000 duplicate key error".

(** [session.save()]: an insert for a new document (refused when the
    [_id] is taken), a write-back otherwise. *)
Definition save (fault : option Exn) (isNew : bool) (s : Session) : IO unit :=
  faulty fault >>
  λ w, if isNew && bool_decide (is_Some (db w !! _id s))
       then (Thrown duplicate_key, w)
       else (Returned tt, with_db (<[_id s := s]> (db w)) w).

(** [SocraticSession.findOneAndUpdate({ _id: id, userId },
    { learningLevel: level }, { new: true })]. *)
Definition findOneAndUpdate_level (fault : option Exn) (id uid : N)
    (level : string) : IO (option Session) :=
  faulty fault >>
  λ w, match lookup_owned (db w) id uid with
       | Some s =>
           let s' := with_learningLevel level s in
           (Returned (Some s'), with_db (<[id := s']> (db w)) w)
       | None => (Returned None, w)
       end.

(** [SocraticSession.deleteOne({ _id: id, userId })]. *)
Definition deleteOne (fault : option Exn) (id uid : N) : IO unit :=
  faulty fault >>
  λ w, match lookup_owned (db w) id uid with
       | Some _ => (Returned tt, with_db (delete id (db w)) w)
       | None => (Returned tt, w)
       end.

Definition enoent (call path : string) : Exn :=
  plain_error ("ENOENT: no such file or directory, " +:+ call +:+ " '"
               +:+ path +:+ "'").

(** [fs.unlinkSync(path)]. *)
Definition unlinkSync (path : string) : IO unit :=
  λ w, match files w !! path with
       | Some _ => (Returned tt, with_files (delete path (files w)) w)
       | None => (Thrown (enoent "unlink" path), w)
       end.

(** [axios.post(url, request)]: the service's answer to a request is the
    environment's. *)
Definition axios_post {Rq Rs} (service : Rq → Exn + Rs) (request : Rq)
  : IO Rs :=
  match service request with
  | inr data => ret data
  | inl e => throw e
  end.

(** [fs.createReadStream(path)] read to its end. *)
Definition readFile (path : string) : IO string :=
  λ w, match files w !! path with
       | Some data => (Returned data, w)
       | None => (Thrown (enoent "open" path), w)
       end.

(** ** JavaScript helpers *)

(** [||] on an optional string: [undefined] and [''] are falsy. *)
Definition or_else (o : option string) (d : string) : string :=
  match o with
  | Some "" => d
  | Some s => s
  | None => d
  end.

(** Truthiness of an optional string ([!x] is its negation). *)
Definition truthy (o : option string) : bool :=
  match o with
  | Some "" => false
  | Some _ => true
  | None => false
  end.

(** [l.includes(x)] on an array of strings. *)
Definition includes (l : list string) (x : string) : bool :=
  bool_decide (x ∈ l).

Definition nl : string := String (ascii_of_nat 10) EmptyString.

(** [arr[i]] for a number [i]: [undefined] outside [0 .. length-1]. *)
Definition at_index {A} (l : list A) (i : Z) : option A :=
  if (0 <=? i)%Z then l !! Z.to_nat i else None.

Definition type_error_status : Exn :=
  plain_error "Cannot set properties of undefined (setting 'status')".

(** [session.studyPlan[i].status = v]: a [TypeError] when there is no
    element [i]. *)
Definition set_topic_status (i : Z) (v : string) (s : Session) : IO Session :=
  match at_index (studyPlan s) i with
  | Some t => ret (with_studyPlan (<[Z.to_nat i := with_status v t]> (studyPlan s)) s)
  | None => throw type_error_status
  end.

Definition type_error_read : Exn :=
  plain_error "Cannot read properties of undefined".

(** [session.studyPlan[i]] where a property of it is read next: a
    [TypeError] when there is no element [i]. *)
Definition get_topic (i : Z) (s : Session) : IO Topic :=
  match at_index (studyPlan s) i with
  | Some t => ret t
  | None => throw type_error_read
  end.

(** *** [parseInt(string)] without a radix

    The steps of the language specification: leading white space and line
    terminators are stripped, then an optional sign, then an optional
    [0x]/[0X] prefix (which selects base 16), then the longest run of
    digits is read.  No digit at all gives [NaN]; otherwise the result is
    the Number value of the signed integer read: the nearest double. *)

(** The Numbers [parseInt] can return: [NaN], a finite integer other than
    [-0], [-0], and the two infinities. *)
Inductive Number :=
| NaN
| Num (z : Z)
| NegativeZero
| Infinity (negative : bool).

Definition byte (c : ascii) : Z := Z.of_nat (nat_of_ascii c).

(** White space and line terminators of one byte: TAB, LF, VT, FF, CR and
    the space. *)
Definition is_white_space (c : ascii) : bool :=
  let n := nat_of_ascii c in
  (Nat.leb 9 n && Nat.leb n 13) || Nat.eqb n 32.

(** Of two bytes: the no-break space U+00A0. *)
Definition is_white_space2 (c1 c2 : ascii) : bool :=
  (byte c1 =? 194)%Z && (byte c2 =? 160)%Z.

(** Of three bytes, by the code point [cp] they encode: U+1680, U+2000 to
    U+200A, the line and paragraph separators U+2028 and U+2029, U+202F,
    U+205F, U+3000 and the byte order mark U+FEFF. *)
Definition is_white_space3 (c1 c2 c3 : ascii) : bool :=
  (224 <=? byte c1)%Z && (byte c1 <=? 239)%Z &&
  (128 <=? byte c2)%Z && (byte c2 <=? 191)%Z &&
  (128 <=? byte c3)%Z && (byte c3 <=? 191)%Z &&
  let cp := ((byte c1 - 224) * 4096 + (byte c2 - 128) * 64
             + (byte c3 - 128))%Z in
  (cp =? 0x1680)%Z || ((0x2000 <=? cp)%Z && (cp <=? 0x200A)%Z) ||
  (cp =? 0x2028)%Z || (cp =? 0x2029)%Z || (cp =? 0x202F)%Z ||
  (cp =? 0x205F)%Z || (cp =? 0x3000)%Z || (cp =? 0xFEFF)%Z.

Fixpoint skip_white_space (s : string) : string :=
  match s with
  | String c1 r1 =>
      if is_white_space c1 then skip_white_space r1
      else
        match r1 with
        | String c2 r2 =>
            if is_white_space2 c1 c2 then skip_white_space r2
            else
              match r2 with
              | String c3 r3 =>
                  if is_white_space3 c1 c2 c3 then skip_white_space r3
                  else s
              | EmptyString => s
              end
        | EmptyString => s
        end
  | EmptyString => s
  end.

Definition digit_value (radix : Z) (c : ascii) : option Z :=
  let n := Z.of_nat (nat_of_ascii c) in
  let v := if (48 <=? n)%Z && (n <=? 57)%Z then Some (n - 48)%Z
           else if (97 <=? n)%Z && (n <=? 122)%Z then Some (n - 87)%Z
           else if (65 <=? n)%Z && (n <=? 90)%Z then Some (n - 55)%Z
           else None in
  match v with
  | Some d => if (d <? radix)%Z then Some d else None
  | None => None
  end.

(** The value of the longest prefix of digits, [acc] being the value of
    the digits already read ([None]: none read yet). *)
Fixpoint parse_digits (radix : Z) (acc : option Z) (s : string) : option Z :=
  match s with
  | String c r =>
      match digit_value radix c with
      | Some d => parse_digits radix (Some (default 0%Z acc * radix + d)%Z) r
      | None => acc
      end
  | EmptyString => acc
  end.

(** The natural number [v] rounded to 53 significant bits, to the nearest
    and in a tie to the even one: with [e] bits too many, the nearest
    multiple of [2^e]. *)
Definition round_to_53_bits (v : Z) : Z :=
  let e := (Z.log2 v - 52)%Z in
  if (e <=? 0)%Z then v
  else
    let q := Z.shiftr v e in
    let r := Z.land v (Z.ones e) in
    let half := Z.shiftl 1 (e - 1) in
    let up := (half <? r)%Z || ((r =? half)%Z && Z.odd q) in
    Z.shiftl (if up then q + 1 else q)%Z e.

(** The Number value of the integer of magnitude [v] and the given sign:
    what rounds to [2^1024] or more is an infinity. *)
Definition number_value (negative : bool) (v : Z) : Number :=
  let r := round_to_53_bits v in
  if (2 ^ 1024 <=? r)%Z then Infinity negative
  else if negative then (if (r =? 0)%Z then NegativeZero else Num (- r))
  else Num r.

Definition parseInt (s : string) : Number :=
  let s := skip_white_space s in
  let '(negative, s) :=
    match s with
    | String "-" r => (true, r)
    | String "+" r => (false, r)
    | _ => (false, s)
    end in
  let '(radix, s) :=
    match s with
    | String "0" (String "x" r) => (16%Z, r)
    | String "0" (String "X" r) => (16%Z, r)
    | _ => (10%Z, s)
    end in
  match parse_digits radix None s with
  | Some v => number_value negative v
  | None => NaN
  end.

(** The integer that a Number is, where the handlers compute with it or
    use it as an index: [NaN] and the infinities are none, and [-0] is 0
    ([arr[-0]] is [arr[0]], [-0 + 1] is 1, and JSON writes [-0] as 0). *)
Definition as_integer (n : Number) : option Z :=
  match n with
  | Num z => Some z
  | NegativeZero => Some 0%Z
  | NaN | Infinity _ => None
  end.

(** [arr[n]] for a Number [n]: [arr[NaN]] and [arr[Infinity]] are
    [undefined]. *)
Definition at_parsed {A} (l : list A) (n : Number) : option A :=
  match as_integer n with
  | Some i => at_index l i
  | None => None
  end.

(** ** The route handlers *)

Section Routes.

(** SHA-256 of a byte string, in hexadecimal ([crypto.createHash]). *)
Variable sha256_hex : string → string.

(** The schema of [models/SocraticSession] gives a new document its
    [currentTopicIndex] and [learningLevel]; they are parameters here. *)
Variable default_currentTopicIndex : Z.
Variable default_learningLevel : string.

(** [calculateFileHash(filepath)]: the digest of the whole stream, or the
    stream's error. *)
Definition calculateFileHash (filepath : string) : IO string :=
  let* data := readFile filepath in
  ret (sha256_hex data).

(** *** Middleware: [upload.single('file')] with [dest: 'uploads/']

    A file part of the request is written under a name multer chooses. *)
Record UploadedFile := mkUploadedFile {
  path : string;
  originalname : string
}.

Record FilePart := mkFilePart {
  part_filename : string;
  part_data : string
}.

Definition multer_single (part : option FilePart) (tmpname : string)
    (w : World) : option UploadedFile * World :=
  match part with
  | Some p =>
      let dest := "uploads/" +:+ tmpname in
      (Some (mkUploadedFile dest (part_filename p)),
       with_files (<[dest := part_data p]> (files w)) w)
  | None => (None, w)
  end.

(** *** 1. [POST /upload] *)

Record IngestRequest := mkIngestRequest {
  ingest_file : string;
  ingest_filename : string;
  ingest_file_hash : string
}.

Record IngestData := mkIngestData {
  cached : bool;
  summary : option string
}.

Record UploadEnv := mkUploadEnv {
  upload_find : option Exn;
  upload_ingest : IngestRequest → Exn + IngestData;
  upload_new_id : N;
  upload_save : option Exn
}.

Definition new_session (id uid : N) : Session :=
  mkSession id uid [] [] [] [] default_currentTopicIndex
            default_learningLevel.

(** Lines 79-83: add the file unless its hash is already there. *)
Definition add_file (fileHash filename : string) (session : Session)
  : Session :=
  if negb (includes (fileHashes session) fileHash)
  then with_filenames (filenames session ++ [filename])
         (with_fileHashes (fileHashes session ++ [fileHash]) session)
  else session.

Definition upload_message (filename : string) (summary : option string)
  : string :=
  "I've analyzed **" +:+ filename +:+ "**. " +:+
  (if truthy summary
   then nl +:+ nl +:+ "**Summary:**" +:+ nl +:+ default "" summary
   else "").

Definition upload_handler (env : UploadEnv) (uid : N)
    (file : option UploadedFile) (sessionId : option N)
  : World → Response * World :=
  try_catch
    (match file with
     | None => ret (status_json 400 (BMessage "No file uploaded"))
     | Some file =>
         let filepath := path file in
         let filename := originalname file in
         let* fileHash := calculateFileHash filepath in
         let* stream := readFile filepath in
         let* pyRes := axios_post (upload_ingest env)
                         (mkIngestRequest stream filename fileHash) in
         let* found :=
           match sessionId with
           | Some id => findOne (upload_find env) id uid
           | None => ret None
           end in
         let '(session, isNew) :=
           match found with
           | Some session => (session, false)
           | None => (new_session (upload_new_id env) uid, true)
           end in
         let session := add_file fileHash filename session in
         let session :=
           push_message "assistant"
             (upload_message filename (summary pyRes)) session in
         save (upload_save env) isNew session >>
         unlinkSync filepath >>
         ret (json (BUpload "File processed" (_id session) (cached pyRes)
                      (summary pyRes)))
     end)
    (λ error, status_json 500 (BFailure "Upload failed" (exn_message error))).

(** The route: middleware, then handler. *)
Definition post_upload (env : UploadEnv) (uid : N) (part : option FilePart)
    (tmpname : string) (sessionId : option N) (w : World)
  : Response * World :=
  let '(file, w) := multer_single part tmpname w in
  upload_handler env uid file sessionId w.

(** *** 2. [POST /chat] *)

Record ChatRequest := mkChatRequest {
  chat_query : string;
  chat_file_hashes : list string;
  chat_history : list Message;
  chat_current_topic : option string;
  chat_learning_level : string
}.

Record ChatData := mkChatData {
  response : string;
  topic_completed : bool
}.

Record ChatEnv := mkChatEnv {
  chat_find : option Exn;
  chat_save_user : option Exn;
  chat_service : ChatRequest → Exn + ChatData;
  chat_save : option Exn
}.

(** Lines 126-128. *)
Definition current_topic (session : Session) : option Topic :=
  if (0 <? Z.of_nat (List.length (studyPlan session)))%Z
     && (0 <=? currentTopicIndex session)%Z
     && (currentTopicIndex session <? Z.of_nat (List.length (studyPlan session)))%Z
  then at_index (studyPlan session) (currentTopicIndex session)
  else None.

Definition chat_transition_message (done next : string) : string :=
  "ðŸŽ‰ **Topic Completed!**" +:+ nl +:+ nl +:+
  "You've demonstrated a good understanding of **" +:+ done +:+ "**." +:+ nl
  +:+ "Let's move on to the next topic: **" +:+ next +:+ "**.".

Definition chat_plan_complete_message : string :=
  "ðŸ† **Congratulations!**" +:+ nl +:+ nl +:+
  "You have completed the entire study plan for this document!".

(** Lines 145-169: the automatic topic completion. *)
Definition auto_complete (isTopicCompleted : bool)
    (currentTopic : option Topic) (session : Session) : IO Session :=
  match currentTopic with
  | Some currentTopic =>
      if isTopicCompleted && negb (String.eqb (status currentTopic) "completed")
      then
        let currentIndex := currentTopicIndex session in
        let* session := set_topic_status currentIndex "completed" session in
        let nextIndex := (currentIndex + 1)%Z in
        if (nextIndex <? Z.of_nat (List.length (studyPlan session)))%Z
        then
          let* session := set_topic_status nextIndex "in-progress" session in
          let session := with_currentTopicIndex nextIndex session in
          let* next := get_topic nextIndex session in
          ret (push_message "assistant"
                 (chat_transition_message (topic currentTopic) (topic next))
                 session)
        else
          ret (push_message "assistant" chat_plan_complete_message session)
      else ret session
  | None => ret session
  end.

Definition chat_error_response (error : Exn) : Response :=
  let status :=
    match exn_response error with
    | Some r => if Nat.eqb (err_status r) 0 then 500%nat else err_status r
    | None => 500%nat
    end in
  let msg :=
    or_else (match exn_response error with
             | Some r => err_data_error r
             | None => None
             end) (exn_message error) in
  status_json status (BMessage msg).

Definition chat_handler (env : ChatEnv) (uid : N) (message : option string)
    (sessionId : option N) : World → Response * World :=
  match truthy message, sessionId with
  | true, Some sessionId =>
      let message := default "" message in
      try_catch
        (let* found := findOne (chat_find env) sessionId uid in
         match found with
         | None => ret (status_json 404 (BMessage "Session not found"))
         | Some session =>
             let session := push_message "user" message session in
             save (chat_save_user env) false session >>
             let historyForPy := messages session in
             let currentTopic := current_topic session in
             let* pyRes :=
               axios_post (chat_service env)
                 (mkChatRequest message (fileHashes session) historyForPy
                    (topic <$> currentTopic) (learningLevel session)) in
             let assistantResponse := response pyRes in
             let isTopicCompleted := topic_completed pyRes in
             let session := push_message "assistant" assistantResponse session in
             let* session := auto_complete isTopicCompleted currentTopic session in
             save (chat_save env) false session >>
             ret (json (BChat assistantResponse isTopicCompleted))
         end)
        chat_error_response
  | _, _ => λ w, (status_json 400 (BMessage "Missing fields"), w)
  end.

(** *** 4. and 5. [GET] and [DELETE /history/:sessionId] *)

Definition history_handler (find : option Exn) (uid sessionId : N)
  : World → Response * World :=
  try_catch
    (let* found := findOne find sessionId uid in
     match found with
     | None => ret (status_json 404 (BMessage "Session not found"))
     | Some session => ret (json (BSession (Some session)))
     end)
    (λ _, status_json 500 (BMessage "Failed to fetch history")).

Definition delete_handler (fault : option Exn) (uid sessionId : N)
  : World → Response * World :=
  try_catch
    (deleteOne fault sessionId uid >>
     ret (json (BMessage "Session deleted")))
    (λ _, status_json 500 (BMessage "Failed to delete session")).

(** *** 6. [PUT /session/:sessionId/level] *)

Definition level_handler (fault : option Exn) (uid sessionId : N)
    (level : string) : World → Response * World :=
  if negb (includes ["beginner"; "intermediate"; "advanced"] level)
  then λ w, (status_json 400 (BMessage "Invalid level"), w)
  else
    try_catch
      (let* session := findOneAndUpdate_level fault sessionId uid level in
       ret (json (BSession session)))
      (λ _, status_json 500 (BMessage "Failed to update level")).

(** *** 7. [POST /session/:sessionId/plan] *)

Record PlanRequest := mkPlanRequest {
  plan_file_hashes : list string;
  plan_learning_level : string
}.

(** An item of [study_plan]; the service may or may not send a status. *)
Record PlanItem := mkPlanItem {
  item_topic : string;
  item_description : string;
  item_status : option string
}.

Record PlanEnv := mkPlanEnv {
  plan_find : option Exn;
  plan_service : PlanRequest → Exn + list PlanItem;
  plan_save : option Exn
}.

(** [{ ...item, status: 'pending' }]. *)
Definition pending_topic (item : PlanItem) : Topic :=
  mkTopic (item_topic item) (item_description item) "pending".

Definition plan_message (first : Topic) : string :=
  "**Study Plan Generated!** ðŸ“š" +:+ nl +:+ nl +:+
  "I've created a study plan based on your documents. We'll start with: **"
  +:+ topic first +:+ "**." +:+ nl +:+ nl +:+ description first.

(** Lines 260-275: replace the plan and start its first topic. *)
Definition install_plan (study_plan : list PlanItem) (session : Session)
  : IO Session :=
  let session := with_studyPlan (pending_topic <$> study_plan) session in
  if (0 <? Z.of_nat (List.length (studyPlan session)))%Z
  then
    let* session := set_topic_status 0 "in-progress" session in
    let session := with_currentTopicIndex 0 session in
    let* first := get_topic 0 session in
    ret (push_message "assistant" (plan_message first) session)
  else ret session.

Definition plan_error_response (error : Exn) : Response :=
  let msg :=
    or_else (match exn_response error with
             | Some r => err_data_error r
             | None => None
             end) "Failed to generate plan" in
  status_json 500 (BMessage msg).

Definition plan_handler (env : PlanEnv) (uid sessionId : N)
  : World → Response * World :=
  try_catch
    (let* found := findOne (plan_find env) sessionId uid in
     match found with
     | None => ret (status_json 404 (BMessage "Session not found"))
     | Some session =>
         let* planData :=
           axios_post (plan_service env)
             (mkPlanRequest (fileHashes session) (learningLevel session)) in
         let* session := install_plan planData session in
         save (plan_save env) false session >>
         ret (json (BSession (Some session)))
     end)
    plan_error_response.

(** *** 8. [PUT /session/:sessionId/topic/:topicIndex] *)

Record TopicEnv := mkTopicEnv {
  topic_find : option Exn;
  topic_save : option Exn
}.

Definition topic_transition_message (done next : string) : string :=
  "Great job completing **" +:+ done +:+ "**! ðŸŽ‰" +:+ nl +:+ nl +:+
  "Let's move on to: **" +:+ next +:+ "**.".

Definition topic_plan_complete_message : string :=
  "Congratulations! You've completed the entire study plan! ðŸŽ“".

(** Lines 301-325, for an index that addresses a topic. *)
Definition update_topic (topicIndex : Z) (status' : string)
    (session : Session) : IO Session :=
  let* session := set_topic_status topicIndex status' session in
  if String.eqb status' "completed" then
    let nextIndex := (topicIndex + 1)%Z in
    if (nextIndex <? Z.of_nat (List.length (studyPlan session)))%Z then
      let* next := get_topic nextIndex session in
      if String.eqb (status next) "pending" then
        let* session := set_topic_status nextIndex "in-progress" session in
        let session := with_currentTopicIndex nextIndex session in
        let* done := get_topic topicIndex session in
        let* next := get_topic nextIndex session in
        ret (push_message "assistant"
               (topic_transition_message (topic done) (topic next)) session)
      else ret session
    else
      ret (push_message "assistant" topic_plan_complete_message session)
  else if String.eqb status' "in-progress" then
    ret (with_currentTopicIndex topicIndex session)
  else ret session.

Definition topic_handler (env : TopicEnv) (uid sessionId : N)
    (topicIndexParam : string) (status' : string)
  : World → Response * World :=
  let topicIndex := parseInt topicIndexParam in
  try_catch
    (let* found := findOne (topic_find env) sessionId uid in
     match found with
     | None => ret (status_json 404 (BMessage "Session not found"))
     | Some session =>
         match as_integer topicIndex,
               at_parsed (studyPlan session) topicIndex with
         | Some topicIndex, Some _ =>
             let* session := update_topic topicIndex status' session in
             save (topic_save env) false session >>
             ret (json (BSession (Some session)))
         | _, _ => ret (status_json 400 (BMessage "Invalid topic index"))
         end
     end)
    (λ _, status_json 500 (BMessage "Failed to update topic")).


(** ** Notions used by the properties *)

(** How many topics of a plan have the status [st]. *)
Fixpoint count_status (st : string) (plan : list Topic) : nat :=
  match plan with
  | t :: plan => (if String.eqb (status t) st then 1 else 0) + count_status st plan
  | [] => 0
  end.

Definition in_progress_count (s : Session) : nat :=
  count_status "in-progress" (studyPlan s).

(** The text [text] contains the name [name]. *)
Definition names (text name : string) : Prop :=
  ∃ before after, text = before +:+ name +:+ after.

(** The plan a session has right after plan generation: the items of the
    service, all pending but the first. *)
Definition fresh_plan (items : list PlanItem) : list Topic :=
  match pending_topic <$> items with
  | first :: rest => with_status "in-progress" first :: rest
  | [] => []
  end.

(** The route parameter a client sends for the topic index [k]: its
    decimal numeral. *)
Definition index_param (k : nat) : string :=
  NilZero.string_of_uint (Nat.to_uint k).

(** [set-topic-status(k, 'completed')] for the indices addressed by
    [params], left to right, every call with the same environment. *)
Fixpoint complete_in_order (env : TopicEnv) (uid sessionId : N)
    (params : list string) (w : World) : World :=
  match params with
  | param :: params =>
      complete_in_order env uid sessionId params
        (topic_handler env uid sessionId param "completed" w).2
  | [] => w
  end.

(** The plan built from [items] in which the first [k] topics are
    completed, topic [k] is in progress and the others are pending. *)
Fixpoint plan_after (k : nat) (items : list PlanItem) : list Topic :=
  match items, k with
  | item :: items, O =>
      with_status "in-progress" (pending_topic item) :: (pending_topic <$> items)
  | item :: items, S k =>
      with_status "completed" (pending_topic item) :: plan_after k items
  | [], _ => []
  end.

(** The status of topic [j] in [plan_after k items]. *)
Definition status_after (k j : nat) : string :=
  if decide (j < k)%nat then "completed"
  else if decide (j = k) then "in-progress" else "pending".

(** A computation that does not touch the world and does not depend on
    it. *)
Definition pure_io {A} (m : IO A) : Prop :=
  ∃ o, ∀ w, m w = (o, w).

(** Every stored session satisfies [P]. *)
Definition all_sessions (P : Session → Prop) (w : World) : Prop :=
  ∀ id s, db w !! id = Some s → P s.

(** A computation that keeps [P] on all stored sessions and whose result,
    when it returns one, satisfies [Q]. *)
Definition keeps {A} (P : Session → Prop) (m : IO A) (Q : A → Prop) : Prop :=
  ∀ w, all_sessions P w →
       all_sessions P (m w).2 ∧
       match (m w).1 with
       | Returned a => Q a
       | Thrown _ => True
       end.

(** No topic of the plan is in progress, and: only the topic at index [c],
    if any, is in progress. *)
Definition none_in_progress (plan : list Topic) : Prop :=
  ∀ (j : nat) (t : Topic), plan !! j = Some t → status t ≠ "in-progress".

Definition only_at (c : Z) (plan : list Topic) : Prop :=
  ∀ (j : nat) (t : Topic),
    plan !! j = Some t → status t = "in-progress" → c = Z.of_nat j.

(** Two sessions with the same documents. *)
Definition same_documents (s s' : Session) : Prop :=
  fileHashes s' = fileHashes s ∧ filenames s' = filenames s.

(** The session stored under [id]. *)
Definition stored (w : World) (id : N) : option Session := db w !! id.

(** ** The sessions a client can reach

    One step is one request, with any arguments and any behaviour of the
    environment.  [manual_ok] restricts the calls of the topic-status
    route, so that the same relation describes the whole interface and a
    disciplined use of it. *)
Inductive step (manual_ok : World → N → N → string → string → Prop)
  : World → World → Prop :=
| step_upload env uid part tmpname sessionId w :
    step manual_ok w (post_upload env uid part tmpname sessionId w).2
| step_chat env uid message sessionId w :
    step manual_ok w (chat_handler env uid message sessionId w).2
| step_history find uid sessionId w :
    step manual_ok w (history_handler find uid sessionId w).2
| step_delete fault uid sessionId w :
    step manual_ok w (delete_handler fault uid sessionId w).2
| step_level fault uid sessionId level w :
    step manual_ok w (level_handler fault uid sessionId level w).2
| step_plan env uid sessionId w :
    step manual_ok w (plan_handler env uid sessionId w).2
| step_topic env uid sessionId param status' w :
    manual_ok w uid sessionId param status' →
    step manual_ok w (topic_handler env uid sessionId param status' w).2.

Definition empty_world : World := mkWorld ∅ ∅.

(** Every call of the topic-status route is allowed. *)
Definition any_call (w : World) (uid sessionId : N) (param status' : string)
  : Prop := True.

Definition reachable : World → Prop := rtc (step any_call) empty_world.

(** A topic-status call that either addresses the session's current topic
    or stores a status other than ['completed'] and ['in-progress']. *)
Definition cursor_call (w : World) (uid sessionId : N)
    (param status' : string) : Prop :=
  (status' ≠ "completed" ∧ status' ≠ "in-progress") ∨
  ∃ s, lookup_owned (db w) sessionId uid = Some s ∧
       as_integer (parseInt param) = Some (currentTopicIndex s).

Definition reachable_by_cursor_calls : World → Prop :=
  rtc (step cursor_call) empty_world.

(** Every in-progress topic of the session is the one under the cursor. *)
Definition in_progress_at_cursor (s : Session) : Prop :=
  ∀ (j : nat) (t : Topic),
    studyPlan s !! j = Some t → status t = "in-progress" →
    currentTopicIndex s = Z.of_nat j.

(** A topic-status call on a session that either addresses the current
    topic or stores a status other than ['completed'] and ['in-progress']. *)
Definition cursor_update (s : Session) (i : Z) (status' : string) : Prop :=
  (status' ≠ "completed" ∧ status' ≠ "in-progress") ∨ i = currentTopicIndex s.

(** The two document lists of a session are duplicate-free and aligned. *)
Definition documents_ok (s : Session) : Prop :=
  NoDup (fileHashes s) ∧ List.length (filenames s) = List.length (fileHashes s).

(** ** Notions used by the further properties *)

(** [arr.join(sep)] on an array of strings. *)
Fixpoint join (sep : string) (l : list string) : string :=
  match l with
  | [] => ""
  | x :: rest =>
      match rest with
      | [] => x
      | _ :: _ => x +:+ sep +:+ join sep rest
      end
  end.

(** *** 3. [GET /sessions]

    The documents carry [createdAt] and [updatedAt]; the model takes them
    from the environment, per document id. *)
Record SessionSummary := mkSessionSummary {
  summary_id : N;
  summary_filename : string;
  summary_filenames : list string;
  summary_createdAt : Z;
  summary_updatedAt : Z
}.

Inductive ListBody :=
| LSessions (sessions : list SessionSummary)
| LMessage (message : string).

(** [.sort({ updatedAt: -1 })]: insertion into a list sorted by decreasing
    key. *)
Fixpoint insert_desc (key : Session → Z) (s : Session) (l : list Session)
  : list Session :=
  match l with
  | x :: rest =>
      if (key x <? key s)%Z then s :: l else x :: insert_desc key s rest
  | [] => [s]
  end.

Definition sort_desc (key : Session → Z) (l : list Session) : list Session :=
  foldr (insert_desc key) [] l.

(** The documents of the collection. *)
Definition documents (w : World) : list Session :=
  (map_to_list (db w)).*2.

(** [SocraticSession.find({ userId }).sort({ updatedAt: -1 })]. *)
Definition find_sorted (fault : option Exn) (updatedAt : N → Z) (uid : N)
  : IO (list Session) :=
  faulty fault >>
  λ w, (Returned
          (sort_desc (λ s, updatedAt (_id s))
             (filter (λ s, userId s = uid) (documents w))), w).

(** Lines 189-195. *)
Definition summarize (createdAt updatedAt : N → Z) (s : Session)
  : SessionSummary :=
  mkSessionSummary (_id s)
    (or_else (Some (join ", " (filenames s))) "Untitled Session")
    (filenames s) (createdAt (_id s)) (updatedAt (_id s)).

Definition sessions_handler (fault : option Exn) (createdAt updatedAt : N → Z)
    (uid : N) (w : World) : (nat * ListBody) * World :=
  match find_sorted fault updatedAt uid w with
  | (Returned sessions, w') =>
      ((200%nat, LSessions (summarize createdAt updatedAt <$> sessions)), w')
  | (Thrown _, w') => ((500%nat, LMessage "Failed to fetch sessions"), w')
  end.

(** *** One request of an owner, and what it may do to the collection *)

(** One request made in the name of the owner [uid], with any arguments and
    any behaviour of the environment. *)
Inductive request_by (uid : N) : World → World → Prop :=
| by_upload env part tmpname sessionId w :
    request_by uid w (post_upload env uid part tmpname sessionId w).2
| by_chat env message sessionId w :
    request_by uid w (chat_handler env uid message sessionId w).2
| by_sessions fault createdAt updatedAt w :
    request_by uid w (sessions_handler fault createdAt updatedAt uid w).2
| by_history find sessionId w :
    request_by uid w (history_handler find uid sessionId w).2
| by_delete fault sessionId w :
    request_by uid w (delete_handler fault uid sessionId w).2
| by_level fault sessionId level w :
    request_by uid w (level_handler fault uid sessionId level w).2
| by_plan env sessionId w :
    request_by uid w (plan_handler env uid sessionId w).2
| by_topic env sessionId param status' w :
    request_by uid w (topic_handler env uid sessionId param status' w).2.

(** The collection of [w'] compared with that of [w], key by key: a
    document that stays is unchanged or is one of [uid]'s, stored under its
    own id and changed within [R]; a document that goes is one of [uid]'s;
    a document that comes is one of [uid]'s, stored under its own id and
    made from a new session within [R]. *)
Definition store_effect (uid : N) (R : Session → Session → Prop)
    (w w' : World) : Prop :=
  ∀ id,
    match db w !! id, db w' !! id with
    | Some s, Some s' =>
        s' = s ∨ (_id s = id ∧ userId s = uid ∧
                  _id s' = id ∧ userId s' = uid ∧ R s s')
    | Some s, None => _id s = id ∧ userId s = uid
    | None, Some s' =>
        _id s' = id ∧ userId s' = uid ∧ R (new_session id uid) s'
    | None, None => True
    end.

(** The transcript entries a handler may append. *)
Definition handler_role (r : string) : Prop := r = "user" ∨ r = "assistant".

(** Name and description of every topic of a plan, in order. *)
Definition topic_names (plan : list Topic) : list (string * string) :=
  (λ t, (topic t, description t)) <$> plan.

(** The cursor addresses a topic whenever there is a plan. *)
Definition cursor_valid (s : Session) : Prop :=
  studyPlan s = [] ∨
  (0 ≤ currentTopicIndex s < Z.of_nat (List.length (studyPlan s)))%Z.

(** Every document is stored under its own id. *)
Definition keyed_by_id (w : World) : Prop :=
  ∀ id s, db w !! id = Some s → _id s = id.

(** The transcript of [s'] is that of [s] with entries of the handlers'
    roles appended. *)
Definition transcript_grows (s s' : Session) : Prop :=
  ∃ entries, messages s' = messages s ++ entries ∧
             Forall (λ m, handler_role (role m)) entries.

(** The documents of [s'] are those of [s], in the same order, with
    further ones appended. *)
Definition documents_grow (s s' : Session) : Prop :=
  fileHashes s `prefix_of` fileHashes s' ∧
  filenames s `prefix_of` filenames s'.

(** Every transcript entry has one of the handlers' roles. *)
Definition roles_ok (s : Session) : Prop :=
  Forall (λ m, handler_role (role m)) (messages s).

(** send-message for each of the messages [ms], in order, every call with
    the same environment. *)
Fixpoint chat_in_order (env : ChatEnv) (uid sessionId : N)
    (ms : list string) (w : World) : World :=
  match ms with
  | m :: ms =>
      chat_in_order env uid sessionId ms
        (chat_handler env uid (Some m) (Some sessionId) w).2
  | [] => w
  end.


(** ** Basic facts: array access *)

Lemma at_index_Some {A} (l : list A) (i : Z) (x : A) :
  at_index l i = Some x ↔ (0 ≤ i)%Z ∧ l !! Z.to_nat i = Some x.
Proof.
  unfold at_index. destruct (Z.leb_spec 0 i); split.
  - intros. split; [lia | done].
  - by intros [_ ?].
  - done.
  - intros [? _]. lia.
Qed.

Lemma at_index_None {A} (l : list A) (i : Z) :
  at_index l i = None ↔ (i < 0 ∨ Z.of_nat (List.length l) ≤ i)%Z.
Proof.
  unfold at_index. destruct (Z.leb_spec 0 i).
  - rewrite lookup_ge_None. lia.
  - split; [lia | done].
Qed.

Lemma at_index_range {A} (l : list A) (i : Z) (x : A) :
  at_index l i = Some x → (0 ≤ i < Z.of_nat (List.length l))%Z.
Proof.
  intros [? H%lookup_lt_Some]%at_index_Some. lia.
Qed.

Lemma at_index_insert_eq {A} (l : list A) (i : Z) (x y : A) :
  at_index l i = Some x → at_index (<[Z.to_nat i := y]> l) i = Some y.
Proof.
  intros [? H]%at_index_Some. apply at_index_Some. split; [done |].
  apply list_lookup_insert_eq. by eapply lookup_lt_Some.
Qed.

Lemma at_index_insert_ne {A} (l : list A) (i j : Z) (y : A) :
  (0 ≤ i)%Z → i ≠ j → at_index (<[Z.to_nat i := y]> l) j = at_index l j.
Proof.
  intros Hi Hne. unfold at_index. destruct (Z.leb_spec 0 j); [| done].
  apply list_lookup_insert_ne. lia.
Qed.

Lemma lookup_owned_Some (d : gmap N Session) (id uid : N) (s : Session) :
  lookup_owned d id uid = Some s ↔
  d !! id = Some s ∧ _id s = id ∧ userId s = uid.
Proof.
  unfold lookup_owned. destruct (d !! id) as [s'|]; [| by split; [| intros []]].
  case_decide as Hd.
  - split; [by intros [= ->] | by intros []].
  - split; [done | intros ([= ->] & ? & ?); by destruct Hd].
Qed.

Lemma string_append_assoc (a b c : string) :
  (a +:+ b) +:+ c = a +:+ b +:+ c.
Proof.
  induction a as [|x a IH]; [reflexivity |].
  change (String x ((a +:+ b) +:+ c) = String x (a +:+ b +:+ c)).
  by rewrite IH.
Qed.

Lemma names_here (name after : string) : names (name +:+ after) name.
Proof. by exists "", after. Qed.

Lemma names_later (prefix text name : string) :
  names text name → names (prefix +:+ text) name.
Proof.
  intros (before & after & ->). exists (prefix +:+ before), after.
  by rewrite string_append_assoc.
Qed.

Ltac find_name := repeat first [apply names_here | apply names_later].

Lemma with_db_insert_twice (w : World) (id : N) (s1 s2 : Session) :
  with_db (<[id := s2]> (db (with_db (<[id := s1]> (db w)) w)))
          (with_db (<[id := s1]> (db w)) w)
  = with_db (<[id := s2]> (db w)) w.
Proof. unfold with_db. simpl. by rewrite insert_insert_eq. Qed.

(** ** Running the handlers *)

Ltac io_unfold :=
  unfold try_catch, findOne, save, faulty, axios_post, bind, ret, throw.

(** The chat handler on a found session, when neither the store nor the
    service fails: the stored session is the one the automatic step
    produces from the session with the question and the reply appended. *)
Lemma chat_handler_run env uid m sid w session data after :
  m ≠ "" →
  lookup_owned (db w) sid uid = Some session →
  chat_find env = None → chat_save_user env = None → chat_save env = None →
  let asked := push_message "user" m session in
  chat_service env
    (mkChatRequest m (fileHashes asked) (messages asked)
       (topic <$> current_topic asked) (learningLevel asked)) = inr data →
  (∀ w', auto_complete (topic_completed data) (current_topic asked)
           (push_message "assistant" (response data) asked) w'
         = (Returned after, w')) →
  _id after = sid →
  chat_handler env uid (Some m) (Some sid) w
  = (json (BChat (response data) (topic_completed data)),
     with_db (<[sid := after]> (db w)) w).
Proof.
  intros Hm Hfound Hf Hs1 Hs2 asked Hsvc Hauto Hid.
  apply lookup_owned_Some in Hfound as (Hdb & Hsid & Huid).
  unfold chat_handler.
  assert (truthy (Some m) = true) as -> by (by destruct m).
  io_unfold. rewrite Hf, Hs1, Hs2. simpl.
  unfold lookup_owned. rewrite Hdb, decide_True by done. simpl.
  subst asked. simpl in Hsvc. rewrite Hsvc, Hauto, Hid, Hsid.
  by rewrite with_db_insert_twice.
Qed.

Lemma current_topic_at_index (s : Session) :
  current_topic s = at_index (studyPlan s) (currentTopicIndex s).
Proof.
  unfold current_topic.
  destruct (at_index (studyPlan s) (currentTopicIndex s)) as [t|] eqn:Hat.
  - apply at_index_range in Hat.
    assert ((0 <? Z.of_nat (List.length (studyPlan s)))%Z = true) as ->
      by (apply Z.ltb_lt; lia).
    assert ((0 <=? currentTopicIndex s)%Z = true) as ->
      by (apply Z.leb_le; lia).
    assert ((currentTopicIndex s <? Z.of_nat (List.length (studyPlan s)))%Z = true)
      as -> by (apply Z.ltb_lt; lia).
    done.
  - by destruct (_ && _).
Qed.

Lemma eqb_completed (st : string) :
  negb (String.eqb st "completed") = bool_decide (st ≠ "completed").
Proof.
  destruct (String.eqb_spec st "completed").
  - by rewrite bool_decide_eq_false_2 by auto.
  - by rewrite bool_decide_eq_true_2.
Qed.

(** The automatic step when it has nothing to do: no signal, no current
    topic, or a current topic that is already completed. *)
Lemma auto_complete_idle (signal : bool) (current : option Topic)
    (s : Session) (w : World) :
  signal = false ∨ current = None ∨
  (∃ t, current = Some t ∧ status t = "completed") →
  auto_complete signal current s w = (Returned s, w).
Proof.
  unfold auto_complete.
  intros [-> | [-> | (t & -> & Hst)]]; [by destruct current | done |].
  rewrite Hst. simpl. by rewrite andb_false_r.
Qed.

(** The automatic step from a current topic that is not completed, with a
    topic after it. *)
Lemma auto_complete_advance (s : Session) (t n : Topic) (w : World) :
  let i := currentTopicIndex s in
  at_index (studyPlan s) i = Some t →
  status t ≠ "completed" →
  at_index (studyPlan s) (i + 1) = Some n →
  auto_complete true (Some t) s w
  = (Returned
       (push_message "assistant"
          (chat_transition_message (topic t) (topic n))
          (with_currentTopicIndex (i + 1)
             (with_studyPlan
                (<[Z.to_nat (i + 1) := with_status "in-progress" n]>
                   (<[Z.to_nat i := with_status "completed" t]> (studyPlan s)))
                s))), w).
Proof.
  intros i Hi Hst Hn. unfold auto_complete.
  rewrite eqb_completed, bool_decide_eq_true_2 by done. simpl.
  pose proof (at_index_range _ _ _ Hi) as Hri.
  pose proof (at_index_range _ _ _ Hn) as Hrn.
  unfold bind, set_topic_status. fold i. rewrite Hi. unfold ret. simpl.
  rewrite length_insert.
  assert ((i + 1 <? Z.of_nat (List.length (studyPlan s)))%Z = true) as ->
    by (apply Z.ltb_lt; lia).
  rewrite at_index_insert_ne, Hn by lia. simpl.
  unfold get_topic. simpl.
  by erewrite at_index_insert_eq
    by (rewrite at_index_insert_ne by lia; exact Hn).
Qed.

(** The automatic step from the last topic of the plan. *)
Lemma auto_complete_finish (s : Session) (t : Topic) (w : World) :
  let i := currentTopicIndex s in
  at_index (studyPlan s) i = Some t →
  status t ≠ "completed" →
  at_index (studyPlan s) (i + 1) = None →
  auto_complete true (Some t) s w
  = (Returned
       (push_message "assistant" chat_plan_complete_message
          (with_studyPlan
             (<[Z.to_nat i := with_status "completed" t]> (studyPlan s)) s)),
     w).
Proof.
  intros i Hi Hst Hn. unfold auto_complete.
  rewrite eqb_completed, bool_decide_eq_true_2 by done. simpl.
  pose proof (at_index_range _ _ _ Hi) as Hri.
  apply at_index_None in Hn.
  unfold bind, set_topic_status. fold i. rewrite Hi. unfold ret. simpl.
  rewrite length_insert.
  assert ((i + 1 <? Z.of_nat (List.length (studyPlan s)))%Z = false) as ->
    by (apply Z.ltb_ge; lia).
  done.
Qed.

(** ** C1: the automatic step of send-message *)

(** C1.  A chat call on an existing session, answered by the service with
    [topic_completed = true] while store and service work: the stored
    session keeps its documents and level and has the question and the
    reply appended.  When [currentTopicIndex] addresses a topic [t] that is
    not completed, [t] becomes completed; with a topic [n] at [index + 1],
    [n] becomes in-progress, the cursor moves to [index + 1] and exactly one
    further entry, naming [t] and [n], follows the reply; without one, the
    plan-complete entry, whose text is that of line 166, follows the reply
    and the cursor stays.  When the
    addressed topic is already completed, or the cursor addresses no topic,
    plan and cursor are unchanged and nothing follows the reply. *)
Theorem chat_automatic_step env uid m sid w session data :
  m ≠ "" →
  lookup_owned (db w) sid uid = Some session →
  chat_find env = None → chat_save_user env = None → chat_save env = None →
  let asked := push_message "user" m session in
  chat_service env
    (mkChatRequest m (fileHashes asked) (messages asked)
       (topic <$> current_topic asked) (learningLevel asked)) = inr data →
  topic_completed data = true →
  let i := currentTopicIndex session in
  let plan := studyPlan session in
  let replied :=
    messages session ++
    [mkMessage "user" m; mkMessage "assistant" (response data)] in
  ∃ plan' i' entries,
    chat_handler env uid (Some m) (Some sid) w
    = (json (BChat (response data) true),
       with_db
         (<[sid := mkSession sid uid (fileHashes session) (filenames session)
                     (replied ++ entries) plan' i' (learningLevel session)]>
            (db w)) w) ∧
    match at_index plan i with
    | Some t =>
        if decide (status t = "completed") then
          plan' = plan ∧ i' = i ∧ entries = []
        else
          status <$> at_index plan' i = Some "completed" ∧
          match at_index plan (i + 1) with
          | Some n =>
              plan' = <[Z.to_nat (i + 1) := with_status "in-progress" n]>
                        (<[Z.to_nat i := with_status "completed" t]> plan) ∧
              status <$> at_index plan' (i + 1) = Some "in-progress" ∧
              i' = (i + 1)%Z ∧
              ∃ text, entries = [mkMessage "assistant" text] ∧
                      names text (topic t) ∧ names text (topic n)
          | None =>
              plan' = <[Z.to_nat i := with_status "completed" t]> plan ∧
              i' = i ∧
              entries =
                [mkMessage "assistant"
                   ("ðŸ† **Congratulations!**" +:+ nl +:+ nl +:+
                    "You have completed the entire study plan for this"
                    +:+ " document!")]
          end
    | None => plan' = plan ∧ i' = i ∧ entries = []
    end.
Proof.
  intros Hm Hfound Hf Hs1 Hs2 asked Hsvc Hsig i plan replied.
  pose proof Hfound as (_ & Hsid & Huid)%lookup_owned_Some.
  pose proof (λ after, chat_handler_run env uid m sid w session data after
                         Hm Hfound Hf Hs1 Hs2) as Hrun.
  cbv zeta in Hrun. fold asked in Hrun.
  assert (current_topic asked = at_index plan i) as Hcur
    by apply current_topic_at_index.
  rewrite Hsig, Hcur in Hrun.
  set (told := push_message "assistant" (response data) asked) in *.
  assert (∀ after plan' i' entries,
    (∀ w', auto_complete true (at_index plan i) told w' = (Returned after, w')) →
    after = mkSession sid uid (fileHashes session) (filenames session)
              (replied ++ entries) plan' i' (learningLevel session) →
    chat_handler env uid (Some m) (Some sid) w
    = (json (BChat (response data) true),
       with_db
         (<[sid := mkSession sid uid (fileHashes session) (filenames session)
                     (replied ++ entries) plan' i' (learningLevel session)]>
            (db w)) w)) as Hgoal.
  { intros after plan' i' entries Hauto ->.
    apply Hrun; [by rewrite <- Hcur | exact Hauto | done]. }
  clear Hrun.
  assert (studyPlan told = plan ∧ currentTopicIndex told = i) as [Hp Hc]
    by done.
  destruct (at_index plan i) as [t|] eqn:Hi.
  - destruct (decide (status t = "completed")) as [Hst|Hst].
    + exists plan, i, []. split; [| done].
      eapply Hgoal; [intros; apply auto_complete_idle; eauto |].
      subst told asked replied plan i. destruct session. simpl in *.
      unfold push_message, with_messages. simpl.
      by rewrite app_nil_r, <- app_assoc, Hsid, Huid.
    + pose proof (at_index_range _ _ _ Hi) as Hri.
      destruct (at_index plan (i + 1)) as [n|] eqn:Hn.
      * eexists _, _, _. split.
        { eapply Hgoal.
          - intros w'. apply auto_complete_advance; by rewrite ?Hp, ?Hc.
          - rewrite Hp, Hc.
            subst told asked replied plan i. destruct session. simpl in *.
            unfold push_message, with_messages. simpl.
            rewrite <- !app_assoc, Hsid, Huid. simpl. reflexivity. }
        split; [| split; [done | split; [| split; [done |]]]].
        -- rewrite at_index_insert_ne by lia.
           by erewrite at_index_insert_eq.
        -- erewrite at_index_insert_eq; [done |].
           by rewrite at_index_insert_ne by lia.
        -- eexists. split; [reflexivity |].
           unfold chat_transition_message. split.
           ++ find_name.
           ++ find_name.
      * exists (<[Z.to_nat i := with_status "completed" t]> plan), i,
          [mkMessage "assistant" chat_plan_complete_message].
        split; [| split; [by erewrite at_index_insert_eq | done]].
        eapply Hgoal.
        -- intros w'. apply auto_complete_finish; by rewrite ?Hp, ?Hc.
        -- rewrite Hp.
           subst told asked replied plan i. destruct session. simpl in *.
           unfold push_message, with_messages. simpl.
           by rewrite <- !app_assoc, Hsid, Huid.
  - exists plan, i, []. split; [| done].
    eapply Hgoal; [intros; apply auto_complete_idle; eauto |].
    subst told asked replied plan i. destruct session. simpl in *.
    unfold push_message, with_messages. simpl.
    by rewrite app_nil_r, <- app_assoc, Hsid, Huid.
Qed.

(** ** C2: the manual transition to ['completed'] *)

(** The topic-status handler on a found session and an index that
    addresses a topic, when the store does not fail. *)
Lemma topic_handler_run env uid sid param status' w session i t after :
  lookup_owned (db w) sid uid = Some session →
  topic_find env = None → topic_save env = None →
  as_integer (parseInt param) = Some i →
  at_index (studyPlan session) i = Some t →
  (∀ w', update_topic i status' session w' = (Returned after, w')) →
  _id after = sid →
  topic_handler env uid sid param status' w
  = (json (BSession (Some after)), with_db (<[sid := after]> (db w)) w).
Proof.
  intros Hfound Hf Hs Hparse Hi Hupd Hid.
  unfold topic_handler, at_parsed. io_unfold. rewrite Hf, Hs, Hparse. simpl.
  rewrite Hfound, Hi, Hupd. by rewrite Hid.
Qed.

Lemma eqb_pending (st : string) :
  String.eqb st "pending" = bool_decide (st = "pending").
Proof.
  destruct (String.eqb_spec st "pending").
  - by rewrite bool_decide_eq_true_2.
  - by rewrite bool_decide_eq_false_2.
Qed.

(** Completing topic [i] when the next topic is pending. *)
Lemma update_topic_completed_promote (s : Session) (i : Z) (t n : Topic)
    (w : World) :
  at_index (studyPlan s) i = Some t →
  at_index (studyPlan s) (i + 1) = Some n →
  status n = "pending" →
  update_topic i "completed" s w
  = (Returned
       (push_message "assistant"
          (topic_transition_message (topic t) (topic n))
          (with_currentTopicIndex (i + 1)
             (with_studyPlan
                (<[Z.to_nat (i + 1) := with_status "in-progress" n]>
                   (<[Z.to_nat i := with_status "completed" t]> (studyPlan s)))
                s))), w).
Proof.
  intros Hi Hn Hst. unfold update_topic.
  pose proof (at_index_range _ _ _ Hi) as Hri.
  pose proof (at_index_range _ _ _ Hn) as Hrn.
  unfold bind, set_topic_status, get_topic, ret. rewrite Hi. simpl.
  rewrite length_insert.
  assert ((i + 1 <? Z.of_nat (List.length (studyPlan s)))%Z = true) as ->
    by (apply Z.ltb_lt; lia).
  rewrite !at_index_insert_ne, !Hn by lia. simpl.
  rewrite eqb_pending, bool_decide_eq_true_2 by done.
  erewrite (at_index_insert_eq _ (i + 1))
    by (rewrite at_index_insert_ne by lia; exact Hn).
  rewrite at_index_insert_ne by lia.
  by erewrite at_index_insert_eq.
Qed.

(** Completing topic [i] when the next topic is not pending. *)
Lemma update_topic_completed_keep (s : Session) (i : Z) (t n : Topic)
    (w : World) :
  at_index (studyPlan s) i = Some t →
  at_index (studyPlan s) (i + 1) = Some n →
  status n ≠ "pending" →
  update_topic i "completed" s w
  = (Returned
       (with_studyPlan
          (<[Z.to_nat i := with_status "completed" t]> (studyPlan s)) s), w).
Proof.
  intros Hi Hn Hst. unfold update_topic.
  pose proof (at_index_range _ _ _ Hi) as Hri.
  pose proof (at_index_range _ _ _ Hn) as Hrn.
  unfold bind, set_topic_status, get_topic, ret. rewrite Hi. simpl.
  rewrite length_insert.
  assert ((i + 1 <? Z.of_nat (List.length (studyPlan s)))%Z = true) as ->
    by (apply Z.ltb_lt; lia).
  rewrite !at_index_insert_ne, !Hn by lia.
  by rewrite eqb_pending, bool_decide_eq_false_2 by done.
Qed.

(** Completing the last topic of the plan. *)
Lemma update_topic_completed_last (s : Session) (i : Z) (t : Topic)
    (w : World) :
  at_index (studyPlan s) i = Some t →
  at_index (studyPlan s) (i + 1) = None →
  update_topic i "completed" s w
  = (Returned
       (push_message "assistant" topic_plan_complete_message
          (with_studyPlan
             (<[Z.to_nat i := with_status "completed" t]> (studyPlan s)) s)),
     w).
Proof.
  intros Hi Hn. unfold update_topic.
  pose proof (at_index_range _ _ _ Hi) as Hri.
  apply at_index_None in Hn.
  unfold bind, set_topic_status, get_topic, ret. rewrite Hi. simpl.
  rewrite length_insert.
  assert ((i + 1 <? Z.of_nat (List.length (studyPlan s)))%Z = false) as ->
    by (apply Z.ltb_ge; lia).
  done.
Qed.

(** C2.  [set-topic-status(i, 'completed')] at an index that addresses a
    topic [t], while the store works: topic [i] becomes completed.  With a
    pending topic [n] at [i + 1], [n] becomes in-progress, the cursor moves
    to [i + 1] and one transition entry is appended; with a topic at
    [i + 1] of any other status (in-progress, completed), that topic, the
    cursor and the transcript stay as they are; without a topic at
    [i + 1], the plan-complete entry, whose text is that of line 320, is
    appended. *)
Theorem manual_completed_transition env uid sid param w session i t :
  lookup_owned (db w) sid uid = Some session →
  topic_find env = None → topic_save env = None →
  as_integer (parseInt param) = Some i →
  at_index (studyPlan session) i = Some t →
  let plan := studyPlan session in
  ∃ plan' i' entries,
    let after :=
      mkSession sid uid (fileHashes session) (filenames session)
        (messages session ++ entries) plan' i' (learningLevel session) in
    topic_handler env uid sid param "completed" w
    = (json (BSession (Some after)), with_db (<[sid := after]> (db w)) w) ∧
    status <$> at_index plan' i = Some "completed" ∧
    match at_index plan (i + 1) with
    | Some n =>
        if decide (status n = "pending") then
          plan' = <[Z.to_nat (i + 1) := with_status "in-progress" n]>
                    (<[Z.to_nat i := with_status "completed" t]> plan) ∧
          status <$> at_index plan' (i + 1) = Some "in-progress" ∧
          i' = (i + 1)%Z ∧
          ∃ text, entries = [mkMessage "assistant" text] ∧
                  names text (topic t) ∧ names text (topic n)
        else
          plan' = <[Z.to_nat i := with_status "completed" t]> plan ∧
          at_index plan' (i + 1) = Some n ∧
          i' = currentTopicIndex session ∧
          entries = []
    | None =>
        plan' = <[Z.to_nat i := with_status "completed" t]> plan ∧
        i' = currentTopicIndex session ∧
        entries =
          [mkMessage "assistant"
             "Congratulations! You've completed the entire study plan! ðŸŽ“"]
    end.
Proof.
  intros Hfound Hf Hs Hparse Hi plan.
  pose proof Hfound as (_ & Hsid & Huid)%lookup_owned_Some.
  pose proof (at_index_range _ _ _ Hi) as Hri.
  pose proof (λ after, topic_handler_run env uid sid param "completed" w
                         session i t after Hfound Hf Hs Hparse Hi) as Hrun.
  fold plan in Hi.
  destruct (at_index plan (i + 1)) as [n|] eqn:Hn.
  - destruct (decide (status n = "pending")) as [Hst|Hst].
    + eexists _, _, _. split; [| split; [| split; [done | split; [| split; [done |]]]]].
      * apply Hrun; [| done]. intros w'.
        rewrite (update_topic_completed_promote _ _ t n) by done.
        destruct session. simpl in *. unfold push_message, with_messages.
        simpl. by rewrite Hsid, Huid.
      * rewrite at_index_insert_ne by lia. by erewrite at_index_insert_eq.
      * erewrite at_index_insert_eq; [done |].
        by rewrite at_index_insert_ne by lia.
      * eexists. split; [reflexivity |].
        unfold topic_transition_message. split; find_name.
    + exists (<[Z.to_nat i := with_status "completed" t]> plan),
        (currentTopicIndex session), [].
      split; [| split; [by erewrite at_index_insert_eq | split; [done |]]].
      * apply Hrun; [| done]. intros w'.
        rewrite (update_topic_completed_keep _ _ t n) by done.
        destruct session. simpl in *. unfold with_studyPlan. simpl.
        by rewrite app_nil_r, Hsid, Huid.
      * split; [| done]. by rewrite at_index_insert_ne by lia.
  - exists (<[Z.to_nat i := with_status "completed" t]> plan),
      (currentTopicIndex session),
      [mkMessage "assistant" topic_plan_complete_message].
    split; [| split; [by erewrite at_index_insert_eq | done]].
    apply Hrun; [| done]. intros w'.
    rewrite (update_topic_completed_last _ _ t) by done.
    destruct session. simpl in *. unfold push_message, with_messages.
    simpl. by rewrite Hsid, Huid.
Qed.

(** ** C5: plan generation *)

Lemma lookup_owned_insert (d : gmap N Session) (s : Session) :
  lookup_owned (<[_id s := s]> d) (_id s) (userId s) = Some s.
Proof.
  apply lookup_owned_Some. by rewrite lookup_insert_eq.
Qed.

Lemma fresh_plan_length (items : list PlanItem) :
  List.length (fresh_plan items) = List.length items.
Proof.
  unfold fresh_plan. destruct items; simpl; [done |].
  by rewrite length_fmap.
Qed.

(** Topic [j] of a fresh plan is item [j] of the service's answer, pending
    unless [j = 0]. *)
Lemma fresh_plan_lookup (items : list PlanItem) (j : nat) :
  fresh_plan items !! j
  = (λ it, mkTopic (item_topic it) (item_description it)
             (if decide (j = 0%nat) then "in-progress" else "pending"))
    <$> items !! j.
Proof.
  unfold fresh_plan. destruct items as [|it items]; [done |].
  destruct j as [|j]; simpl; [done |].
  by rewrite list_lookup_fmap.
Qed.

(** Lines 260-275 on any session. *)
Lemma install_plan_result (items : list PlanItem) (s : Session) (w : World) :
  install_plan items s w
  = (Returned
       match fresh_plan items with
       | first :: _ =>
           push_message "assistant" (plan_message first)
             (with_currentTopicIndex 0 (with_studyPlan (fresh_plan items) s))
       | [] => with_studyPlan [] s
       end, w).
Proof.
  unfold install_plan, fresh_plan. destruct items as [|it items]; [done |].
  reflexivity.
Qed.

(** The plan handler on a found session, when neither the store nor the
    service fails. *)
Lemma plan_handler_run env uid sid w session items :
  lookup_owned (db w) sid uid = Some session →
  plan_find env = None → plan_save env = None →
  plan_service env
    (mkPlanRequest (fileHashes session) (learningLevel session)) = inr items →
  let after :=
    mkSession sid uid (fileHashes session) (filenames session)
      (messages session ++
       match fresh_plan items with
       | first :: _ => [mkMessage "assistant" (plan_message first)]
       | [] => []
       end)
      (fresh_plan items)
      (match fresh_plan items with
       | _ :: _ => 0%Z
       | [] => currentTopicIndex session
       end)
      (learningLevel session) in
  plan_handler env uid sid w
  = (json (BSession (Some after)), with_db (<[sid := after]> (db w)) w).
Proof.
  intros Hfound Hf Hs Hsvc after.
  pose proof Hfound as (_ & Hsid & Huid)%lookup_owned_Some.
  unfold plan_handler. io_unfold. rewrite Hf, Hs. simpl.
  rewrite Hfound, Hsvc, install_plan_result.
  assert (match fresh_plan items with
          | first :: _ =>
              push_message "assistant" (plan_message first)
                (with_currentTopicIndex 0
                   (with_studyPlan (fresh_plan items) session))
          | [] => with_studyPlan [] session
          end = after) as ->; [| done].
  subst after. destruct session. simpl in *. rewrite Hsid, Huid.
  destruct (fresh_plan items); [| done].
  unfold with_studyPlan. simpl. by rewrite app_nil_r.
Qed.

(** C5.  A successful generate-plan stores, in place of whatever plan the
    session had, exactly the topics of the service's answer: as many
    topics, topic [j] carrying item [j]'s name and description, every one
    pending except topic 0, which is in-progress; for a non-empty answer
    the cursor becomes 0 and one entry is appended, the announcement of
    lines 271-274 with the name and the description of the first item; for
    an empty answer cursor and transcript are unchanged.  A second
    generate-plan on the same session leaves a plan that depends on the
    second answer only. *)
Theorem generate_plan_replaces env uid sid w session items :
  lookup_owned (db w) sid uid = Some session →
  plan_find env = None → plan_save env = None →
  plan_service env
    (mkPlanRequest (fileHashes session) (learningLevel session)) = inr items →
  ∃ plan' i' entries,
    let after :=
      mkSession sid uid (fileHashes session) (filenames session)
        (messages session ++ entries) plan' i' (learningLevel session) in
    plan_handler env uid sid w
    = (json (BSession (Some after)), with_db (<[sid := after]> (db w)) w) ∧
    List.length plan' = List.length items ∧
    (∀ j, plan' !! j
          = (λ it, mkTopic (item_topic it) (item_description it)
                     (if decide (j = 0%nat) then "in-progress" else "pending"))
            <$> items !! j) ∧
    match items with
    | first :: _ =>
        i' = 0%Z ∧
        entries =
          [mkMessage "assistant"
             ("**Study Plan Generated!** ðŸ“š" +:+ nl +:+ nl +:+
              "I've created a study plan based on your documents. "
              +:+ "We'll start with: **" +:+ item_topic first +:+ "**."
              +:+ nl +:+ nl +:+ item_description first)]
    | [] => i' = currentTopicIndex session ∧ entries = []
    end ∧
    ∀ env2 items2,
      plan_find env2 = None → plan_save env2 = None →
      plan_service env2
        (mkPlanRequest (fileHashes session) (learningLevel session))
        = inr items2 →
      studyPlan <$> stored (plan_handler env2 uid sid
                              (plan_handler env uid sid w).2).2 sid
      = Some (fresh_plan items2).
Proof.
  intros Hfound Hf Hs Hsvc.
  pose proof (plan_handler_run env uid sid w session items Hfound Hf Hs Hsvc)
    as Hrun. cbv zeta in Hrun.
  eexists _, _, _. cbv zeta. split; [exact Hrun |].
  split; [apply fresh_plan_length |].
  split; [apply fresh_plan_lookup |].
  split.
  - by destruct items.
  - intros env2 items2 Hf2 Hs2 Hsvc2. rewrite Hrun. simpl.
    match goal with |- context [<[sid := ?a]> (db w)] => set (after := a) end.
    pose proof (plan_handler_run env2 uid sid
                  (with_db (<[sid := after]> (db w)) w) after items2) as Hrun2.
    rewrite Hrun2; try done.
    + unfold stored. simpl. by rewrite lookup_insert_eq.
    + apply (lookup_owned_insert (db w) after).
Qed.

(** ** [parseInt] reads back a decimal numeral *)

Example parseInt_samples :
  parseInt "2" = Num 2 ∧ parseInt " 12abc" = Num 12 ∧
  parseInt "-1" = Num (-1) ∧ parseInt "0x1f" = Num 31 ∧
  parseInt "1e3" = Num 1 ∧ parseInt "abc" = NaN ∧
  parseInt "" = NaN ∧ parseInt "0x" = NaN ∧
  parseInt "-0" = NegativeZero ∧
  parseInt (String (ascii_of_nat 194) (String (ascii_of_nat 160) "1"))
  = Num 1 ∧
  parseInt (String (ascii_of_nat 239)
              (String (ascii_of_nat 187) (String (ascii_of_nat 191) "7")))
  = Num 7 ∧
  parseInt "9007199254740993" = Num 9007199254740992 ∧
  parseInt "9007199254740995" = Num 9007199254740996 ∧
  parseInt ("-1" +:+ string_of_list_ascii (repeat "0"%char 309))
  = Infinity true.
Proof. vm_compute. repeat split. Qed.

(** A byte below the lead bytes of the white space of several bytes, and
    not white space itself, ends the white space. *)
Lemma skip_white_space_stop (c : ascii) (r : string) :
  is_white_space c = false → (byte c < 194)%Z →
  skip_white_space (String c r) = String c r.
Proof.
  intros Hc Hlt. cbn [skip_white_space]. rewrite Hc.
  destruct r as [|c2 [|c3 r]]; [done | |].
  - unfold is_white_space2.
    by assert ((byte c =? 194)%Z = false) as -> by (apply Z.eqb_neq; lia).
  - unfold is_white_space2, is_white_space3.
    assert ((byte c =? 194)%Z = false) as -> by (apply Z.eqb_neq; lia).
    by assert ((224 <=? byte c)%Z = false) as -> by (apply Z.leb_gt; lia).
Qed.

(** Below [2^53] every natural number is a double. *)
Lemma number_value_exact (v : Z) :
  (0 ≤ v < 2 ^ 53)%Z → number_value false v = Num v.
Proof.
  intros [H0 Hlt]. unfold number_value, round_to_53_bits.
  assert (Z.log2 v - 52 ≤ 0)%Z as He.
  { destruct (decide (v = 0%Z)) as [-> | Hv]; [done |].
    assert (Z.log2 v < 53)%Z; [| lia].
    apply Z.log2_lt_pow2; lia. }
  apply Z.leb_le in He. rewrite He. cbv zeta.
  assert ((2 ^ 1024 <=? v)%Z = false) as ->; [| done].
  apply Z.leb_gt. apply Z.lt_trans with (2 ^ 53)%Z; [done |].
  by apply Z.pow_lt_mono_r.
Qed.

Lemma parse_digits_decimal (d : Decimal.uint) (acc : nat) :
  parse_digits 10 (Some (Z.of_nat acc)) (NilEmpty.string_of_uint d)
  = Some (Z.of_nat (Nat.of_uint_acc d acc)).
Proof.
  revert acc. induction d as [|d IH|d IH|d IH|d IH|d IH|d IH|d IH|d IH|d IH|d IH];
    intros acc; [done | ..];
    cbn [NilEmpty.string_of_uint parse_digits Nat.of_uint_acc];
    (match goal with
     | |- context [digit_value 10 ?c] =>
         let v := eval vm_compute in (digit_value 10 c) in
         change (digit_value 10 c) with v
     end);
    cbn [default]; rewrite <- IH, Nat.tail_mul_spec; unfold id;
    do 2 f_equal; lia.
Qed.

(** On a decimal numeral [parseInt] finds no white space, no sign and no
    [0x] prefix, and reads the digits in base 10. *)
Lemma parseInt_decimal (d : Decimal.uint) :
  d ≠ Decimal.Nil →
  parseInt (NilEmpty.string_of_uint d)
  = match parse_digits 10 (Some 0%Z) (NilEmpty.string_of_uint d) with
    | Some v => number_value false v
    | None => NaN
    end.
Proof.
  intros Hd. destruct d as [|d|d|d|d|d|d|d|d|d|d]; [done | | ..].
  1: destruct d.
  all: unfold parseInt;
    cbn [NilEmpty.string_of_uint];
    rewrite skip_white_space_stop by (vm_compute; reflexivity);
    cbv beta iota zeta; cbn [parse_digits];
    repeat (match goal with
            | |- context [digit_value 10 ?c] =>
                let v := eval vm_compute in (digit_value 10 c) in
                change (digit_value 10 c) with v
            end);
    cbn [default]; unfold id; reflexivity.
Qed.

(** The numeral of [k] is read as the Number value of [k]. *)
Lemma parseInt_index_param_value (k : nat) :
  parseInt (index_param k) = number_value false (Z.of_nat k).
Proof.
  unfold index_param.
  rewrite <- (DecimalNat.Unsigned.of_to k) at 2.
  unfold Nat.of_uint.
  generalize (Nat.to_uint k). intros d.
  assert (d = Decimal.Nil ∨ d ≠ Decimal.Nil) as [-> | Hd]
    by (destruct d; auto); [done |].
  assert (NilZero.string_of_uint d = NilEmpty.string_of_uint d) as ->
    by (by destruct d).
  rewrite parseInt_decimal by done.
  pose proof (parse_digits_decimal d 0) as Hread.
  change (Z.of_nat 0) with 0%Z in Hread. by rewrite Hread.
Qed.

Lemma parseInt_index_param (k : nat) :
  (Z.of_nat k < 2 ^ 53)%Z →
  parseInt (index_param k) = Num (Z.of_nat k).
Proof.
  intros Hk. rewrite parseInt_index_param_value.
  apply number_value_exact. lia.
Qed.

(** ** C3: completing a fresh plan from left to right *)

Lemma plan_after_0 (items : list PlanItem) :
  plan_after 0 items = fresh_plan items.
Proof. by destruct items. Qed.

Lemma plan_after_length (k : nat) (items : list PlanItem) :
  List.length (plan_after k items) = List.length items.
Proof.
  revert k. induction items as [|it items IH]; intros [|k]; simpl; try done.
  - by rewrite length_fmap.
  - by rewrite IH.
Qed.

Lemma plan_after_lookup (k j : nat) (items : list PlanItem) :
  plan_after k items !! j
  = (λ it, mkTopic (item_topic it) (item_description it) (status_after k j))
    <$> items !! j.
Proof.
  revert k j. induction items as [|it items IH]; intros k j; [by destruct k |].
  destruct k as [|k], j as [|j]; simpl; try done.
  - rewrite list_lookup_fmap. by destruct (items !! j).
  - rewrite IH. destruct (items !! j); [| done]. simpl.
    unfold status_after. repeat case_decide; done || lia.
Qed.

Lemma count_status_pending (items : list PlanItem) :
  count_status "in-progress" (pending_topic <$> items) = 0%nat.
Proof.
  induction items as [|it items IH]; [done |].
  rewrite fmap_cons. cbn [count_status]. by rewrite IH.
Qed.

Lemma plan_after_in_progress (k : nat) (items : list PlanItem) :
  count_status "in-progress" (plan_after k items)
  = if decide (k < List.length items)%nat then 1%nat else 0%nat.
Proof.
  revert k. induction items as [|it items IH]; intros k.
  - destruct k; simpl; try case_decide; done || lia.
  - destruct k as [|k]; cbn [count_status plan_after List.length].
    + rewrite count_status_pending. case_decide; [done | lia].
    + rewrite IH. repeat case_decide; done || lia.
Qed.

Lemma plan_after_completed (items : list PlanItem) :
  count_status "completed" (plan_after (List.length items) items)
  = List.length items.
Proof.
  induction items as [|it items IH]; [done |].
  cbn [count_status plan_after List.length]. by rewrite IH.
Qed.

(** Completing topic [k] of [plan_after k items] gives
    [plan_after (k + 1) items]. *)
Lemma plan_after_step (k : nat) (items : list PlanItem) (t : Topic) :
  plan_after k items !! k = Some t →
  match plan_after k items !! S k with
  | Some n =>
      status n = "pending" ∧
      <[S k := with_status "in-progress" n]>
        (<[k := with_status "completed" t]> (plan_after k items))
      = plan_after (S k) items
  | None =>
      <[k := with_status "completed" t]> (plan_after k items)
      = plan_after (S k) items
  end.
Proof.
  intros Hk.
  assert (∀ j, <[k := with_status "completed" t]> (plan_after k items) !! j
               = (λ it, mkTopic (item_topic it) (item_description it)
                          (if decide (j = S k) then "pending"
                           else status_after (S k) j)) <$> items !! j) as Hdone.
  { intros j. destruct (decide (j = k)) as [->|Hne].
    - rewrite list_lookup_insert_eq by (by eapply lookup_lt_Some).
      rewrite plan_after_lookup in Hk. destruct (items !! k); [| done].
      simpl in *. injection Hk as <-. unfold with_status, status_after. simpl.
      repeat case_decide; done || lia.
    - rewrite list_lookup_insert_ne, plan_after_lookup by done.
      destruct (items !! j); [| done]. simpl. unfold status_after.
      repeat case_decide; done || lia. }
  destruct (plan_after k items !! S k) as [n|] eqn:Hn.
  - rewrite plan_after_lookup in Hn.
    destruct (items !! S k) as [it|] eqn:Hit; [| done].
    simpl in Hn. injection Hn as <-. split.
    { simpl. unfold status_after. repeat case_decide; done || lia. }
    apply list_eq. intros j. rewrite plan_after_lookup.
    destruct (decide (j = S k)) as [->|Hne].
    + rewrite list_lookup_insert_eq.
      * rewrite Hit. simpl. unfold with_status, status_after. simpl.
        repeat case_decide; done || lia.
      * rewrite length_insert, plan_after_length.
        by eapply lookup_lt_Some.
    + rewrite list_lookup_insert_ne, Hdone by done.
      by rewrite decide_False by done.
  - apply list_eq. intros j. rewrite plan_after_lookup, Hdone.
    destruct (decide (j = S k)) as [->|Hne]; [| done].
    rewrite plan_after_lookup in Hn. by destruct (items !! S k).
Qed.

Lemma at_index_of_nat {A} (l : list A) (k : nat) :
  at_index l (Z.of_nat k) = l !! k.
Proof.
  unfold at_index. rewrite Nat2Z.id.
  by destruct (Z.leb_spec 0 (Z.of_nat k)); [| lia].
Qed.

Lemma lookup_owned_replace (d : gmap N Session) (id uid : N)
    (s s' : Session) :
  lookup_owned d id uid = Some s →
  _id s' = _id s → userId s' = userId s →
  lookup_owned (<[id := s']> d) id uid = Some s'.
Proof.
  intros (_ & Hid & Huid)%lookup_owned_Some Hid' Huid'.
  apply lookup_owned_Some. rewrite lookup_insert_eq. split; [done |].
  split; congruence.
Qed.

(** One call of the sequence: from [plan_after k] to [plan_after (k + 1)]. *)
Lemma complete_next env uid sid param w s (k : nat) items :
  topic_find env = None → topic_save env = None →
  lookup_owned (db w) sid uid = Some s →
  studyPlan s = plan_after k items →
  (k < List.length items)%nat →
  as_integer (parseInt param) = Some (Z.of_nat k) →
  ∃ s', lookup_owned (db (topic_handler env uid sid param "completed" w).2)
          sid uid = Some s' ∧
        studyPlan s' = plan_after (S k) items.
Proof.
  intros Hf Hs Hfound Hplan Hk Hparse.
  pose proof Hfound as (_ & Hsid & Huid)%lookup_owned_Some.
  destruct (plan_after k items !! k) as [t|] eqn:Ht.
  2: { apply lookup_ge_None in Ht. rewrite plan_after_length in Ht. lia. }
  pose proof (plan_after_step k items t Ht) as Hstep.
  assert (at_index (studyPlan s) (Z.of_nat k) = Some t) as Hi
    by (by rewrite at_index_of_nat, Hplan).
  pose proof (λ after, topic_handler_run env uid sid param "completed" w
                         s (Z.of_nat k) t after Hfound Hf Hs Hparse Hi) as Hrun.
  assert (Z.to_nat (Z.of_nat k + 1) = S k) as Hsucc by lia.
  assert (at_index (studyPlan s) (Z.of_nat k + 1) = plan_after k items !! S k)
    as Hnext.
  { replace (Z.of_nat k + 1)%Z with (Z.of_nat (S k)) by lia.
    by rewrite at_index_of_nat, Hplan. }
  destruct (plan_after k items !! S k) as [n|] eqn:Hn.
  - destruct Hstep as [Hpending Hstep].
    erewrite Hrun.
    2: { intros w'. by apply (update_topic_completed_promote _ _ t n). }
    2: done.
    eexists. split.
    + simpl. eapply lookup_owned_replace; [exact Hfound | done | done].
    + simpl. by rewrite Nat2Z.id, Hsucc, Hplan.
  - erewrite Hrun.
    2: { intros w'. by apply (update_topic_completed_last _ _ t). }
    2: done.
    eexists. split.
    + simpl. eapply lookup_owned_replace; [exact Hfound | done | done].
    + simpl. by rewrite Nat2Z.id, Hplan.
Qed.

Lemma complete_in_order_plan env uid sid items :
  topic_find env = None → topic_save env = None →
  ∀ params (k : nat) w s,
    lookup_owned (db w) sid uid = Some s →
    studyPlan s = plan_after k items →
    (k + List.length params ≤ List.length items)%nat →
    (∀ j param, params !! j = Some param →
                as_integer (parseInt param) = Some (Z.of_nat (k + j))) →
    ∃ s', lookup_owned (db (complete_in_order env uid sid params w)) sid uid
          = Some s' ∧
          studyPlan s' = plan_after (k + List.length params) items.
Proof.
  intros Hf Hs params.
  induction params as [|param params IH]; intros k w s Hfound Hplan Hlen Hparse.
  - exists s. simpl. by rewrite Nat.add_0_r.
  - simpl in Hlen.
    destruct (complete_next env uid sid param w s k items) as (s1 & Hfound1 & Hplan1);
      try done; [lia | |].
    { rewrite <- (Nat.add_0_r k). by apply Hparse. }
    destruct (IH (S k) _ s1 Hfound1 Hplan1) as (s' & Hfound' & Hplan').
    + lia.
    + intros j p Hj. replace (S k + j)%nat with (k + S j)%nat by lia.
      by apply Hparse.
    + exists s'. split; [done |].
      rewrite Hplan'. f_equal. simpl. lia.
Qed.

(** C3.  On a plan of N topics as generate-plan has just stored it, the
    calls [set-topic-status(i, 'completed')] for i = 0, 1, ..., k - 1 in
    this order, for any k up to N, leave exactly one topic in progress
    while k < N, and none when k = N, all N topics then being completed.
    The indices are sent as decimal numerals, which [parseInt] reads back
    exactly below [2^53]; a JavaScript array has fewer than [2^32]
    elements, so the bound on k holds for every plan there is. *)
Theorem complete_left_to_right penv tenv uid sid w session items (k : nat) :
  lookup_owned (db w) sid uid = Some session →
  plan_find penv = None → plan_save penv = None →
  plan_service penv
    (mkPlanRequest (fileHashes session) (learningLevel session)) = inr items →
  topic_find tenv = None → topic_save tenv = None →
  (k ≤ List.length items)%nat →
  (Z.of_nat k ≤ 2 ^ 53)%Z →
  ∃ s,
    stored (complete_in_order tenv uid sid (index_param <$> seq 0 k)
              (plan_handler penv uid sid w).2) sid = Some s ∧
    in_progress_count s
    = (if decide (k < List.length items)%nat then 1%nat else 0%nat) ∧
    (k = List.length items →
     count_status "completed" (studyPlan s) = List.length items).
Proof.
  intros Hfound Hpf Hps Hsvc Htf Hts Hlen Hsafe.
  rewrite (plan_handler_run penv uid sid w session items) by done.
  cbv zeta. simpl.
  match goal with |- context [<[sid := ?a]> (db w)] => set (fresh := a) end.
  assert (List.length (index_param <$> seq 0 k) = k) as Hk
    by (by rewrite length_fmap, length_seq).
  destruct (complete_in_order_plan tenv uid sid items Htf Hts
              (index_param <$> seq 0 k) 0%nat
              (with_db (<[sid := fresh]> (db w)) w) fresh)
    as (s & Hs & Hplan).
  - apply (lookup_owned_insert (db w) fresh).
  - by rewrite plan_after_0.
  - by rewrite Hk.
  - intros j param. rewrite list_lookup_fmap.
    destruct (seq 0 k !! j) as [i|] eqn:Hj; [| done].
    apply lookup_seq in Hj as [-> Hjk]. intros [= <-].
    rewrite parseInt_index_param; [done |]. simpl in *. lia.
  - exists s. apply lookup_owned_Some in Hs as (Hs & _).
    rewrite Hk in Hplan.
    split; [done |]. unfold in_progress_count. rewrite Hplan. simpl.
    split; [apply plan_after_in_progress |].
    intros ->. apply plan_after_completed.
Qed.

(** ** C6: a failing service during send-message *)

(** C6.  When the chat call to the service fails, the handler answers with
    the error response and the stored session is the old one with the
    user's message appended: no reply, and documents, plan, cursor and
    level as before. *)
Theorem chat_service_failure env uid m sid w session e :
  m ≠ "" →
  lookup_owned (db w) sid uid = Some session →
  chat_find env = None → chat_save_user env = None →
  chat_service env
    (mkChatRequest m (fileHashes session)
       (messages session ++ [mkMessage "user" m])
       (topic <$> at_index (studyPlan session) (currentTopicIndex session))
       (learningLevel session)) = inl e →
  chat_handler env uid (Some m) (Some sid) w
  = (chat_error_response e,
     with_db
       (<[sid := mkSession sid uid (fileHashes session) (filenames session)
                   (messages session ++ [mkMessage "user" m])
                   (studyPlan session) (currentTopicIndex session)
                   (learningLevel session)]> (db w)) w).
Proof.
  intros Hm Hfound Hf Hs Hsvc.
  pose proof Hfound as (_ & Hsid & Huid)%lookup_owned_Some.
  unfold chat_handler.
  assert (truthy (Some m) = true) as -> by (by destruct m).
  io_unfold. rewrite Hf, Hs. simpl. rewrite Hfound.
  rewrite (current_topic_at_index (push_message "user" m session)).
  simpl. rewrite Hsvc, Hsid.
  destruct session. simpl in *. by rewrite Hsid, Huid.
Qed.

(** ** C9: an index that addresses no topic *)

(** C9.  When the index parameter does not resolve to a topic of the found
    session's plan (not a number, negative, beyond the end, or an empty
    plan), the handler answers 400 and the world is unchanged. *)
Theorem invalid_topic_index env uid sid param status' w session :
  lookup_owned (db w) sid uid = Some session →
  topic_find env = None →
  at_parsed (studyPlan session) (parseInt param) = None →
  topic_handler env uid sid param status' w
  = (status_json 400 (BMessage "Invalid topic index"), w).
Proof.
  intros Hfound Hf Hnone. unfold topic_handler, at_parsed in *. io_unfold.
  rewrite Hf. simpl. rewrite Hfound.
  destruct (as_integer (parseInt param)) as [i|]; [| done].
  by rewrite Hnone.
Qed.

(** ** C10: the learning level of a session that is not there *)

(** C10.  While the store answers: with a valid level and no session of
    that id for the owner, the handler responds 200 with a null body and
    changes nothing; and the response is a failure exactly when the level
    is not one of the three. *)
Theorem level_of_missing_session fault uid sid level w :
  fault = None →
  (includes ["beginner"; "intermediate"; "advanced"] level = true →
   lookup_owned (db w) sid uid = None →
   level_handler fault uid sid level w = (json (BSession None), w)) ∧
  (res_status (level_handler fault uid sid level w).1 ≠ 200%nat ↔
   level ∉ ["beginner"; "intermediate"; "advanced"]).
Proof.
  intros ->. unfold level_handler, includes. split.
  - intros -> Hnone. cbn [negb].
    unfold try_catch, findOneAndUpdate_level, faulty, bind, ret.
    cbv beta iota zeta. by rewrite Hnone.
  - case_bool_decide as Hin; cbn [negb].
    + unfold try_catch, findOneAndUpdate_level, faulty, bind, ret.
      cbv beta iota zeta.
      destruct (lookup_owned (db w) sid uid); simpl; split; done.
    + simpl. split; done.
Qed.

(** ** What a handler can do to the stored sessions *)

Lemma pure_ret {A} (a : A) : pure_io (ret a).
Proof. by exists (Returned a). Qed.

Lemma pure_throw {A} (e : Exn) : pure_io (@throw A e).
Proof. by exists (Thrown e). Qed.

Lemma pure_bind {A B} (m : IO A) (k : A → IO B) :
  pure_io m → (∀ a, pure_io (k a)) → pure_io (bind m k).
Proof.
  intros [o Hm] Hk. destruct o as [a|e].
  - destruct (Hk a) as [o Ho]. exists o. intros w. unfold bind.
    by rewrite Hm, Ho.
  - exists (Thrown e). intros w. unfold bind. by rewrite Hm.
Qed.

Ltac pure_io_tac :=
  repeat first
    [ apply pure_ret | apply pure_throw
    | apply pure_bind; [| intros ?]
    | match goal with
      | |- pure_io (if ?b then _ else _) => destruct b
      | |- pure_io (match ?x with _ => _ end) => destruct x
      end ].

Lemma set_topic_status_pure i v s : pure_io (set_topic_status i v s).
Proof. unfold set_topic_status. pure_io_tac. Qed.

Lemma get_topic_pure i s : pure_io (get_topic i s).
Proof. unfold get_topic. pure_io_tac. Qed.

Lemma auto_complete_pure signal current s :
  pure_io (auto_complete signal current s).
Proof.
  unfold auto_complete.
  pure_io_tac; first [apply set_topic_status_pure | apply get_topic_pure].
Qed.

Lemma install_plan_pure items s : pure_io (install_plan items s).
Proof.
  unfold install_plan.
  pure_io_tac; first [apply set_topic_status_pure | apply get_topic_pure].
Qed.

Lemma update_topic_pure i v s : pure_io (update_topic i v s).
Proof.
  unfold update_topic. apply pure_bind; [apply set_topic_status_pure |].
  intros s1.
  pure_io_tac; first [apply set_topic_status_pure | apply get_topic_pure].
Qed.

Lemma all_sessions_insert P w id s :
  all_sessions P w → P s → all_sessions P (with_db (<[id := s]> (db w)) w).
Proof.
  intros Hall Hs id' s'. simpl. rewrite lookup_insert.
  case_decide; [by intros [= <-] | apply Hall].
Qed.

Lemma all_sessions_delete P w id :
  all_sessions P w → all_sessions P (with_db (delete id (db w)) w).
Proof.
  intros Hall id' s'. simpl. rewrite lookup_delete.
  case_decide; [done | apply Hall].
Qed.

Lemma all_sessions_files P w f :
  all_sessions P w → all_sessions P (with_files f w).
Proof. intros Hall id s. apply Hall. Qed.

Lemma all_sessions_found P w id uid s :
  all_sessions P w → lookup_owned (db w) id uid = Some s → P s.
Proof. intros Hall (Hs & _)%lookup_owned_Some. by eapply Hall. Qed.

Lemma chat_handler_keeps (P : Session → Prop) env uid message sessionId w :
  (∀ r c s, P s → P (push_message r c s)) →
  (∀ signal current s s' w1 w2,
     P s → auto_complete signal current s w1 = (Returned s', w2) → P s') →
  all_sessions P w →
  all_sessions P (chat_handler env uid message sessionId w).2.
Proof.
  intros Hpush Hauto Hall. unfold chat_handler.
  destruct (truthy message); [| done].
  destruct sessionId as [sid|]; [| done].
  io_unfold. destruct (chat_find env); [done |]. cbv beta iota zeta.
  destruct (lookup_owned (db w) sid uid) as [session|] eqn:Hfound; [| done].
  pose proof (all_sessions_found P w _ _ _ Hall Hfound) as Hsession.
  set (asked := push_message "user" (default "" message) session).
  assert (P asked) as Hasked by apply Hpush, Hsession.
  destruct (chat_save_user env); [done |]. cbv beta iota zeta.
  cbn [andb].
  set (w1 := with_db (<[_id asked := asked]> (db w)) w).
  assert (all_sessions P w1) as Hall1 by by apply all_sessions_insert.
  destruct (chat_service env _) as [e|data]; [done |]. cbv beta iota zeta.
  destruct (auto_complete_pure (topic_completed data) (current_topic asked)
              (push_message "assistant" (response data) asked)) as [o Ho].
  rewrite Ho. destruct o as [after|e]; [| done].
  destruct (chat_save env); [done |]. cbv beta iota zeta. cbn [andb].
  apply all_sessions_insert; [done |].
  eapply Hauto; [| apply (Ho w)]. by apply Hpush.
Qed.

Lemma history_handler_keeps (P : Session → Prop) find uid sessionId w :
  all_sessions P w → all_sessions P (history_handler find uid sessionId w).2.
Proof.
  intros Hall. unfold history_handler. io_unfold.
  destruct find; [done |]. cbv beta iota zeta.
  by destruct (lookup_owned (db w) sessionId uid).
Qed.

Lemma delete_handler_keeps (P : Session → Prop) fault uid sessionId w :
  all_sessions P w → all_sessions P (delete_handler fault uid sessionId w).2.
Proof.
  intros Hall. unfold delete_handler, try_catch, deleteOne, faulty, bind, ret, throw.
  destruct fault; [done |]. cbv beta iota zeta.
  destruct (lookup_owned (db w) sessionId uid); [| done].
  by apply all_sessions_delete.
Qed.

Lemma level_handler_keeps (P : Session → Prop) fault uid sessionId level w :
  (∀ l s, P s → P (with_learningLevel l s)) →
  all_sessions P w →
  all_sessions P (level_handler fault uid sessionId level w).2.
Proof.
  intros Hlevel Hall. unfold level_handler.
  destruct (negb _); [done |].
  unfold try_catch, findOneAndUpdate_level, faulty, bind, ret, throw.
  destruct fault; [done |]. cbv beta iota zeta.
  destruct (lookup_owned (db w) sessionId uid) as [s|] eqn:Hfound; [| done].
  apply all_sessions_insert; [done |].
  apply Hlevel. by eapply all_sessions_found.
Qed.

Lemma plan_handler_keeps (P : Session → Prop) env uid sessionId w :
  (∀ items s s' w1 w2,
     P s → install_plan items s w1 = (Returned s', w2) → P s') →
  all_sessions P w →
  all_sessions P (plan_handler env uid sessionId w).2.
Proof.
  intros Hplan Hall. unfold plan_handler. io_unfold.
  destruct (plan_find env); [done |]. cbv beta iota zeta.
  destruct (lookup_owned (db w) sessionId uid) as [s|] eqn:Hfound; [| done].
  destruct (plan_service env _) as [e|items]; [done |]. cbv beta iota zeta.
  destruct (install_plan_pure items s) as [o Ho].
  rewrite Ho. destruct o as [after|e]; [| done].
  destruct (plan_save env); [done |]. cbv beta iota zeta. cbn [andb].
  apply all_sessions_insert; [done |].
  eapply Hplan; [| apply (Ho w)]. by eapply all_sessions_found.
Qed.

Lemma topic_handler_keeps (P : Session → Prop) env uid sessionId param
    status' w :
  (∀ s i t s' w1 w2,
     P s →
     lookup_owned (db w) sessionId uid = Some s →
     as_integer (parseInt param) = Some i →
     at_index (studyPlan s) i = Some t →
     update_topic i status' s w1 = (Returned s', w2) → P s') →
  all_sessions P w →
  all_sessions P (topic_handler env uid sessionId param status' w).2.
Proof.
  intros Hupd Hall. unfold topic_handler, at_parsed. io_unfold.
  destruct (topic_find env); [done |]. cbv beta iota zeta.
  destruct (lookup_owned (db w) sessionId uid) as [s|] eqn:Hfound; [| done].
  destruct (as_integer (parseInt param)) as [i|] eqn:Hparse; [| done].
  cbn [at_parsed].
  destruct (at_index (studyPlan s) i) as [t|] eqn:Hi; [| done].
  destruct (update_topic_pure i status' s) as [o Ho].
  rewrite Ho. destruct o as [after|e]; [| done].
  destruct (topic_save env); [done |]. cbv beta iota zeta. cbn [andb].
  apply all_sessions_insert; [done |].
  eapply Hupd; [| done | done | done | apply (Ho w)].
  by eapply all_sessions_found.
Qed.

(** Rules for [keeps], one per construct of the monad. *)
Lemma keeps_ret {A} P (a : A) (Q : A → Prop) : Q a → keeps P (ret a) Q.
Proof. by intros Ha w Hall. Qed.

Lemma keeps_throw {A} P (e : Exn) (Q : A → Prop) : keeps P (throw e) Q.
Proof. by intros w Hall. Qed.

Lemma keeps_bind {A B} P (m : IO A) (k : A → IO B) (Q : A → Prop)
    (R : B → Prop) :
  keeps P m Q → (∀ a, Q a → keeps P (k a) R) → keeps P (bind m k) R.
Proof.
  intros Hm Hk w Hall. unfold bind.
  destruct (Hm w Hall) as [Hall' Hq]. destruct (m w) as [[a|e] w']; [| done].
  by apply Hk.
Qed.

Lemma keeps_try_catch P (m : IO Response) (h : Exn → Response) w :
  keeps P m (λ _, True) → all_sessions P w → all_sessions P (try_catch m h w).2.
Proof.
  intros Hm Hall. unfold try_catch. destruct (Hm w Hall) as [Hall' _].
  by destruct (m w) as [[r|e] w'].
Qed.

Lemma keeps_faulty P fault : keeps P (faulty fault) (λ _, True).
Proof. by destruct fault. Qed.

Lemma keeps_findOne P fault id uid :
  keeps P (findOne fault id uid) (λ found, ∀ s, found = Some s → P s).
Proof.
  unfold findOne. eapply keeps_bind; [apply keeps_faulty |].
  intros _ _ w Hall. split; [done |]. simpl.
  intros s Hs. by eapply all_sessions_found.
Qed.

Lemma keeps_save P fault isNew s : P s → keeps P (save fault isNew s) (λ _, True).
Proof.
  intros Hs. unfold save. eapply keeps_bind; [apply keeps_faulty |].
  intros _ _ w Hall. destruct (_ && _); [done |].
  split; [| done]. by apply all_sessions_insert.
Qed.

Lemma keeps_readFile P path : keeps P (readFile path) (λ _, True).
Proof. intros w Hall. unfold readFile. by destruct (files w !! path). Qed.

Lemma keeps_unlinkSync P path : keeps P (unlinkSync path) (λ _, True).
Proof. intros w Hall. unfold unlinkSync. by destruct (files w !! path). Qed.

Lemma keeps_axios_post {Rq Rs} P (service : Rq → Exn + Rs) (request : Rq) :
  keeps P (axios_post service request) (λ _, True).
Proof. intros w Hall. unfold axios_post. by destruct (service request). Qed.

Lemma upload_handler_keeps (P : Session → Prop) env uid file sessionId w :
  (∀ id, P (new_session id uid)) →
  (∀ h n s, P s → P (add_file h n s)) →
  (∀ r c s, P s → P (push_message r c s)) →
  all_sessions P w →
  all_sessions P (upload_handler env uid file sessionId w).2.
Proof.
  intros Hnew Hadd Hpush Hall. unfold upload_handler.
  apply keeps_try_catch; [| done].
  destruct file as [file|]; [| by apply keeps_ret].
  unfold calculateFileHash.
  eapply keeps_bind.
  { eapply keeps_bind; [apply keeps_readFile |].
    intros data _. by apply (keeps_ret P _ (λ _, True)). }
  intros fileHash _.
  eapply keeps_bind; [apply keeps_readFile |]. intros stream _.
  eapply keeps_bind; [apply keeps_axios_post |]. intros pyRes _.
  eapply (keeps_bind P _ _ (λ found, ∀ s, found = Some s → P s)).
  { destruct sessionId; [apply keeps_findOne | by apply keeps_ret]. }
  intros [session|] Hfound.
  - eapply keeps_bind; [apply keeps_save; auto |]. intros _ _.
    eapply keeps_bind; [apply keeps_unlinkSync |]. intros _ _.
    by apply keeps_ret.
  - eapply keeps_bind; [apply keeps_save; auto |]. intros _ _.
    eapply keeps_bind; [apply keeps_unlinkSync |]. intros _ _.
    by apply keeps_ret.
Qed.

Lemma post_upload_keeps (P : Session → Prop) env uid part tmpname sessionId w :
  (∀ id, P (new_session id uid)) →
  (∀ h n s, P s → P (add_file h n s)) →
  (∀ r c s, P s → P (push_message r c s)) →
  all_sessions P w →
  all_sessions P (post_upload env uid part tmpname sessionId w).2.
Proof.
  intros Hnew Hadd Hpush Hall. unfold post_upload, multer_single.
  destruct part; by apply upload_handler_keeps.
Qed.

(** ** Inversion of the session-level computations *)

Lemma bind_inv {A B} (m : IO A) (k : A → IO B) w b w' :
  bind m k w = (Returned b, w') →
  ∃ a w1, m w = (Returned a, w1) ∧ k a w1 = (Returned b, w').
Proof.
  unfold bind. destruct (m w) as [[a|e] w1]; [eauto | done].
Qed.

Lemma ret_inv {A} (a b : A) w w' :
  ret a w = (Returned b, w') → a = b ∧ w = w'.
Proof. by intros [= -> ->]. Qed.

Lemma set_topic_status_inv i v s w s' w' :
  set_topic_status i v s w = (Returned s', w') →
  ∃ t, at_index (studyPlan s) i = Some t ∧
       s' = with_studyPlan (<[Z.to_nat i := with_status v t]> (studyPlan s)) s ∧
       w' = w.
Proof.
  unfold set_topic_status. destruct (at_index (studyPlan s) i) as [t|]; [| done].
  intros [= <- <-]. eauto.
Qed.

Lemma get_topic_inv i s w t w' :
  get_topic i s w = (Returned t, w') →
  at_index (studyPlan s) i = Some t ∧ w' = w.
Proof.
  unfold get_topic. destruct (at_index (studyPlan s) i); [| done].
  by intros [= <- <-].
Qed.

Ltac io_inv :=
  repeat match goal with
  | H : bind _ _ _ = (Returned _, _) |- _ =>
      apply bind_inv in H as (? & ? & ? & H)
  | H : ret _ _ = (Returned _, _) |- _ =>
      apply ret_inv in H as [? ?]; subst
  | H : set_topic_status _ _ _ _ = (Returned _, _) |- _ =>
      apply set_topic_status_inv in H as (? & ? & ? & ?); subst
  | H : get_topic _ _ _ = (Returned _, _) |- _ =>
      apply get_topic_inv in H as [? ?]; subst
  | H : (if ?b then _ else _) _ = (Returned _, _) |- _ =>
      destruct b eqn:?
  | H : match ?x with Some _ => _ | None => _ end _ = (Returned _, _) |- _ =>
      destruct x eqn:?
  end.

(** *** The documents are touched by [add_file] only *)

Lemma auto_complete_documents signal current s w s' w' :
  auto_complete signal current s w = (Returned s', w') → same_documents s s'.
Proof. unfold auto_complete. intros H. io_inv; done. Qed.

Lemma install_plan_documents items s w s' w' :
  install_plan items s w = (Returned s', w') → same_documents s s'.
Proof. unfold install_plan. intros H. io_inv; done. Qed.

Lemma update_topic_documents i v s w s' w' :
  update_topic i v s w = (Returned s', w') → same_documents s s'.
Proof. unfold update_topic. intros H. io_inv; done. Qed.

(** ** Invariants of the reachable worlds *)

Lemma step_keeps (P : Session → Prop)
    (manual_ok : World → N → N → string → string → Prop) :
  (∀ id uid, P (new_session id uid)) →
  (∀ h n s, P s → P (add_file h n s)) →
  (∀ r c s, P s → P (push_message r c s)) →
  (∀ l s, P s → P (with_learningLevel l s)) →
  (∀ signal current s s' w1 w2,
     P s → auto_complete signal current s w1 = (Returned s', w2) → P s') →
  (∀ items s s' w1 w2,
     P s → install_plan items s w1 = (Returned s', w2) → P s') →
  (∀ w uid sessionId param status' s i t s' w1 w2,
     manual_ok w uid sessionId param status' →
     P s →
     lookup_owned (db w) sessionId uid = Some s →
     as_integer (parseInt param) = Some i →
     at_index (studyPlan s) i = Some t →
     update_topic i status' s w1 = (Returned s', w2) → P s') →
  ∀ w w', step manual_ok w w' → all_sessions P w → all_sessions P w'.
Proof.
  intros Hnew Hadd Hpush Hlevel Hauto Hplan Hupd w w' Hstep Hall.
  destruct Hstep.
  - by apply post_upload_keeps.
  - by apply chat_handler_keeps.
  - by apply history_handler_keeps.
  - by apply delete_handler_keeps.
  - by apply level_handler_keeps.
  - by apply plan_handler_keeps.
  - apply topic_handler_keeps; [| done]. intros. by eapply Hupd.
Qed.

Lemma all_sessions_empty P : all_sessions P empty_world.
Proof. intros id s. unfold empty_world. simpl. by rewrite lookup_empty. Qed.

Lemma documents_ok_same s s' :
  same_documents s s' → documents_ok s → documents_ok s'.
Proof. intros [Hh Hn] [? ?]. unfold documents_ok. by rewrite Hh, Hn. Qed.

Lemma add_file_known h n s :
  h ∈ fileHashes s → add_file h n s = s.
Proof.
  intros Hin. unfold add_file, includes.
  by rewrite bool_decide_eq_true_2.
Qed.

Lemma add_file_documents_ok h n s :
  documents_ok s → documents_ok (add_file h n s).
Proof.
  intros [Hnodup Hlen]. unfold add_file, includes.
  case_bool_decide as Hin; [done |]. cbn [negb].
  split; simpl.
  - apply NoDup_app. split; [done |]. split; [| apply NoDup_singleton].
    intros x Hx ->%list_elem_of_singleton. done.
  - rewrite !length_app. simpl. lia.
Qed.

Lemma reachable_documents_ok w :
  reachable w → all_sessions documents_ok w.
Proof.
  intros Hreach.
  eapply (rtc_ind_r (all_sessions documents_ok)); [| | exact Hreach];
    [apply all_sessions_empty |].
  intros w1 w2 _ Hstep IH.
  eapply (step_keeps documents_ok any_call); try eassumption.
  - intros. split; [apply NoDup_nil_2 | done].
  - apply add_file_documents_ok.
  - by intros r c s.
  - by intros l s.
  - intros ?????? Hs H. eapply documents_ok_same, Hs.
    by eapply auto_complete_documents.
  - intros ????? Hs H. eapply documents_ok_same, Hs.
    by eapply install_plan_documents.
  - intros ??????????? _ Hs _ _ _ H. eapply documents_ok_same, Hs.
    by eapply update_topic_documents.
Qed.

(** Uploading to a found session a file whose hash the session has. *)
Lemma upload_known_file env uid part tmpname sid w session :
  lookup_owned (db w) sid uid = Some session →
  sha256_hex (part_data part) ∈ fileHashes session →
  ∃ s', stored (post_upload env uid (Some part) tmpname (Some sid) w).2 sid
        = Some s' ∧
        same_documents session s'.
Proof.
  intros Hfound Hin.
  pose proof Hfound as (Hdb & Hsid & Huid)%lookup_owned_Some.
  unfold post_upload, multer_single.
  set (dest := "uploads/" +:+ tmpname).
  set (w1 := with_files (<[dest := part_data part]> (files w)) w).
  assert (files w1 !! dest = Some (part_data part)) as Hfile
    by apply lookup_insert_eq.
  assert (lookup_owned (db w1) sid uid = Some session) as Hfound1 by done.
  assert (db w1 !! sid = Some session) as Hdb1 by done.
  clearbody w1. unfold upload_handler.
  unfold try_catch, calculateFileHash, readFile, unlinkSync, findOne, save,
    faulty, axios_post, bind, ret, throw, stored.
  cbn [path originalname]. rewrite Hfile. cbv beta iota zeta.
  rewrite Hfile. cbv beta iota zeta.
  destruct (upload_ingest env _) as [e|pyRes]; [by exists session |].
  destruct (upload_find env); [by exists session |]. cbv beta iota zeta.
  rewrite Hfound1. cbv beta iota zeta.
  destruct (upload_save env); [by exists session |]. cbv beta iota zeta.
  cbn [andb]. rewrite add_file_known by done.
  cbn [files with_db]. rewrite Hfile.
  exists (push_message "assistant"
            (upload_message (part_filename part) (summary pyRes)) session).
  split; [| done].
  cbn [snd db with_db with_files _id push_message with_messages].
  rewrite Hsid. apply lookup_insert_eq.
Qed.

(** ** C8: the documents of a session *)

(** C8.  Attaching a file whose bytes hash to a fingerprint that the
    session already has leaves the session's fingerprints and names as
    they are, whatever the file is called; and in every world reachable
    from the empty one, the fingerprints of every session are free of
    duplicates and as many as its names. *)
Theorem documents_deduplicated :
  (∀ env uid part tmpname sid w session,
     lookup_owned (db w) sid uid = Some session →
     sha256_hex (part_data part) ∈ fileHashes session →
     ∃ s', stored (post_upload env uid (Some part) tmpname (Some sid) w).2 sid
           = Some s' ∧
           fileHashes s' = fileHashes session ∧
           filenames s' = filenames session) ∧
  (∀ w id s,
     reachable w → stored w id = Some s →
     NoDup (fileHashes s) ∧
     List.length (filenames s) = List.length (fileHashes s)).
Proof.
  split.
  - apply upload_known_file.
  - intros w id s Hreach Hs. by eapply reachable_documents_ok.
Qed.

(** ** C4: how many topics are in progress *)

Lemma none_in_progress_only_at plan c :
  none_in_progress plan → only_at c plan.
Proof. intros Hnone j t Hj Hst. by destruct (Hnone j t Hj). Qed.

Lemma none_in_progress_pending items :
  none_in_progress (pending_topic <$> items).
Proof.
  intros j t. rewrite list_lookup_fmap.
  destruct (items !! j); [| done]. by intros [= <-].
Qed.

(** Taking the only topic in progress out of progress leaves none. *)
Lemma only_at_leave plan (c : Z) (t y : Topic) :
  only_at c plan → at_index plan c = Some t → status y ≠ "in-progress" →
  none_in_progress (<[Z.to_nat c := y]> plan).
Proof.
  intros Honly [Hc Ht]%at_index_Some Hy j x.
  destruct (decide (j = Z.to_nat c)) as [->|Hne].
  - rewrite list_lookup_insert_eq by (by eapply lookup_lt_Some).
    by intros [= <-].
  - rewrite list_lookup_insert_ne by done.
    intros Hj Hst. specialize (Honly j x Hj Hst). lia.
Qed.

Lemma none_in_progress_enter plan (k : Z) (x : Topic) :
  (0 ≤ k)%Z → none_in_progress plan → only_at k (<[Z.to_nat k := x]> plan).
Proof.
  intros Hk Hnone j t.
  destruct (decide (j = Z.to_nat k)) as [->|Hne]; [intros; lia |].
  rewrite list_lookup_insert_ne by done.
  intros Hj Hst. by destruct (Hnone j t Hj).
Qed.

Lemma only_at_same plan (c : Z) (x : Topic) :
  (0 ≤ c)%Z → only_at c plan → only_at c (<[Z.to_nat c := x]> plan).
Proof.
  intros Hc Honly j t.
  destruct (decide (j = Z.to_nat c)) as [->|Hne]; [intros; lia |].
  rewrite list_lookup_insert_ne by done. apply Honly.
Qed.

Lemma only_at_other plan (c : Z) (k : nat) (y : Topic) :
  only_at c plan → status y ≠ "in-progress" → only_at c (<[k := y]> plan).
Proof.
  intros Honly Hy j t.
  destruct (decide (j = k)) as [->|Hne].
  - destruct (decide (k < List.length plan)%nat).
    + rewrite list_lookup_insert_eq by done. by intros [= <-].
    + rewrite list_insert_ge by lia. apply Honly.
  - rewrite list_lookup_insert_ne by done. apply Honly.
Qed.

Lemma none_in_progress_count plan :
  none_in_progress plan → count_status "in-progress" plan = 0%nat.
Proof.
  induction plan as [|t plan IH]; intros Hnone; [done |].
  cbn [count_status]. rewrite IH by (intros j; apply (Hnone (S j))).
  destruct (String.eqb_spec (status t) "in-progress") as [Hst|]; [| done].
  by destruct (Hnone 0%nat t).
Qed.

Lemma only_at_count plan c :
  only_at c plan → (count_status "in-progress" plan ≤ 1)%nat.
Proof.
  revert c. induction plan as [|t plan IH]; intros c Honly; [simpl; lia |].
  cbn [count_status].
  destruct (String.eqb_spec (status t) "in-progress") as [Hst|Hst].
  - rewrite none_in_progress_count; [lia |].
    intros j x Hj Hx. pose proof (Honly 0%nat t eq_refl Hst).
    pose proof (Honly (S j) x Hj Hx). lia.
  - simpl. apply (IH (c - 1)%Z). intros j x Hj Hx.
    pose proof (Honly (S j) x Hj Hx). lia.
Qed.

Lemma auto_complete_cursor signal current s w s' w' :
  in_progress_at_cursor s →
  auto_complete signal current s w = (Returned s', w') →
  in_progress_at_cursor s'.
Proof.
  unfold in_progress_at_cursor, auto_complete. intros Hs H. io_inv; try done.
  - simpl in *.
    match goal with H : at_index _ (_ + 1) = Some _ |- _ =>
      apply at_index_range in H end.
    apply (none_in_progress_enter _ (currentTopicIndex s + 1)); [lia |].
    by eapply (only_at_leave _ (currentTopicIndex s)).
  - simpl. apply none_in_progress_only_at.
    by eapply (only_at_leave _ (currentTopicIndex s)).
Qed.

Lemma install_plan_cursor items s w s' w' :
  install_plan items s w = (Returned s', w') → in_progress_at_cursor s'.
Proof.
  unfold in_progress_at_cursor, install_plan. intros H. io_inv.
  - simpl. apply (none_in_progress_enter _ 0); [done |].
    apply none_in_progress_pending.
  - simpl. apply none_in_progress_only_at, none_in_progress_pending.
Qed.

Lemma update_topic_cursor i status' s t w s' w' :
  cursor_update s i status' →
  in_progress_at_cursor s →
  at_index (studyPlan s) i = Some t →
  update_topic i status' s w = (Returned s', w') →
  in_progress_at_cursor s'.
Proof.
  unfold in_progress_at_cursor, update_topic. intros Hok Hs Hi H.
  pose proof (at_index_range _ _ _ Hi) as Hri.
  apply bind_inv in H as (s1 & w1 & H1 & H).
  apply set_topic_status_inv in H1 as (t' & Hi' & -> & ->).
  rewrite Hi in Hi'. injection Hi' as <-.
  destruct (String.eqb_spec status' "completed") as [->|Hnc].
  - destruct Hok as [[? _]| ->]; [done |].
    assert (none_in_progress
              (<[Z.to_nat (currentTopicIndex s) := with_status "completed" t]>
                 (studyPlan s))) as Hnone
      by by eapply (only_at_leave _ (currentTopicIndex s)).
    io_inv; simpl in *.
    + apply (none_in_progress_enter _ (currentTopicIndex s + 1)); [lia |].
      done.
    + by apply none_in_progress_only_at.
    + by apply none_in_progress_only_at.
  - destruct (String.eqb_spec status' "in-progress") as [->|Hnp].
    + destruct Hok as [[_ ?]| ->]; [done |].
      io_inv. simpl. apply only_at_same; [lia | done].
    + io_inv. simpl. by apply only_at_other.
Qed.

Lemma reachable_in_progress_at_cursor w :
  reachable_by_cursor_calls w → all_sessions in_progress_at_cursor w.
Proof.
  intros Hreach.
  eapply (rtc_ind_r (all_sessions in_progress_at_cursor));
    [| | exact Hreach]; [apply all_sessions_empty |].
  intros w1 w2 _ Hstep IH.
  eapply (step_keeps in_progress_at_cursor cursor_call); try eassumption.
  - by intros id uid j t.
  - intros h n s Hs. unfold add_file. by destruct (negb _).
  - by intros r c s.
  - by intros l s.
  - intros ?????? Hs H. by eapply auto_complete_cursor.
  - intros ????? _ H. by eapply install_plan_cursor.
  - intros w0 uid sid param status' s i t s' w3 w4 Hcall Hs Hfound Hparse Hi H.
    eapply update_topic_cursor; [| done | done | done].
    destruct Hcall as [?|(s0 & Hfound0 & Hparse0)]; [by left | right].
    congruence.
Qed.

(** C4, as the code has it.  In every world reached from the empty one by
    requests in which each topic-status call addresses the session's
    current topic or stores a status other than ['completed'] and
    ['in-progress'], every session has at most one topic in progress, and
    it is the one under the cursor. *)
Theorem at_most_one_in_progress w id s :
  reachable_by_cursor_calls w →
  stored w id = Some s →
  (in_progress_count s ≤ 1)%nat ∧ in_progress_at_cursor s.
Proof.
  intros Hreach Hs.
  assert (in_progress_at_cursor s) as Hcur
    by by eapply reachable_in_progress_at_cursor.
  split; [| done]. by eapply only_at_count.
Qed.

(** ** C7: the temporary file of an upload *)

(** When the upload succeeds the temporary file is gone afterwards. *)
Lemma upload_success_removes_file env uid part tmpname w pyRes :
  upload_ingest env
    (mkIngestRequest (part_data part) (part_filename part)
       (sha256_hex (part_data part))) = inr pyRes →
  upload_save env = None →
  db w !! upload_new_id env = None →
  let after := post_upload env uid (Some part) tmpname None w in
  res_status after.1 = 200%nat ∧
  files after.2 !! ("uploads/" +:+ tmpname) = None.
Proof.
  intros Hsvc Hsave Hfresh. unfold post_upload, multer_single.
  set (dest := "uploads/" +:+ tmpname).
  set (w1 := with_files (<[dest := part_data part]> (files w)) w).
  assert (files w1 !! dest = Some (part_data part)) as Hfile
    by apply lookup_insert_eq.
  assert (db w1 !! upload_new_id env = None) as Hfresh1 by done.
  clearbody w1. unfold upload_handler.
  unfold try_catch, calculateFileHash, readFile, unlinkSync, findOne, save,
    faulty, axios_post, bind, ret, throw.
  cbn [path originalname]. rewrite Hfile. cbv beta iota zeta.
  rewrite Hfile. cbv beta iota zeta. rewrite Hsvc, Hsave.
  cbv beta iota zeta.
  assert (_id (push_message "assistant"
                 (upload_message (part_filename part) (summary pyRes))
                 (add_file (sha256_hex (part_data part)) (part_filename part)
                    (new_session (upload_new_id env) uid)))
          = upload_new_id env) as Hid
    by (unfold add_file; by destruct (negb _)).
  rewrite Hid, Hfresh1.
  rewrite bool_decide_eq_false_2 by (by intros [? ?]).
  cbn [andb files with_db]. rewrite Hfile. cbn [fst snd files with_files].
  split; [done |]. apply lookup_delete_eq.
Qed.

(** When the ingest call fails the temporary file is still there when the
    handler has answered. *)
Lemma upload_failure_leaves_file env uid part tmpname sessionId w e :
  upload_ingest env
    (mkIngestRequest (part_data part) (part_filename part)
       (sha256_hex (part_data part))) = inl e →
  let after := post_upload env uid (Some part) tmpname sessionId w in
  after.1 = status_json 500 (BFailure "Upload failed" (exn_message e)) ∧
  files after.2 !! ("uploads/" +:+ tmpname) = Some (part_data part).
Proof.
  intros Hsvc. unfold post_upload, multer_single.
  set (dest := "uploads/" +:+ tmpname).
  set (w1 := with_files (<[dest := part_data part]> (files w)) w).
  assert (files w1 !! dest = Some (part_data part)) as Hfile
    by apply lookup_insert_eq.
  clearbody w1. unfold upload_handler.
  unfold try_catch, calculateFileHash, readFile, unlinkSync, findOne, save,
    faulty, axios_post, bind, ret, throw.
  cbn [path originalname]. rewrite Hfile. cbv beta iota zeta.
  rewrite Hfile. cbv beta iota zeta. by rewrite Hsvc.
Qed.


(** * Further properties of the router *)

(** ** What one request does to the collection *)

Lemma store_effect_refl uid R w : store_effect uid R w w.
Proof. intros id. destruct (db w !! id); [by left | done]. Qed.

Lemma store_effect_files uid R w w' f :
  store_effect uid R w w' → store_effect uid R w (with_files f w').
Proof. done. Qed.

Lemma store_effect_update uid R w sid s s' :
  lookup_owned (db w) sid uid = Some s →
  _id s' = sid → userId s' = uid → R s s' →
  store_effect uid R w (with_db (<[sid := s']> (db w)) w).
Proof.
  intros (Hs & Hid & Huid)%lookup_owned_Some Hid' Huid' HR id. simpl.
  destruct (decide (id = sid)) as [->|Hne].
  - rewrite Hs, lookup_insert_eq. by right.
  - rewrite lookup_insert_ne by done. destruct (db w !! id); [by left | done].
Qed.

Lemma store_effect_create uid R w id s' :
  db w !! id = None →
  _id s' = id → userId s' = uid → R (new_session id uid) s' →
  store_effect uid R w (with_db (<[id := s']> (db w)) w).
Proof.
  intros Hnone Hid' Huid' HR id'. simpl.
  destruct (decide (id' = id)) as [->|Hne].
  - by rewrite Hnone, lookup_insert_eq.
  - rewrite lookup_insert_ne by done. destruct (db w !! id'); [by left | done].
Qed.

Lemma store_effect_delete uid R w sid s :
  lookup_owned (db w) sid uid = Some s →
  store_effect uid R w (with_db (delete sid (db w)) w).
Proof.
  intros (Hs & Hid & Huid)%lookup_owned_Some id. simpl.
  destruct (decide (id = sid)) as [->|Hne].
  - by rewrite Hs, lookup_delete_eq.
  - rewrite lookup_delete_ne by done. destruct (db w !! id); [by left | done].
Qed.

(** The session-level computations keep the id and the owner. *)
Lemma auto_complete_identity signal current s w s' w' :
  auto_complete signal current s w = (Returned s', w') →
  _id s' = _id s ∧ userId s' = userId s.
Proof. unfold auto_complete. intros H. io_inv; done. Qed.

Lemma install_plan_identity items s w s' w' :
  install_plan items s w = (Returned s', w') →
  _id s' = _id s ∧ userId s' = userId s.
Proof. unfold install_plan. intros H. io_inv; done. Qed.

Lemma update_topic_identity i v s w s' w' :
  update_topic i v s w = (Returned s', w') →
  _id s' = _id s ∧ userId s' = userId s.
Proof. unfold update_topic. intros H. io_inv; done. Qed.

Lemma add_file_identity h n s :
  _id (add_file h n s) = _id s ∧ userId (add_file h n s) = userId s.
Proof. unfold add_file. by destruct (negb _). Qed.

Lemma chat_handler_effect uid R env message sessionId w :
  (∀ s, R s s) →
  (∀ s0 s r c, handler_role r → R s0 s → R s0 (push_message r c s)) →
  (∀ s0 s signal s' w1 w2,
     R s0 s →
     auto_complete signal (at_index (studyPlan s) (currentTopicIndex s)) s w1
     = (Returned s', w2) →
     R s0 s') →
  store_effect uid R w (chat_handler env uid message sessionId w).2.
Proof.
  intros Hrefl Hpush Hauto. unfold chat_handler.
  destruct (truthy message); [| apply store_effect_refl].
  destruct sessionId as [sid|]; [| apply store_effect_refl].
  io_unfold. destruct (chat_find env); [apply store_effect_refl |].
  cbv beta iota zeta.
  destruct (lookup_owned (db w) sid uid) as [session|] eqn:Hfound;
    [| apply store_effect_refl].
  pose proof Hfound as (_ & Hsid & Huid)%lookup_owned_Some.
  set (asked := push_message "user" (default "" message) session).
  assert (R session asked) as Hasked by (apply Hpush; [by left | done]).
  destruct (chat_save_user env); [apply store_effect_refl |].
  cbv beta iota zeta. cbn [andb].
  change (_id asked) with (_id session). rewrite Hsid.
  set (w1 := with_db (<[sid := asked]> (db w)) w).
  assert (store_effect uid R w w1) as Heff1
    by by apply (store_effect_update uid R w sid session asked).
  destruct (chat_service env _) as [e|data]; [done |]. cbv beta iota zeta.
  rewrite (current_topic_at_index asked).
  set (told := push_message "assistant" (response data) asked).
  destruct (auto_complete_pure (topic_completed data)
              (at_index (studyPlan asked) (currentTopicIndex asked)) told)
    as [o Ho].
  rewrite Ho. destruct o as [after|e]; [| done].
  destruct (chat_save env); [done |]. cbv beta iota zeta. cbn [andb].
  destruct (auto_complete_identity _ _ _ _ _ _ (Ho w)) as [Hid' Huid'].
  rewrite Hid'. change (_id told) with (_id session). rewrite Hsid.
  subst w1. rewrite with_db_insert_twice.
  apply (store_effect_update uid R w sid session after); try done.
  - by rewrite Hid'.
  - by rewrite Huid'.
  - eapply (Hauto session told); [| apply (Ho w)].
    apply Hpush; [by right | done].
Qed.

Lemma sessions_handler_world fault createdAt updatedAt uid w :
  (sessions_handler fault createdAt updatedAt uid w).2 = w.
Proof.
  unfold sessions_handler, find_sorted, faulty, bind, ret, throw.
  by destruct fault.
Qed.

Lemma history_handler_world find uid sessionId w :
  (history_handler find uid sessionId w).2 = w.
Proof.
  unfold history_handler. io_unfold. destruct find; [done |].
  cbv beta iota zeta. by destruct (lookup_owned (db w) sessionId uid).
Qed.

Lemma delete_handler_effect uid R fault sessionId w :
  store_effect uid R w (delete_handler fault uid sessionId w).2.
Proof.
  unfold delete_handler, try_catch, deleteOne, faulty, bind, ret, throw.
  destruct fault; [apply store_effect_refl |]. cbv beta iota zeta.
  destruct (lookup_owned (db w) sessionId uid) as [s|] eqn:Hfound;
    [| apply store_effect_refl].
  by eapply store_effect_delete.
Qed.

Lemma level_handler_effect uid R fault sessionId level w :
  (∀ s l, l ∈ ["beginner"; "intermediate"; "advanced"] →
          R s (with_learningLevel l s)) →
  store_effect uid R w (level_handler fault uid sessionId level w).2.
Proof.
  intros Hlevel. unfold level_handler, includes.
  case_bool_decide as Hin; cbn [negb]; [| apply store_effect_refl].
  unfold try_catch, findOneAndUpdate_level, faulty, bind, ret, throw.
  destruct fault; [apply store_effect_refl |]. cbv beta iota zeta.
  destruct (lookup_owned (db w) sessionId uid) as [s|] eqn:Hfound;
    [| apply store_effect_refl].
  pose proof Hfound as (_ & Hsid & Huid)%lookup_owned_Some.
  by apply (store_effect_update uid R w sessionId s); auto.
Qed.

Lemma plan_handler_effect uid R env sessionId w :
  (∀ s items s' w1 w2,
     install_plan items s w1 = (Returned s', w2) → R s s') →
  store_effect uid R w (plan_handler env uid sessionId w).2.
Proof.
  intros Hplan. unfold plan_handler. io_unfold.
  destruct (plan_find env); [apply store_effect_refl |].
  cbv beta iota zeta.
  destruct (lookup_owned (db w) sessionId uid) as [s|] eqn:Hfound;
    [| apply store_effect_refl].
  pose proof Hfound as (_ & Hsid & Huid)%lookup_owned_Some.
  destruct (plan_service env _) as [e|items]; [apply store_effect_refl |].
  cbv beta iota zeta.
  destruct (install_plan_pure items s) as [o Ho].
  rewrite Ho. destruct o as [after|e]; [| apply store_effect_refl].
  destruct (plan_save env); [apply store_effect_refl |].
  cbv beta iota zeta. cbn [andb].
  destruct (install_plan_identity _ _ _ _ _ (Ho w)) as [Hid' Huid'].
  rewrite Hid', Hsid.
  apply (store_effect_update uid R w sessionId s after); try done.
  - by rewrite Hid'.
  - by rewrite Huid'.
  - by eapply Hplan, (Ho w).
Qed.

Lemma topic_handler_effect uid R env sessionId param status' w :
  (∀ s i t s' w1 w2,
     as_integer (parseInt param) = Some i →
     at_index (studyPlan s) i = Some t →
     update_topic i status' s w1 = (Returned s', w2) → R s s') →
  store_effect uid R w (topic_handler env uid sessionId param status' w).2.
Proof.
  intros Hupd. unfold topic_handler, at_parsed. io_unfold.
  destruct (topic_find env); [apply store_effect_refl |].
  cbv beta iota zeta.
  destruct (lookup_owned (db w) sessionId uid) as [s|] eqn:Hfound;
    [| apply store_effect_refl].
  pose proof Hfound as (_ & Hsid & Huid)%lookup_owned_Some.
  destruct (as_integer (parseInt param)) as [i|] eqn:Hparse; [| apply store_effect_refl].
  cbn [at_parsed].
  destruct (at_index (studyPlan s) i) as [t|] eqn:Hi;
    [| apply store_effect_refl].
  destruct (update_topic_pure i status' s) as [o Ho].
  rewrite Ho. destruct o as [after|e]; [| apply store_effect_refl].
  destruct (topic_save env); [apply store_effect_refl |].
  cbv beta iota zeta. cbn [andb].
  destruct (update_topic_identity _ _ _ _ _ _ (Ho w)) as [Hid' Huid'].
  rewrite Hid', Hsid.
  apply (store_effect_update uid R w sessionId s after); try done.
  - by rewrite Hid'.
  - by rewrite Huid'.
  - by eapply Hupd, (Ho w).
Qed.

Lemma store_effect_same_db uid R w w1 w2 :
  db w1 = db w → store_effect uid R w1 w2 → store_effect uid R w w2.
Proof. intros Hdb H id. specialize (H id). by rewrite Hdb in H. Qed.

Lemma post_upload_effect uid R env part tmpname sessionId w :
  (∀ s, R s s) →
  (∀ s0 s h n, R s0 s → R s0 (add_file h n s)) →
  (∀ s0 s r c, handler_role r → R s0 s → R s0 (push_message r c s)) →
  store_effect uid R w (post_upload env uid part tmpname sessionId w).2.
Proof.
  intros Hrefl Hadd Hpush. unfold post_upload, multer_single.
  destruct part as [part|]; [| apply store_effect_refl].
  set (w1 := with_files (<[("uploads/" +:+ tmpname) := part_data part]> (files w)) w).
  apply (store_effect_same_db uid R w w1); [done |].
  clearbody w1. unfold upload_handler.
  unfold try_catch, calculateFileHash, readFile, unlinkSync, findOne, save,
    faulty, axios_post, bind, ret, throw.
  cbn [path originalname].
  destruct (files w1 !! ("uploads/" +:+ tmpname)) as [data|] eqn:Hfile;
    [| apply store_effect_refl].
  cbv beta iota zeta. rewrite Hfile. cbv beta iota zeta.
  destruct (upload_ingest env _) as [e|pyRes]; [apply store_effect_refl |].
  cbv beta iota zeta.
  set (text := upload_message (part_filename part) (summary pyRes)).
  set (h := sha256_hex data).
  assert (∀ session,
            lookup_owned (db w1) (_id session) uid = Some session →
            store_effect uid R w1
              (with_db
                 (<[_id session := push_message "assistant" text
                                     (add_file h (part_filename part) session)]>
                    (db w1)) w1)) as Hold.
  { intros session Hfound.
    pose proof Hfound as (_ & _ & Hu)%lookup_owned_Some.
    destruct (add_file_identity h (part_filename part) session) as [Hid Huid].
    apply (store_effect_update uid R w1 (_id session) session);
      [done | done | by rewrite <- Hu |].
    apply Hpush; [by right |]. by apply Hadd. }
  assert (db w1 !! upload_new_id env = None →
          store_effect uid R w1
            (with_db
               (<[upload_new_id env :=
                    push_message "assistant" text
                      (add_file h (part_filename part)
                         (new_session (upload_new_id env) uid))]>
                  (db w1)) w1)) as Hnew.
  { intros Hfree.
    destruct (add_file_identity h (part_filename part)
                (new_session (upload_new_id env) uid)) as [Hid Huid].
    apply (store_effect_create uid R w1 (upload_new_id env));
      [done | done | done |].
    apply Hpush; [by right |]. by apply Hadd. }
  assert (∀ s, _id (push_message "assistant" text
                      (add_file h (part_filename part) s)) = _id s) as Hkey
    by (intros s; apply add_file_identity).
  destruct sessionId as [sid|];
    [destruct (upload_find env); [apply store_effect_refl |];
     cbv beta iota zeta;
     destruct (lookup_owned (db w1) sid uid) as [session|] eqn:Hfound |];
    cbv beta iota zeta;
    (destruct (upload_save env); [apply store_effect_refl |]);
    cbv beta iota zeta; rewrite Hkey.
  - cbn [andb].
    pose proof Hfound as (_ & Hsid & _)%lookup_owned_Some.
    rewrite <- Hsid in Hfound. specialize (Hold session Hfound).
    by destruct (files _ !! _).
  - cbn [_id new_session].
    destruct (db w1 !! upload_new_id env) as [old|] eqn:Hfree.
    + rewrite bool_decide_eq_true_2 by eauto. apply store_effect_refl.
    + rewrite bool_decide_eq_false_2 by (by intros [? ?]). cbn [andb].
      specialize (Hnew eq_refl). by destruct (files _ !! _).
  - cbn [_id new_session].
    destruct (db w1 !! upload_new_id env) as [old|] eqn:Hfree.
    + rewrite bool_decide_eq_true_2 by eauto. apply store_effect_refl.
    + rewrite bool_decide_eq_false_2 by (by intros [? ?]). cbn [andb].
      specialize (Hnew eq_refl). by destruct (files _ !! _).
Qed.

(** The effect of any request, from the effects of its parts. *)
Lemma request_effect uid (R : Session → Session → Prop) w w' :
  (∀ s, R s s) →
  (∀ s0 s h n, R s0 s → R s0 (add_file h n s)) →
  (∀ s0 s r c, handler_role r → R s0 s → R s0 (push_message r c s)) →
  (∀ s l, l ∈ ["beginner"; "intermediate"; "advanced"] →
          R s (with_learningLevel l s)) →
  (∀ s0 s signal s' w1 w2,
     R s0 s →
     auto_complete signal (at_index (studyPlan s) (currentTopicIndex s)) s w1
     = (Returned s', w2) →
     R s0 s') →
  (∀ s items s' w1 w2,
     install_plan items s w1 = (Returned s', w2) → R s s') →
  (∀ s i t status' s' w1 w2,
     at_index (studyPlan s) i = Some t →
     update_topic i status' s w1 = (Returned s', w2) → R s s') →
  request_by uid w w' → store_effect uid R w w'.
Proof.
  intros Hrefl Hadd Hpush Hlevel Hauto Hplan Htopic Hreq.
  destruct Hreq.
  - by apply post_upload_effect.
  - by apply chat_handler_effect.
  - rewrite sessions_handler_world. apply store_effect_refl.
  - rewrite history_handler_world. apply store_effect_refl.
  - apply delete_handler_effect.
  - by apply level_handler_effect.
  - by apply plan_handler_effect.
  - apply topic_handler_effect. intros. by eapply Htopic.
Qed.

Lemma step_request w w' :
  step any_call w w' → ∃ uid, request_by uid w w'.
Proof. intros []; eexists; by econstructor. Qed.

(** ** X1: the sessions of other owners *)

(** X1.  A request made in the name of one owner neither changes, nor
    removes, nor creates a session of another owner. *)
Theorem foreign_sessions_untouched uid w w' id s :
  request_by uid w w' →
  userId s ≠ uid →
  db w !! id = Some s ↔ db w' !! id = Some s.
Proof.
  intros Hreq Hforeign.
  pose proof (request_effect uid (λ _ _, True) w w') as Heff.
  specialize (Heff ltac:(done) ltac:(done) ltac:(done) ltac:(done)
                ltac:(done) ltac:(done) ltac:(done) Hreq id).
  destruct (db w !! id) as [s0|], (db w' !! id) as [s1|]; split;
    intros [= <-]; try done.
  - destruct Heff as [-> | (_ & ? & _)]; done.
  - destruct Heff as [-> | (_ & _ & _ & ? & _)]; done.
  - by destruct Heff.
  - by destruct Heff as (_ & ? & _).
Qed.

(** ** X2 and X3: what a request may do to a session it keeps *)

Lemma transcript_grows_refl s : transcript_grows s s.
Proof. exists []. by rewrite app_nil_r. Qed.

Lemma transcript_grows_push s0 s r c :
  handler_role r → transcript_grows s0 s →
  transcript_grows s0 (push_message r c s).
Proof.
  intros Hr (entries & Hm & Hroles). exists (entries ++ [mkMessage r c]).
  split; [simpl; by rewrite Hm, app_assoc |].
  apply Forall_app. split; [done |]. by apply Forall_singleton.
Qed.

Lemma transcript_grows_same s0 s s' :
  messages s' = messages s → transcript_grows s0 s → transcript_grows s0 s'.
Proof. intros Hsame (entries & Hm & Hroles). exists entries. by rewrite Hsame. Qed.

Lemma transcript_grows_base s s' :
  messages s' = messages s → transcript_grows s s'.
Proof. intros H. eapply transcript_grows_same, transcript_grows_refl. done. Qed.

Ltac grows_tac :=
  repeat (apply transcript_grows_push; [by right |]);
  by apply transcript_grows_base.

Lemma auto_complete_transcript signal current s w s' w' :
  auto_complete signal current s w = (Returned s', w') →
  transcript_grows s s'.
Proof. unfold auto_complete. intros H. io_inv; grows_tac. Qed.

Lemma install_plan_transcript items s w s' w' :
  install_plan items s w = (Returned s', w') → transcript_grows s s'.
Proof. unfold install_plan. intros H. io_inv; grows_tac. Qed.

Lemma update_topic_transcript i v s w s' w' :
  update_topic i v s w = (Returned s', w') → transcript_grows s s'.
Proof. unfold update_topic. intros H. io_inv; grows_tac. Qed.

Lemma transcript_grows_trans s0 s s' :
  transcript_grows s0 s → transcript_grows s s' → transcript_grows s0 s'.
Proof.
  intros (e1 & H1 & Hr1) (e2 & H2 & Hr2). exists (e1 ++ e2).
  split; [by rewrite H2, H1, app_assoc |]. by apply Forall_app.
Qed.

Lemma request_transcript uid w w' :
  request_by uid w w' → store_effect uid transcript_grows w w'.
Proof.
  apply request_effect.
  - apply transcript_grows_refl.
  - intros s0 s h n. apply transcript_grows_same.
    unfold add_file. by destruct (negb _).
  - intros s0 s r c. apply transcript_grows_push.
  - intros s l _. grows_tac.
  - intros s0 s signal s' w1 w2 H0 H. eapply transcript_grows_trans; [done |].
    by eapply auto_complete_transcript.
  - intros s items s' w1 w2. apply install_plan_transcript.
  - intros s i t status' s' w1 w2 _. apply update_topic_transcript.
Qed.

(** X2.  A request never removes, rewrites or reorders a transcript entry
    of a session it keeps: the transcript afterwards is the transcript
    before followed by new entries, each of role ['user'] or
    ['assistant']. *)
Theorem transcript_append_only uid w w' id s s' :
  request_by uid w w' →
  db w !! id = Some s → db w' !! id = Some s' →
  ∃ entries,
    messages s' = messages s ++ entries ∧
    Forall (λ m, role m = "user" ∨ role m = "assistant") entries.
Proof.
  intros Hreq Hs Hs'. pose proof (request_transcript uid w w' Hreq id) as H.
  rewrite Hs, Hs' in H. destruct H as [-> | (_ & _ & _ & _ & H)]; [| done].
  apply transcript_grows_refl.
Qed.

Lemma documents_grow_refl s : documents_grow s s.
Proof. by split. Qed.

Lemma documents_grow_same s0 s s' :
  same_documents s s' → documents_grow s0 s → documents_grow s0 s'.
Proof. intros [Hh Hn] [? ?]. split; by rewrite ?Hh, ?Hn. Qed.

Lemma documents_grow_add_file s0 s h n :
  documents_grow s0 s → documents_grow s0 (add_file h n s).
Proof.
  intros [Hh Hn]. unfold add_file. destruct (negb _); [| done].
  split; simpl; by apply prefix_app_r.
Qed.

Lemma request_documents uid w w' :
  request_by uid w w' → store_effect uid documents_grow w w'.
Proof.
  apply request_effect.
  - apply documents_grow_refl.
  - intros s0 s h n. apply documents_grow_add_file.
  - intros s0 s r c _. by apply documents_grow_same.
  - intros s l _. by eapply documents_grow_same, documents_grow_refl.
  - intros s0 s signal s' w1 w2 H0 H. eapply documents_grow_same; [| done].
    by eapply auto_complete_documents.
  - intros s items s' w1 w2 H.
    eapply documents_grow_same, documents_grow_refl.
    by eapply install_plan_documents.
  - intros s i t status' s' w1 w2 _ H.
    eapply documents_grow_same, documents_grow_refl.
    by eapply update_topic_documents.
Qed.

(** X3.  A request never changes the id or the owner of a session it
    keeps, and never removes or reorders an attached document: the
    fingerprints and the names before are prefixes of those afterwards. *)
Theorem identity_and_documents_kept uid w w' id s s' :
  request_by uid w w' →
  db w !! id = Some s → db w' !! id = Some s' →
  _id s' = _id s ∧ userId s' = userId s ∧
  fileHashes s `prefix_of` fileHashes s' ∧
  filenames s `prefix_of` filenames s'.
Proof.
  intros Hreq Hs Hs'. pose proof (request_documents uid w w' Hreq id) as H.
  rewrite Hs, Hs' in H.
  destruct H as [-> | (Hid & Hu & Hid' & Hu' & Hh & Hn)]; [done |].
  repeat split; congruence || done.
Qed.

(** ** Invariants of the reachable worlds, again *)

Lemma reachable_sessions (P : Session → Prop) :
  (∀ id uid, P (new_session id uid)) →
  (∀ s h n, P s → P (add_file h n s)) →
  (∀ s r c, handler_role r → P s → P (push_message r c s)) →
  (∀ s l, l ∈ ["beginner"; "intermediate"; "advanced"] →
          P s → P (with_learningLevel l s)) →
  (∀ s signal s' w1 w2,
     P s →
     auto_complete signal (at_index (studyPlan s) (currentTopicIndex s)) s w1
     = (Returned s', w2) →
     P s') →
  (∀ s items s' w1 w2,
     P s → install_plan items s w1 = (Returned s', w2) → P s') →
  (∀ s i t status' s' w1 w2,
     P s → at_index (studyPlan s) i = Some t →
     update_topic i status' s w1 = (Returned s', w2) → P s') →
  ∀ w, reachable w → all_sessions P w ∧ keyed_by_id w.
Proof.
  intros Hnew Hadd Hpush Hlevel Hauto Hplan Htopic w Hreach.
  eapply (rtc_ind_r (λ w, all_sessions P w ∧ keyed_by_id w));
    [| | exact Hreach].
  { split; [apply all_sessions_empty | by intros id s]. }
  intros w1 w2 _ [uid Hreq]%step_request [Hall Hkey].
  pose proof (request_effect uid (λ s s', P s → P s') w1 w2) as Heff.
  assert (store_effect uid (λ s s', P s → P s') w1 w2) as Hstore.
  { apply Heff; try done; eauto. }
  split.
  - intros id s' Hs'. specialize (Hstore id). rewrite Hs' in Hstore.
    destruct (db w1 !! id) as [s|] eqn:Hs.
    + destruct Hstore as [-> | (_ & _ & _ & _ & HP)]; [by eapply Hall |].
      apply HP. by eapply Hall.
    + destruct Hstore as (_ & _ & HP). apply HP, Hnew.
  - intros id s' Hs'. specialize (Hstore id). rewrite Hs' in Hstore.
    destruct (db w1 !! id) as [s|] eqn:Hs.
    + destruct Hstore as [-> | (_ & _ & ? & _)]; [by eapply Hkey | done].
    + by destruct Hstore as (? & _).
Qed.

Lemma roles_ok_grows s s' : transcript_grows s s' → roles_ok s → roles_ok s'.
Proof.
  intros (entries & Hm & Hroles) Hs. unfold roles_ok. rewrite Hm.
  by apply Forall_app.
Qed.

Lemma cursor_valid_at plan i (t : Topic) (s : Session) :
  at_index plan i = Some t →
  List.length (studyPlan s) = List.length plan →
  currentTopicIndex s = i →
  cursor_valid s.
Proof. intros Hi%at_index_range Hlen Hc. right. lia. Qed.

Lemma auto_complete_cursor_valid signal current s w s' w' :
  cursor_valid s →
  auto_complete signal current s w = (Returned s', w') →
  cursor_valid s'.
Proof.
  unfold auto_complete. intros Hs H. io_inv; try done.
  - match goal with H : at_index _ (_ + 1) = Some _ |- _ =>
      eapply cursor_valid_at; [exact H | |] end; simpl; [| done].
    by rewrite length_insert.
  - match goal with H : at_index _ (currentTopicIndex s) = Some _ |- _ =>
      eapply cursor_valid_at; [exact H | |] end; simpl; [| done].
    by rewrite length_insert.
Qed.

Lemma install_plan_cursor_valid items s w s' w' :
  install_plan items s w = (Returned s', w') → cursor_valid s'.
Proof.
  unfold install_plan. intros H. io_inv.
  - match goal with H : (0 <? _)%Z = true |- _ => apply Z.ltb_lt in H end.
    right. simpl in *. rewrite length_insert. lia.
  - match goal with H : (0 <? _)%Z = false |- _ => apply Z.ltb_ge in H end.
    left. cbn [studyPlan with_studyPlan] in *.
    destruct (pending_topic <$> items); [done |].
    cbn [List.length] in *. lia.
Qed.

Lemma update_topic_cursor_valid i status' s t w s' w' :
  cursor_valid s →
  at_index (studyPlan s) i = Some t →
  update_topic i status' s w = (Returned s', w') →
  cursor_valid s'.
Proof.
  unfold update_topic. intros Hs Hi H.
  io_inv; unfold cursor_valid in *; cbn [studyPlan currentTopicIndex
    with_studyPlan with_currentTopicIndex push_message with_messages] in *;
    repeat match goal with
           | H : at_index _ _ = Some _ |- _ =>
               apply at_index_range in H; rewrite ?length_insert in H
           end;
    right; rewrite ?length_insert;
    (destruct Hs as [Hs | Hs]; [rewrite Hs in *; simpl in *; lia | lia]).
Qed.

(** X4.  In every world reachable from the empty one, by any requests, a
    session with a non-empty study plan has a [currentTopicIndex] that
    addresses one of its topics. *)
Theorem cursor_addresses_topic w id s :
  reachable w → db w !! id = Some s →
  studyPlan s ≠ [] →
  ∃ t, at_index (studyPlan s) (currentTopicIndex s) = Some t.
Proof.
  intros Hreach Hs Hplan.
  assert (cursor_valid s) as [Hnil | Hrange].
  { eapply (reachable_sessions cursor_valid); try exact Hreach; try exact Hs.
    - by left.
    - intros s0 h n. unfold add_file. by destruct (negb _).
    - by intros s0 r c _.
    - by intros s0 l _.
    - intros s0 signal s' w1 w2. apply auto_complete_cursor_valid.
    - intros s0 items s' w1 w2 _. apply install_plan_cursor_valid.
    - intros s0 i t status' s' w1 w2. apply update_topic_cursor_valid. }
  - done.
  - destruct (at_index (studyPlan s) (currentTopicIndex s)) as [t|] eqn:Hat;
      [eauto |].
    apply at_index_None in Hat. lia.
Qed.

(** X5.  In every world reachable from the empty one, every transcript
    entry of every session has the role ['user'] or ['assistant']. *)
Theorem transcript_roles w id s m :
  reachable w → db w !! id = Some s →
  m ∈ messages s →
  role m = "user" ∨ role m = "assistant".
Proof.
  intros Hreach Hs Hm.
  assert (roles_ok s) as Hroles.
  { eapply (reachable_sessions roles_ok); try exact Hreach; try exact Hs.
    - intros. apply Forall_nil_2.
    - intros s0 h n. unfold add_file. by destruct (negb _).
    - intros s0 r c Hr H0. eapply roles_ok_grows; [| exact H0].
      apply transcript_grows_push; [done | apply transcript_grows_refl].
    - by intros s0 l _.
    - intros s0 signal s' w1 w2 H0 H. eapply roles_ok_grows; [| exact H0].
      by eapply auto_complete_transcript.
    - intros s0 items s' w1 w2 H0 H. eapply roles_ok_grows; [| exact H0].
      by eapply install_plan_transcript.
    - intros s0 i t status' s' w1 w2 H0 _ H.
      eapply roles_ok_grows; [| exact H0].
      by eapply update_topic_transcript. }
  unfold roles_ok in Hroles. rewrite Forall_forall in Hroles.
  by apply Hroles.
Qed.

(** ** X6: the state machine changes statuses only *)

Lemma topic_names_set_status plan i t v :
  at_index plan i = Some t →
  topic_names (<[Z.to_nat i := with_status v t]> plan) = topic_names plan.
Proof.
  intros [_ Hi]%at_index_Some. unfold topic_names.
  rewrite list_fmap_insert. apply list_insert_id.
  by rewrite list_lookup_fmap, Hi.
Qed.

Ltac names_tac :=
  cbn [studyPlan currentTopicIndex with_studyPlan with_currentTopicIndex
       push_message with_messages] in *;
  repeat (erewrite topic_names_set_status by eassumption);
  reflexivity.

Lemma auto_complete_names signal current s w s' w' :
  auto_complete signal current s w = (Returned s', w') →
  topic_names (studyPlan s') = topic_names (studyPlan s).
Proof. unfold auto_complete. intros H. io_inv; names_tac. Qed.

Lemma update_topic_names i v s w s' w' :
  update_topic i v s w = (Returned s', w') →
  topic_names (studyPlan s') = topic_names (studyPlan s).
Proof. unfold update_topic. intros H. io_inv; names_tac. Qed.

(** X6.  Neither send-message nor set-topic-status adds, removes, renames
    or reorders a topic: the names and descriptions of the plan of a
    session are the same before and after, whatever the arguments and the
    environment (only statuses change). *)
Theorem topics_only_change_status uid id s s' w :
  db w !! id = Some s →
  (∀ env message sessionId,
     db (chat_handler env uid message sessionId w).2 !! id = Some s' →
     topic_names (studyPlan s') = topic_names (studyPlan s)) ∧
  (∀ env sessionId param status',
     db (topic_handler env uid sessionId param status' w).2 !! id = Some s' →
     topic_names (studyPlan s') = topic_names (studyPlan s)).
Proof.
  intros Hs.
  set (R := λ a b : Session,
              topic_names (studyPlan b) = topic_names (studyPlan a)).
  split.
  - intros env message sessionId Hs'.
    pose proof (chat_handler_effect uid R env message sessionId w) as Heff.
    assert (store_effect uid R w (chat_handler env uid message sessionId w).2)
      as Hstore.
    { apply Heff; subst R; simpl; [done | done |].
      intros s0 a signal b w1 w2 H0 H. rewrite <- H0.
      by eapply auto_complete_names. }
    specialize (Hstore id). rewrite Hs, Hs' in Hstore.
    by destruct Hstore as [-> | (_ & _ & _ & _ & ?)].
  - intros env sessionId param status' Hs'.
    pose proof (topic_handler_effect uid R env sessionId param status' w)
      as Heff.
    assert (store_effect uid R w
              (topic_handler env uid sessionId param status' w).2) as Hstore.
    { apply Heff. intros a i t b w1 w2 _ _ H. by eapply update_topic_names. }
    specialize (Hstore id). rewrite Hs, Hs' in Hstore.
    by destruct Hstore as [-> | (_ & _ & _ & _ & ?)].
Qed.

(** ** X7: the plan accesses of the handlers never throw *)

Lemma auto_complete_returns signal s :
  ∃ s', ∀ w,
    auto_complete signal (at_index (studyPlan s) (currentTopicIndex s)) s w
    = (Returned s', w).
Proof.
  destruct (at_index (studyPlan s) (currentTopicIndex s)) as [t|] eqn:Hi.
  2: { exists s. intros w. apply auto_complete_idle. auto. }
  destruct signal.
  2: { exists s. intros w. apply auto_complete_idle. auto. }
  destruct (decide (status t = "completed")) as [Hst|Hst].
  { exists s. intros w. apply auto_complete_idle. eauto. }
  destruct (at_index (studyPlan s) (currentTopicIndex s + 1)) as [n|] eqn:Hn.
  - eexists. intros w. by apply (auto_complete_advance s t n).
  - eexists. intros w. by apply (auto_complete_finish s t).
Qed.

Lemma eqb_in_progress (st : string) :
  String.eqb st "in-progress" = bool_decide (st = "in-progress").
Proof.
  destruct (String.eqb_spec st "in-progress").
  - by rewrite bool_decide_eq_true_2.
  - by rewrite bool_decide_eq_false_2.
Qed.

(** Storing a status other than ['completed']. *)
Lemma update_topic_not_completed (s : Session) (i : Z) (t : Topic)
    (status' : string) (w : World) :
  at_index (studyPlan s) i = Some t →
  status' ≠ "completed" →
  update_topic i status' s w
  = (Returned
       (with_currentTopicIndex
          (if decide (status' = "in-progress") then i else currentTopicIndex s)
          (with_studyPlan
             (<[Z.to_nat i := with_status status' t]> (studyPlan s)) s)), w).
Proof.
  intros Hi Hst. unfold update_topic.
  unfold bind, set_topic_status, ret. rewrite Hi.
  assert (String.eqb status' "completed" = false) as ->
    by (by apply String.eqb_neq).
  rewrite eqb_in_progress. case_bool_decide as Hp.
  - by rewrite decide_True.
  - rewrite decide_False by done. by destruct s.
Qed.

Lemma update_topic_returns i status' s t :
  at_index (studyPlan s) i = Some t →
  ∃ s', ∀ w, update_topic i status' s w = (Returned s', w).
Proof.
  intros Hi. destruct (decide (status' = "completed")) as [->|Hst].
  - destruct (at_index (studyPlan s) (i + 1)) as [n|] eqn:Hn.
    + destruct (decide (status n = "pending")).
      * eexists. intros w. by apply (update_topic_completed_promote s i t n).
      * eexists. intros w. by apply (update_topic_completed_keep s i t n).
    + eexists. intros w. by apply (update_topic_completed_last s i t).
  - eexists. intros w. by apply update_topic_not_completed.
Qed.

(** X7.  With a store and a service that work, a request on an existing
    session is answered with 200 whatever plan and cursor the session has:
    send-message, generate-plan, and set-topic-status at an index that
    addresses a topic never fail on an access to the plan. *)
Theorem working_environment_succeeds uid sid w session :
  lookup_owned (db w) sid uid = Some session →
  (∀ env m data,
     m ≠ "" →
     chat_find env = None → chat_save_user env = None → chat_save env = None →
     chat_service env
       (mkChatRequest m (fileHashes session)
          (messages session ++ [mkMessage "user" m])
          (topic <$> at_index (studyPlan session) (currentTopicIndex session))
          (learningLevel session)) = inr data →
     (chat_handler env uid (Some m) (Some sid) w).1
     = json (BChat (response data) (topic_completed data))) ∧
  (∀ env items,
     plan_find env = None → plan_save env = None →
     plan_service env
       (mkPlanRequest (fileHashes session) (learningLevel session))
       = inr items →
     res_status (plan_handler env uid sid w).1 = 200%nat) ∧
  (∀ env param status' i t,
     topic_find env = None → topic_save env = None →
     as_integer (parseInt param) = Some i →
     at_index (studyPlan session) i = Some t →
     res_status (topic_handler env uid sid param status' w).1 = 200%nat).
Proof.
  intros Hfound.
  pose proof Hfound as (_ & Hsid & Huid)%lookup_owned_Some.
  split; [| split].
  - intros env m data Hm Hf Hs1 Hs2 Hsvc.
    set (asked := push_message "user" m session).
    set (told := push_message "assistant" (response data) asked).
    destruct (auto_complete_returns (topic_completed data) told)
      as [after Hafter].
    rewrite (chat_handler_run env uid m sid w session data after); try done.
    + fold asked. by rewrite (current_topic_at_index asked).
    + fold asked. by rewrite (current_topic_at_index asked).
    + destruct (auto_complete_identity _ _ _ _ _ _ (Hafter w)) as [-> _].
      done.
  - intros env items Hf Hs Hsvc.
    by rewrite (plan_handler_run env uid sid w session items).
  - intros env param status' i t Hf Hs Hparse Hi.
    destruct (update_topic_returns i status' session t Hi) as [after Hafter].
    rewrite (topic_handler_run env uid sid param status' w session i t after);
      try done.
    destruct (update_topic_identity _ _ _ _ _ _ (Hafter w)) as [-> _].
    done.
Qed.

(** ** X8: a manual status other than ['completed'] *)

(** X8.  [set-topic-status(i, status)] with a status other than
    ['completed'] at an index that addresses a topic stores the status on
    that topic and nothing else in the plan; the cursor becomes [i] when
    the status is ['in-progress'] and stays otherwise; the transcript does
    not change. *)
Theorem manual_other_status env uid sid param status' w session i t :
  lookup_owned (db w) sid uid = Some session →
  topic_find env = None → topic_save env = None →
  as_integer (parseInt param) = Some i →
  at_index (studyPlan session) i = Some t →
  status' ≠ "completed" →
  let after :=
    mkSession sid uid (fileHashes session) (filenames session)
      (messages session)
      (<[Z.to_nat i := mkTopic (topic t) (description t) status']>
         (studyPlan session))
      (if decide (status' = "in-progress") then i
       else currentTopicIndex session)
      (learningLevel session) in
  topic_handler env uid sid param status' w
  = (json (BSession (Some after)), with_db (<[sid := after]> (db w)) w).
Proof.
  intros Hfound Hf Hs Hparse Hi Hst after.
  pose proof Hfound as (_ & Hsid & Huid)%lookup_owned_Some.
  apply (topic_handler_run env uid sid param status' w session i t after);
    try done.
  intros w'. rewrite (update_topic_not_completed _ _ t) by done.
  subst after. destruct session. simpl in *. by rewrite Hsid, Huid.
Qed.

(** ** X9: a reply without the completion signal *)

(** X9.  When the service answers a chat call with [topic_completed]
    false, the stored session gains the question and the reply and nothing
    else: plan, cursor, documents and level are as before. *)
Theorem chat_without_signal env uid m sid w session data :
  m ≠ "" →
  lookup_owned (db w) sid uid = Some session →
  chat_find env = None → chat_save_user env = None → chat_save env = None →
  chat_service env
    (mkChatRequest m (fileHashes session)
       (messages session ++ [mkMessage "user" m])
       (topic <$> at_index (studyPlan session) (currentTopicIndex session))
       (learningLevel session)) = inr data →
  topic_completed data = false →
  chat_handler env uid (Some m) (Some sid) w
  = (json (BChat (response data) false),
     with_db
       (<[sid := mkSession sid uid (fileHashes session) (filenames session)
                   (messages session ++
                    [mkMessage "user" m;
                     mkMessage "assistant" (response data)])
                   (studyPlan session) (currentTopicIndex session)
                   (learningLevel session)]> (db w)) w).
Proof.
  intros Hm Hfound Hf Hs1 Hs2 Hsvc Hsig.
  pose proof Hfound as (_ & Hsid & Huid)%lookup_owned_Some.
  rewrite <- Hsig.
  apply (chat_handler_run env uid m sid w session data); try done.
  - by rewrite (current_topic_at_index (push_message "user" m session)).
  - intros w'. rewrite Hsig, auto_complete_idle by auto.
    destruct session. simpl in *. unfold push_message, with_messages. simpl.
    by rewrite <- app_assoc, Hsid, Huid.
Qed.

(** ** X10: deleting a session *)

(** X10.  While the store works, delete-session answers 200 whether or not
    the owner has a session of that id; afterwards the owner has none, the
    documents under other ids are as before, and so is a document under
    this id that belongs to another owner: when the caller owns no session
    of that id the world is unchanged.  A second delete answers the same
    and changes nothing, and get-session answers 404. *)
Theorem delete_session uid sid w :
  let after := delete_handler None uid sid w in
  after.1 = json (BMessage "Session deleted") ∧
  lookup_owned (db after.2) sid uid = None ∧
  (∀ id, id ≠ sid → db after.2 !! id = db w !! id) ∧
  (∀ s, db w !! sid = Some s → userId s ≠ uid →
        db after.2 !! sid = Some s) ∧
  (lookup_owned (db w) sid uid = None → after.2 = w) ∧
  delete_handler None uid sid after.2
  = (json (BMessage "Session deleted"), after.2) ∧
  history_handler None uid sid after.2
  = (status_json 404 (BMessage "Session not found"), after.2).
Proof.
  cbv zeta.
  assert (∀ w0, lookup_owned (db w0) sid uid = None →
                delete_handler None uid sid w0
                = (json (BMessage "Session deleted"), w0)) as Hnone.
  { intros w0 H0.
    unfold delete_handler, try_catch, deleteOne, faulty, bind, ret, throw.
    cbv beta iota zeta. by rewrite H0. }
  assert (∀ w0, lookup_owned (db w0) sid uid = None →
                history_handler None uid sid w0
                = (status_json 404 (BMessage "Session not found"), w0))
    as Hget.
  { intros w0 H0. unfold history_handler. io_unfold.
    cbv beta iota zeta. by rewrite H0. }
  destruct (lookup_owned (db w) sid uid) as [s|] eqn:Hfound.
  - assert (delete_handler None uid sid w
            = (json (BMessage "Session deleted"),
               with_db (delete sid (db w)) w)) as ->.
    { unfold delete_handler, try_catch, deleteOne, faulty, bind, ret, throw.
      cbv beta iota zeta. by rewrite Hfound. }
    assert (lookup_owned (db (with_db (delete sid (db w)) w)) sid uid = None)
      as Hgone.
    { unfold lookup_owned. simpl. by rewrite lookup_delete_eq. }
    cbn [fst snd]. split; [done |]. split; [done |].
    split; [intros id Hne; simpl; by rewrite lookup_delete_ne |].
    split.
    { intros s' Hs' Hforeign.
      apply lookup_owned_Some in Hfound as (Hs & _ & Huid).
      rewrite Hs in Hs'. by injection Hs' as ->. }
    split; [done |].
    split; [by apply Hnone | by apply Hget].
  - rewrite (Hnone w Hfound). cbn [fst snd].
    split; [done |]. split; [done |]. split; [done |].
    split; [done |]. split; [done |].
    split; [by apply Hnone | by apply Hget].
Qed.

(** ** X11: setting the level of an existing session *)

(** X11.  set-level with one of the three levels on an existing session
    stores the level and changes no other field; the next generate-plan
    sends that level to the service. *)
Theorem level_update uid sid level w session :
  lookup_owned (db w) sid uid = Some session →
  level ∈ ["beginner"; "intermediate"; "advanced"] →
  let after :=
    mkSession sid uid (fileHashes session) (filenames session)
      (messages session) (studyPlan session) (currentTopicIndex session)
      level in
  let w' := with_db (<[sid := after]> (db w)) w in
  level_handler None uid sid level w = (json (BSession (Some after)), w') ∧
  ∀ env items,
    plan_find env = None → plan_save env = None →
    plan_service env (mkPlanRequest (fileHashes session) level) = inr items →
    studyPlan <$> stored (plan_handler env uid sid w').2 sid
    = Some (fresh_plan items).
Proof.
  intros Hfound Hlevel after w'.
  pose proof Hfound as (_ & Hsid & Huid)%lookup_owned_Some.
  split.
  - unfold level_handler, includes.
    rewrite bool_decide_eq_true_2 by done. cbn [negb].
    unfold try_catch, findOneAndUpdate_level, faulty, bind, ret, throw.
    cbv beta iota zeta. rewrite Hfound.
    assert (with_learningLevel level session = after) as ->; [| done].
    subst after. destruct session. simpl in *. by rewrite Hsid, Huid.
  - intros env items Hf Hs Hsvc.
    rewrite (plan_handler_run env uid sid w' after items); try done.
    + unfold stored. simpl. by rewrite lookup_insert_eq.
    + apply (lookup_owned_insert (db w) after).
Qed.

(** ** X12: a session of another owner *)

(** X12.  A request that names a session the caller does not own (absent,
    or owned by someone else) leaves the world as it is, and its answer is
    the same in any two worlds where the caller does not own that id: a
    session of another owner is answered like an absent one. *)
Theorem foreign_session_like_absent uid sid w1 w2 :
  lookup_owned (db w1) sid uid = None →
  lookup_owned (db w2) sid uid = None →
  (∀ env m,
     (chat_handler env uid m (Some sid) w1).2 = w1 ∧
     (chat_handler env uid m (Some sid) w1).1
     = (chat_handler env uid m (Some sid) w2).1) ∧
  (∀ find,
     (history_handler find uid sid w1).2 = w1 ∧
     (history_handler find uid sid w1).1 = (history_handler find uid sid w2).1) ∧
  (∀ fault,
     (delete_handler fault uid sid w1).2 = w1 ∧
     (delete_handler fault uid sid w1).1 = (delete_handler fault uid sid w2).1) ∧
  (∀ fault level,
     (level_handler fault uid sid level w1).2 = w1 ∧
     (level_handler fault uid sid level w1).1
     = (level_handler fault uid sid level w2).1) ∧
  (∀ env,
     (plan_handler env uid sid w1).2 = w1 ∧
     (plan_handler env uid sid w1).1 = (plan_handler env uid sid w2).1) ∧
  (∀ env param status',
     (topic_handler env uid sid param status' w1).2 = w1 ∧
     (topic_handler env uid sid param status' w1).1
     = (topic_handler env uid sid param status' w2).1).
Proof.
  intros H1 H2. repeat split.
  - unfold chat_handler. destruct (truthy m); [| done]. io_unfold.
    destruct (chat_find env); [done |]. cbv beta iota zeta. by rewrite H1.
  - unfold chat_handler. destruct (truthy m); [| done]. io_unfold.
    destruct (chat_find env); [done |]. cbv beta iota zeta.
    by rewrite H1, H2.
  - unfold history_handler. io_unfold. destruct find; [done |].
    cbv beta iota zeta. by rewrite H1.
  - unfold history_handler. io_unfold. destruct find; [done |].
    cbv beta iota zeta. by rewrite H1, H2.
  - unfold delete_handler, try_catch, deleteOne, faulty, bind, ret, throw.
    destruct fault; [done |]. cbv beta iota zeta. by rewrite H1.
  - unfold delete_handler, try_catch, deleteOne, faulty, bind, ret, throw.
    destruct fault; [done |]. cbv beta iota zeta. by rewrite H1, H2.
  - unfold level_handler. destruct (negb _); [done |].
    unfold try_catch, findOneAndUpdate_level, faulty, bind, ret, throw.
    destruct fault; [done |]. cbv beta iota zeta. by rewrite H1.
  - unfold level_handler. destruct (negb _); [done |].
    unfold try_catch, findOneAndUpdate_level, faulty, bind, ret, throw.
    destruct fault; [done |]. cbv beta iota zeta. by rewrite H1, H2.
  - unfold plan_handler. io_unfold. destruct (plan_find env); [done |].
    cbv beta iota zeta. by rewrite H1.
  - unfold plan_handler. io_unfold. destruct (plan_find env); [done |].
    cbv beta iota zeta. by rewrite H1, H2.
  - unfold topic_handler, at_parsed. io_unfold. destruct (topic_find env); [done |].
    cbv beta iota zeta. by rewrite H1.
  - unfold topic_handler, at_parsed. io_unfold. destruct (topic_find env); [done |].
    cbv beta iota zeta. by rewrite H1, H2.
Qed.

Lemma lookup_owned_foreign (d : gmap N Session) (sid uid : N) (s : Session) :
  d !! sid = Some s → userId s ≠ uid → lookup_owned d sid uid = None.
Proof.
  intros Hs Hne. unfold lookup_owned. rewrite Hs.
  rewrite decide_False; [done |]. by intros [_ ?].
Qed.

Lemma lookup_owned_absent (d : gmap N Session) (sid uid : N) :
  d !! sid = None → lookup_owned d sid uid = None.
Proof. intros Hs. unfold lookup_owned. by rewrite Hs. Qed.

(** ** X13 and X14: a successful upload *)

(** The upload route when store, service and file system work: [found] is
    the session the handler continues with, if any. *)
Lemma post_upload_run env uid part tmpname sessionId w pyRes found :
  match sessionId with
  | Some sid => upload_find env = None ∧ lookup_owned (db w) sid uid = found
  | None => found = None
  end →
  upload_ingest env
    (mkIngestRequest (part_data part) (part_filename part)
       (sha256_hex (part_data part))) = inr pyRes →
  upload_save env = None →
  (found = None → db w !! upload_new_id env = None) →
  let base := default (new_session (upload_new_id env) uid) found in
  let after :=
    push_message "assistant"
      (upload_message (part_filename part) (summary pyRes))
      (add_file (sha256_hex (part_data part)) (part_filename part) base) in
  post_upload env uid (Some part) tmpname sessionId w
  = (json (BUpload "File processed" (_id base) (cached pyRes) (summary pyRes)),
     mkWorld (<[_id base := after]> (db w))
             (delete ("uploads/" +:+ tmpname) (files w))).
Proof.
  intros Hfound Hsvc Hsave Hfree base after.
  unfold post_upload, multer_single.
  set (dest := "uploads/" +:+ tmpname).
  set (w1 := with_files (<[dest := part_data part]> (files w)) w).
  assert (files w1 !! dest = Some (part_data part)) as Hfile
    by apply lookup_insert_eq.
  assert (delete dest (files w1) = delete dest (files w)) as Hdel
    by apply delete_insert_eq.
  assert (db w1 = db w) as Hdb by done.
  clearbody w1. unfold upload_handler.
  unfold try_catch, calculateFileHash, readFile, unlinkSync, findOne, save,
    faulty, axios_post, bind, ret, throw.
  cbn [path originalname]. rewrite Hfile. cbv beta iota zeta.
  rewrite Hfile. cbv beta iota zeta. rewrite Hsvc, Hsave.
  cbv beta iota zeta.
  assert (∀ s, _id (push_message "assistant"
                      (upload_message (part_filename part) (summary pyRes))
                      (add_file (sha256_hex (part_data part))
                         (part_filename part) s)) = _id s) as Hkey
    by (intros s; apply add_file_identity).
  subst after base.
  assert (found = None →
          db w1 !! upload_new_id env = None) as Hfree1
    by (intros Hn; rewrite Hdb; auto).
  destruct sessionId as [sid|].
  - destruct Hfound as [-> Hlook]. cbv beta iota zeta. rewrite Hdb, Hlook.
    destruct found as [session|]; cbv beta iota zeta;
      cbn [andb default from_option id]; rewrite !Hkey.
    + cbn [files with_db]. rewrite Hfile. cbn [fst snd].
      f_equal. unfold with_files, with_db.
      cbn [db files]. by rewrite Hdel, Hdb.
    + cbn [_id new_session]. rewrite (Hfree1 eq_refl).
      rewrite bool_decide_eq_false_2 by (by intros [? ?]). cbn [andb].
      cbn [files with_db]. rewrite Hfile. cbn [fst snd].
      f_equal. unfold with_files, with_db.
      cbn [db files]. by rewrite Hdel, Hdb.
  - subst found. cbv beta iota zeta.
    cbn [andb default from_option id]. rewrite !Hkey.
    cbn [_id new_session]. rewrite (Hfree1 eq_refl).
    rewrite bool_decide_eq_false_2 by (by intros [? ?]). cbn [andb].
    cbn [files with_db]. rewrite Hfile. cbn [fst snd].
    f_equal. unfold with_files, with_db.
    cbn [db files]. by rewrite Hdel, Hdb.
Qed.

(** X13.  An upload without a session id, or with an id under which the
    caller owns no session, starts a new session instead of failing: when
    store and service work and the new id is free, the answer is 200 with
    the new id, the new session holds exactly this file's fingerprint and
    name and one assistant entry, and the temporary file is gone. *)
Theorem upload_creates_session env uid part tmpname sessionId w pyRes :
  match sessionId with
  | Some sid => upload_find env = None ∧ lookup_owned (db w) sid uid = None
  | None => True
  end →
  upload_ingest env
    (mkIngestRequest (part_data part) (part_filename part)
       (sha256_hex (part_data part))) = inr pyRes →
  upload_save env = None →
  db w !! upload_new_id env = None →
  let created :=
    mkSession (upload_new_id env) uid
      [sha256_hex (part_data part)] [part_filename part]
      [mkMessage "assistant"
         (upload_message (part_filename part) (summary pyRes))]
      [] default_currentTopicIndex default_learningLevel in
  post_upload env uid (Some part) tmpname sessionId w
  = (json (BUpload "File processed" (upload_new_id env) (cached pyRes)
             (summary pyRes)),
     mkWorld (<[upload_new_id env := created]> (db w))
             (delete ("uploads/" +:+ tmpname) (files w))).
Proof.
  intros Hfound Hsvc Hsave Hfree created.
  rewrite (post_upload_run env uid part tmpname sessionId w pyRes None);
    try done.
  by destruct sessionId as [sid|]; [destruct Hfound |].
Qed.

(** X14.  A successful upload to an existing session of a file whose
    fingerprint the session does not have appends the fingerprint and the
    name at the end of the two lists and one assistant entry to the
    transcript, changes nothing else of the session, and removes the
    temporary file. *)
Theorem upload_appends_document env uid part tmpname sid w session pyRes :
  lookup_owned (db w) sid uid = Some session →
  sha256_hex (part_data part) ∉ fileHashes session →
  upload_find env = None →
  upload_ingest env
    (mkIngestRequest (part_data part) (part_filename part)
       (sha256_hex (part_data part))) = inr pyRes →
  upload_save env = None →
  let after :=
    mkSession sid uid
      (fileHashes session ++ [sha256_hex (part_data part)])
      (filenames session ++ [part_filename part])
      (messages session ++
       [mkMessage "assistant"
          (upload_message (part_filename part) (summary pyRes))])
      (studyPlan session) (currentTopicIndex session)
      (learningLevel session) in
  post_upload env uid (Some part) tmpname (Some sid) w
  = (json (BUpload "File processed" sid (cached pyRes) (summary pyRes)),
     mkWorld (<[sid := after]> (db w))
             (delete ("uploads/" +:+ tmpname) (files w))).
Proof.
  intros Hfound Hnew Hfind Hsvc Hsave after.
  pose proof Hfound as (_ & Hsid & Huid)%lookup_owned_Some.
  rewrite (post_upload_run env uid part tmpname (Some sid) w pyRes
             (Some session)); try done.
  cbn [default from_option id]. rewrite Hsid.
  assert (add_file (sha256_hex (part_data part)) (part_filename part) session
          = with_filenames (filenames session ++ [part_filename part])
              (with_fileHashes
                 (fileHashes session ++ [sha256_hex (part_data part)])
                 session)) as ->.
  { unfold add_file, includes. by rewrite bool_decide_eq_false_2. }
  subst after. destruct session. simpl in *. by rewrite Hsid, Huid.
Qed.

(** ** X15: a failing service during generate-plan *)

(** X15.  When the call to the plan service fails, generate-plan answers
    500 and leaves the world, hence the session's plan, as it was; the
    message is the service's own [error] field when it sent a non-empty
    one, and ["Failed to generate plan"] otherwise. *)
Theorem plan_service_failure env uid sid w session e :
  lookup_owned (db w) sid uid = Some session →
  plan_find env = None →
  plan_service env
    (mkPlanRequest (fileHashes session) (learningLevel session)) = inl e →
  plan_handler env uid sid w
  = (status_json 500
       (BMessage
          (match exn_response e with
           | Some (mkErrorResponse _ (Some (String c text))) => String c text
           | _ => "Failed to generate plan"
           end)), w).
Proof.
  intros Hfound Hf Hsvc. unfold plan_handler. io_unfold.
  rewrite Hf. cbv beta iota zeta. rewrite Hfound, Hsvc.
  unfold plan_error_response, or_else.
  destruct (exn_response e) as [[st [[|c text]|]]|]; done.
Qed.

(** ** X16: the list of sessions *)

Lemma insert_desc_perm key s l : insert_desc key s l ≡ₚ s :: l.
Proof.
  induction l as [|x l IH]; [done |]. simpl.
  destruct (key x <? key s)%Z; [done |].
  rewrite IH. apply Permutation_swap.
Qed.

Lemma sort_desc_perm key l : sort_desc key l ≡ₚ l.
Proof.
  induction l as [|x l IH]; [done |]. unfold sort_desc in *. simpl.
  by rewrite insert_desc_perm, IH.
Qed.

Lemma insert_desc_sorted key s l :
  Sorted (λ a b, (key b ≤ key a)%Z) l →
  Sorted (λ a b, (key b ≤ key a)%Z) (insert_desc key s l).
Proof.
  induction 1 as [|x l Hsorted IH Hhd]; simpl.
  - repeat constructor.
  - destruct (Z.ltb_spec (key x) (key s)).
    + constructor; [by constructor |]. constructor. lia.
    + constructor; [done |].
      destruct Hhd as [|y l Hy]; simpl.
      * constructor. lia.
      * destruct (Z.ltb_spec (key y) (key s)); constructor; lia.
Qed.

Lemma sort_desc_sorted key l :
  Sorted (λ a b, (key b ≤ key a)%Z) (sort_desc key l).
Proof.
  induction l as [|x l IH]; [constructor |].
  unfold sort_desc in *. simpl. by apply insert_desc_sorted.
Qed.

Lemma join_empty sep l :
  sep ≠ "" → join sep l = "" ↔ l = [] ∨ l = [""].
Proof.
  intros Hsep. split.
  - destruct l as [|x [|y rest]]; cbn [join];
      [by left | intros ->; by right |].
    destruct x; [| done]. destruct sep; done.
  - by intros [-> | ->].
Qed.

(** X16.  While the store works, list-sessions changes nothing and
    returns one summary for each session of the caller and none for any
    other session, ordered by decreasing [updatedAt]; the display name is
    the names joined with a comma and a space, or ["Untitled Session"]
    when that text is empty, that is when the session has no name or the
    empty name only. *)
Theorem sessions_listing createdAt updatedAt uid w :
  ∃ l,
    sessions_handler None createdAt updatedAt uid w
    = ((200%nat, LSessions (summarize createdAt updatedAt <$> l)), w) ∧
    l ≡ₚ filter (λ s, userId s = uid) (documents w) ∧
    Sorted (λ a b, (updatedAt (_id b) ≤ updatedAt (_id a))%Z) l ∧
    ∀ s, summary_filename (summarize createdAt updatedAt s)
         = if decide (filenames s = [] ∨ filenames s = [""])
           then "Untitled Session"
           else join ", " (filenames s).
Proof.
  eexists. split; [| split; [| split]].
  - unfold sessions_handler, find_sorted, faulty, bind, ret.
    cbv beta iota zeta. reflexivity.
  - apply sort_desc_perm.
  - apply (sort_desc_sorted (λ s, updatedAt (_id s))).
  - intros s. unfold summarize, or_else. cbn [summary_filename].
    case_decide as Hempty.
    + apply (join_empty ", ") in Hempty; [by rewrite Hempty | done].
    + destruct (join ", " (filenames s)) eqn:Hjoin; [| done].
      destruct Hempty. by apply (join_empty ", ").
Qed.

(** ** X18: completing a fresh plan by chat *)

Lemma plan_after_beyond (k : nat) (items : list PlanItem) :
  (List.length items ≤ k)%nat → plan_after (S k) items = plan_after k items.
Proof.
  intros Hk. apply list_eq. intros j. rewrite !plan_after_lookup.
  destruct (items !! j) as [it|] eqn:Hj; [| done].
  apply lookup_lt_Some in Hj. simpl. unfold status_after.
  repeat case_decide; done || lia.
Qed.

Lemma plan_after_status (k j : nat) (items : list PlanItem) (t : Topic) :
  plan_after k items !! j = Some t → status t = status_after k j.
Proof.
  rewrite plan_after_lookup. destruct (items !! j); [| done].
  by intros [= <-].
Qed.

(** One signalled reply: from [plan_after k] to [plan_after (k + 1)]. *)
Lemma chat_next env uid sid m w s (k : nat) items :
  chat_find env = None → chat_save_user env = None → chat_save env = None →
  (∀ request, ∃ r, chat_service env request = inr (mkChatData r true)) →
  m ≠ "" →
  lookup_owned (db w) sid uid = Some s →
  studyPlan s = plan_after k items →
  ((k < List.length items)%nat → currentTopicIndex s = Z.of_nat k) →
  ∃ s', lookup_owned (db (chat_handler env uid (Some m) (Some sid) w).2)
          sid uid = Some s' ∧
        studyPlan s' = plan_after (S k) items ∧
        ((S k < List.length items)%nat →
         currentTopicIndex s' = Z.of_nat (S k)).
Proof.
  intros Hf Hs1 Hs2 Hsvc Hm Hfound Hplan Hcursor.
  set (asked := push_message "user" m s).
  destruct (Hsvc (mkChatRequest m (fileHashes asked) (messages asked)
                    (topic <$> current_topic asked) (learningLevel asked)))
    as [r Hr].
  set (told := push_message "assistant" r asked).
  pose proof (λ after, chat_handler_run env uid m sid w s (mkChatData r true)
                         after Hm Hfound Hf Hs1 Hs2 Hr) as Hrun.
  cbn [response topic_completed] in Hrun. fold asked told in Hrun.
  rewrite (current_topic_at_index asked) in Hrun.
  change (studyPlan asked) with (studyPlan told) in Hrun.
  change (currentTopicIndex asked) with (currentTopicIndex told) in Hrun.
  assert (studyPlan told = plan_after k items) as Hplan' by done.
  assert (∀ after,
            (∀ w', auto_complete true
                     (at_index (studyPlan told) (currentTopicIndex told))
                     told w' = (Returned after, w')) →
            lookup_owned (db (chat_handler env uid (Some m) (Some sid) w).2)
              sid uid = Some after) as Hstored.
  { intros after Hafter.
    destruct (auto_complete_identity _ _ _ _ _ _ (Hafter w)) as [Hid Hu].
    pose proof Hfound as (_ & Hsid & Huid)%lookup_owned_Some.
    rewrite (Hrun after Hafter) by (by rewrite Hid).
    simpl.
    apply (lookup_owned_replace _ _ _ s);
      [done | by rewrite Hid | by rewrite Hu]. }
  assert ((k < List.length items)%nat → currentTopicIndex told = Z.of_nat k)
    as Hcursor' by done.
  clear Hrun. clearbody told.
  destruct (decide (k < List.length items)%nat) as [Hk | Hk].
  - assert (currentTopicIndex told = Z.of_nat k) as Hc by auto.
    destruct (plan_after k items !! k) as [t|] eqn:Ht.
    2: { apply lookup_ge_None in Ht. rewrite plan_after_length in Ht. lia. }
    assert (status t ≠ "completed") as Hst.
    { rewrite (plan_after_status _ _ _ _ Ht). unfold status_after.
      repeat case_decide; done || lia. }
    assert (at_index (studyPlan told) (currentTopicIndex told) = Some t) as Hi
      by (by rewrite Hc, at_index_of_nat, Hplan').
    assert (at_index (studyPlan told) (currentTopicIndex told + 1)
            = plan_after k items !! S k) as Hnext.
    { rewrite Hc. replace (Z.of_nat k + 1)%Z with (Z.of_nat (S k)) by lia.
      by rewrite at_index_of_nat, Hplan'. }
    pose proof (plan_after_step k items t Ht) as Hstep.
    assert (Z.to_nat (Z.of_nat k + 1) = S k) as Hsucc by lia.
    rewrite Hi in Hstored.
    destruct (plan_after k items !! S k) as [n|] eqn:Hn.
    + destruct Hstep as [_ Hstep]. eexists. split.
      * apply Hstored. intros w'. by apply (auto_complete_advance told t n).
      * cbn [studyPlan currentTopicIndex push_message with_messages
             with_currentTopicIndex with_studyPlan].
        rewrite Hc, Nat2Z.id, Hsucc, Hplan'. split; [done |]. intros _. lia.
    + eexists. split.
      * apply Hstored. intros w'. by apply (auto_complete_finish told t).
      * cbn [studyPlan currentTopicIndex push_message with_messages
             with_currentTopicIndex with_studyPlan].
        rewrite Hc, Nat2Z.id, Hplan'. split; [done |].
        apply lookup_ge_None in Hn. rewrite plan_after_length in Hn. lia.
  - exists told. split; [| split].
    + apply Hstored. intros w'. apply auto_complete_idle.
      destruct (at_index (studyPlan told) (currentTopicIndex told))
        as [t|] eqn:Hi; [| auto].
      right. right. exists t. split; [done |].
      apply at_index_Some in Hi as [_ Hi]. rewrite Hplan' in Hi.
      rewrite (plan_after_status _ _ _ _ Hi).
      apply lookup_lt_Some in Hi. rewrite plan_after_length in Hi.
      unfold status_after. repeat case_decide; done || lia.
    + rewrite plan_after_beyond by lia. done.
    + lia.
Qed.

Lemma plan_after_completed_count (k : nat) (items : list PlanItem) :
  count_status "completed" (plan_after k items)
  = (k `min` List.length items)%nat.
Proof.
  revert k. induction items as [|it items IH]; intros k.
  - destruct k; simpl; lia.
  - destruct k as [|k]; cbn [count_status plan_after List.length].
    + assert (count_status "completed" (pending_topic <$> items) = 0%nat)
        as ->; [| done].
      clear IH. induction items as [|x items IH]; [done |].
      rewrite fmap_cons. cbn [count_status]. by rewrite IH.
    + rewrite IH. simpl. lia.
Qed.

(** X18.  On a plan of N topics as generate-plan has just stored it, k
    chat calls that the service answers with [topic_completed] true
    complete the first k topics: one topic is in progress while k < N, and
    none once k reaches N; further signalled replies change nothing in
    the plan. *)
Theorem signalled_replies_advance penv cenv uid sid w session items ms :
  lookup_owned (db w) sid uid = Some session →
  plan_find penv = None → plan_save penv = None →
  plan_service penv
    (mkPlanRequest (fileHashes session) (learningLevel session)) = inr items →
  chat_find cenv = None → chat_save_user cenv = None → chat_save cenv = None →
  (∀ request, ∃ r, chat_service cenv request = inr (mkChatData r true)) →
  Forall (λ m, m ≠ "") ms →
  ∃ s,
    stored (chat_in_order cenv uid sid ms (plan_handler penv uid sid w).2) sid
    = Some s ∧
    studyPlan s = plan_after (List.length ms) items ∧
    in_progress_count s
    = (if decide (List.length ms < List.length items)%nat
       then 1%nat else 0%nat) ∧
    count_status "completed" (studyPlan s)
    = (List.length ms `min` List.length items)%nat.
Proof.
  intros Hfound Hpf Hps Hsvc Hcf Hcs1 Hcs2 Hchat Hms.
  rewrite (plan_handler_run penv uid sid w session items) by done.
  cbv zeta. simpl.
  match goal with |- context [<[sid := ?a]> (db w)] => set (fresh := a) end.
  assert (∀ ms (k : nat) w0 s,
            Forall (λ m, m ≠ "") ms →
            lookup_owned (db w0) sid uid = Some s →
            studyPlan s = plan_after k items →
            ((k < List.length items)%nat → currentTopicIndex s = Z.of_nat k) →
            ∃ s', lookup_owned (db (chat_in_order cenv uid sid ms w0)) sid uid
                  = Some s' ∧
                  studyPlan s' = plan_after (k + List.length ms) items)
    as Hloop.
  { clear ms Hms. intros ms.
    induction ms as [|m ms IH]; intros k w0 s Hms Hs Hplan Hcur.
    - exists s. simpl. by rewrite Nat.add_0_r.
    - apply Forall_cons in Hms as [Hm Hms].
      destruct (chat_next cenv uid sid m w0 s k items)
        as (s1 & Hs1 & Hplan1 & Hcur1); try done.
      destruct (IH (S k) _ s1 Hms Hs1 Hplan1 Hcur1) as (s' & Hs' & Hplan').
      exists s'. split; [done |]. rewrite Hplan'. f_equal. simpl. lia. }
  destruct (Hloop ms 0%nat (with_db (<[sid := fresh]> (db w)) w) fresh Hms)
    as (s & Hs & Hplan).
  - apply (lookup_owned_insert (db w) fresh).
  - by rewrite plan_after_0.
  - subst fresh. simpl. intros Hlen.
    destruct (fresh_plan items) eqn:Hfresh; [| done].
    pose proof (fresh_plan_length items) as Hl. rewrite Hfresh in Hl.
    simpl in Hl. lia.
  - exists s. apply lookup_owned_Some in Hs as (Hs & _).
    simpl in Hplan. split; [done |]. split; [done |].
    unfold in_progress_count. rewrite Hplan.
    split; [apply plan_after_in_progress |].
    apply plan_after_completed_count.
Qed.

(** ** X19: the stored learning level *)

Lemma auto_complete_level signal current s w s' w' :
  auto_complete signal current s w = (Returned s', w') →
  learningLevel s' = learningLevel s.
Proof. unfold auto_complete. intros H. io_inv; done. Qed.

Lemma install_plan_level items s w s' w' :
  install_plan items s w = (Returned s', w') →
  learningLevel s' = learningLevel s.
Proof. unfold install_plan. intros H. io_inv; done. Qed.

Lemma update_topic_level i v s w s' w' :
  update_topic i v s w = (Returned s', w') →
  learningLevel s' = learningLevel s.
Proof. unfold update_topic. intros H. io_inv; done. Qed.

(** X19.  In every world reachable from the empty one, the learning level
    of every session is the schema's default or one of ['beginner'],
    ['intermediate'], ['advanced']: no request stores another value. *)
Theorem stored_level_is_valid w id s :
  reachable w → db w !! id = Some s →
  learningLevel s = default_learningLevel ∨
  learningLevel s ∈ ["beginner"; "intermediate"; "advanced"].
Proof.
  intros Hreach Hs.
  eapply (reachable_sessions
            (λ s, learningLevel s = default_learningLevel ∨
                  learningLevel s ∈ ["beginner"; "intermediate"; "advanced"]));
    try exact Hreach; try exact Hs.
  - by left.
  - intros s0 h n. unfold add_file. by destruct (negb _).
  - by intros s0 r c _.
  - intros s0 l Hl _. by right.
  - intros s0 signal s' w1 w2 H0 H.
    by rewrite (auto_complete_level _ _ _ _ _ _ H).
  - intros s0 items s' w1 w2 H0 H.
    by rewrite (install_plan_level _ _ _ _ _ H).
  - intros s0 i t status' s' w1 w2 H0 _ H.
    by rewrite (update_topic_level _ _ _ _ _ _ H).
Qed.

(** ** X20: what [parseInt] makes of the index parameter *)

Lemma parse_digits_decimal_then (d : Decimal.uint) (acc : nat)
    (rest : string) :
  match rest with
  | String c _ => digit_value 10 c = None
  | EmptyString => True
  end →
  parse_digits 10 (Some (Z.of_nat acc)) (NilEmpty.string_of_uint d +:+ rest)
  = Some (Z.of_nat (Nat.of_uint_acc d acc)).
Proof.
  intros Hrest. revert acc.
  induction d as [|d IH|d IH|d IH|d IH|d IH|d IH|d IH|d IH|d IH|d IH];
    intros acc.
  { cbn [NilEmpty.string_of_uint Nat.of_uint_acc].
    change ("" +:+ rest) with rest.
    destruct rest as [|c rest]; [done |]. cbn [parse_digits].
    by rewrite Hrest. }
  all: cbn [NilEmpty.string_of_uint Nat.of_uint_acc];
    match goal with
    | |- context [String ?c ?s +:+ ?r] =>
        change (String c s +:+ r) with (String c (s +:+ r))
    end;
    cbn [parse_digits];
    (match goal with
     | |- context [digit_value 10 ?c] =>
         let v := eval vm_compute in (digit_value 10 c) in
         change (digit_value 10 c) with v
     end);
    cbn [default]; rewrite <- IH, Nat.tail_mul_spec; unfold id;
    do 2 f_equal; lia.
Qed.

Lemma parseInt_decimal_then (d : Decimal.uint) (rest : string) :
  d ≠ Decimal.Nil →
  (d = Decimal.D0 Decimal.Nil →
   match rest with
   | String c _ => c ≠ "x"%char ∧ c ≠ "X"%char
   | EmptyString => True
   end) →
  parseInt (NilEmpty.string_of_uint d +:+ rest)
  = match parse_digits 10 (Some 0%Z) (NilEmpty.string_of_uint d +:+ rest) with
    | Some v => number_value false v
    | None => NaN
    end.
Proof.
  intros Hd Hx.
  destruct d as [|d|d|d|d|d|d|d|d|d|d]; [done | | ..].
  1: destruct d.
  1: { specialize (Hx eq_refl).
       change (NilEmpty.string_of_uint (Decimal.D0 Decimal.Nil) +:+ rest)
         with (String "0" rest).
       unfold parseInt.
       rewrite skip_white_space_stop by (vm_compute; reflexivity).
       cbv beta iota zeta.
       destruct rest as [|c rest]; [done |].
       destruct Hx as [Hx HX].
       destruct c as [[] [] [] [] [] [] [] []]; done. }
  all: cbn [NilEmpty.string_of_uint];
    repeat (match goal with
            | |- context [String ?c ?s +:+ ?r] =>
                change (String c s +:+ r) with (String c (s +:+ r))
            end);
    unfold parseInt;
    rewrite skip_white_space_stop by (vm_compute; reflexivity);
    cbv beta iota zeta; reflexivity.
Qed.

(** The numeral of [k] followed by text that [parseInt] does not read. *)
Lemma parseInt_index_param_then (k : nat) (rest : string) :
  match rest with
  | String c _ => digit_value 10 c = None
  | EmptyString => True
  end →
  (k = 0%nat →
   match rest with
   | String c _ => c ≠ "x"%char ∧ c ≠ "X"%char
   | EmptyString => True
   end) →
  parseInt (index_param k +:+ rest) = number_value false (Z.of_nat k).
Proof.
  intros Hdigit Hx. unfold index_param.
  pose proof (DecimalNat.Unsigned.of_to k) as Hk.
  unfold Nat.of_uint in Hk. revert Hk.
  generalize (Nat.to_uint k). intros d Hk.
  assert (d = Decimal.Nil ∨ d ≠ Decimal.Nil) as [-> | Hd]
    by (destruct d; auto).
  - simpl in Hk. subst k.
    change (NilZero.string_of_uint Decimal.Nil +:+ rest)
      with (NilEmpty.string_of_uint (Decimal.D0 Decimal.Nil) +:+ rest).
    rewrite parseInt_decimal_then; [| done | by intros _; apply Hx].
    pose proof (parse_digits_decimal_then (Decimal.D0 Decimal.Nil) 0 rest
                  Hdigit) as Hread.
    change (Z.of_nat 0) with 0%Z in Hread at 1. by rewrite Hread.
  - assert (NilZero.string_of_uint d = NilEmpty.string_of_uint d) as ->
      by (by destruct d).
    rewrite parseInt_decimal_then; [| done |].
    + pose proof (parse_digits_decimal_then d 0 rest Hdigit) as Hread.
      change (Z.of_nat 0) with 0%Z in Hread at 1.
      by rewrite Hread, Hk.
    + intros ->. apply Hx. by rewrite <- Hk.
Qed.

(** X20.  [parseInt] reads the decimal numeral at the start of the index
    parameter and ignores what follows it: the numeral of [k] followed by
    any text that does not start with a digit (nor, after a single 0, with
    x or X) is read as the numeral of [k] alone, which below [2^53] is [k]
    itself, and set-topic-status does with the longer parameter exactly
    what it does with the numeral alone. *)
Theorem index_param_suffix_ignored env uid sid (k : nat) rest status' w :
  match rest with
  | String c _ => digit_value 10 c = None
  | EmptyString => True
  end →
  (k = 0%nat →
   match rest with
   | String c _ => c ≠ "x"%char ∧ c ≠ "X"%char
   | EmptyString => True
   end) →
  parseInt (index_param k +:+ rest) = parseInt (index_param k) ∧
  ((Z.of_nat k < 2 ^ 53)%Z →
   parseInt (index_param k +:+ rest) = Num (Z.of_nat k)) ∧
  topic_handler env uid sid (index_param k +:+ rest) status' w
  = topic_handler env uid sid (index_param k) status' w.
Proof.
  intros Hdigit Hx.
  assert (parseInt (index_param k +:+ rest) = parseInt (index_param k))
    as Hparse
    by (by rewrite parseInt_index_param_then, parseInt_index_param_value).
  split; [done |]. split.
  - intros Hk. rewrite Hparse. by apply parseInt_index_param.
  - unfold topic_handler. by rewrite Hparse.
Qed.

End Routes.

(** * The theorems at concrete requests *)

Lemma invalid_topic_index_witness :
  let session :=
    mkSession 7 1 ["h"] ["a.pdf"] [] [mkTopic "A" "a" "in-progress"] 0
              "beginner" in
  let w := mkWorld {[7%N := session]} ∅ in
  let env := mkTopicEnv None None in
  topic_handler env 1 7 "1" "completed" w
  = (status_json 400 (BMessage "Invalid topic index"), w) ∧
  topic_handler env 1 7 "-1" "completed" w
  = (status_json 400 (BMessage "Invalid topic index"), w) ∧
  topic_handler env 1 7 "abc" "completed" w
  = (status_json 400 (BMessage "Invalid topic index"), w).
Proof.
  intros session w env.
  split; [| split];
    apply (invalid_topic_index env 1 7 _ "completed" w session);
    vm_compute; reflexivity.
Defined.

Lemma chat_automatic_step_witness :
  let session :=
    mkSession 7 1 ["h"] ["a.pdf"] []
      [mkTopic "A" "a" "in-progress"; mkTopic "B" "b" "pending"] 0
      "beginner" in
  let single :=
    mkSession 8 1 ["h"] ["a.pdf"] [] [mkTopic "A" "a" "in-progress"] 0
      "beginner" in
  let w := mkWorld {[7%N := session]} ∅ in
  let w8 := mkWorld {[8%N := single]} ∅ in
  let env :=
    mkChatEnv None None (λ _, inr (mkChatData "Well done." true)) None in
  (∃ text,
     stored (chat_handler env 1 (Some "Is that right?") (Some 7%N) w).2 7
     = Some (mkSession 7 1 ["h"] ["a.pdf"]
               [mkMessage "user" "Is that right?";
                mkMessage "assistant" "Well done.";
                mkMessage "assistant" text]
               [mkTopic "A" "a" "completed"; mkTopic "B" "b" "in-progress"] 1
               "beginner") ∧
     names text "A" ∧ names text "B") ∧
  stored (chat_handler env 1 (Some "Is that right?") (Some 8%N) w8).2 8
  = Some (mkSession 8 1 ["h"] ["a.pdf"]
            [mkMessage "user" "Is that right?";
             mkMessage "assistant" "Well done.";
             mkMessage "assistant"
               ("ðŸ† **Congratulations!**" +:+ nl +:+ nl +:+
                "You have completed the entire study plan for this"
                +:+ " document!")]
            [mkTopic "A" "a" "completed"] 0 "beginner").
Proof.
  intros session single w w8 env. split.
  - destruct (chat_automatic_step env 1 "Is that right?" 7 w session
                (mkChatData "Well done." true))
      as (plan' & i' & entries & Hrun & Hcase);
      [discriminate | vm_compute; reflexivity | reflexivity | reflexivity
      | reflexivity | reflexivity | reflexivity |].
    cbn in Hcase.
    destruct Hcase as (_ & -> & _ & -> & text & -> & Ha & Hb).
    exists text. split; [| split; [exact Ha | exact Hb]].
    rewrite Hrun. unfold stored. cbn. apply lookup_insert_eq.
  - destruct (chat_automatic_step env 1 "Is that right?" 8 w8 single
                (mkChatData "Well done." true))
      as (plan' & i' & entries & Hrun & Hcase);
      [discriminate | vm_compute; reflexivity | reflexivity | reflexivity
      | reflexivity | reflexivity | reflexivity |].
    cbn in Hcase. destruct Hcase as (_ & -> & -> & ->).
    rewrite Hrun. unfold stored. cbn. apply lookup_insert_eq.
Defined.

Lemma manual_completed_transition_witness :
  let session :=
    mkSession 7 1 ["h"] ["a.pdf"] []
      [mkTopic "A" "a" "in-progress"; mkTopic "B" "b" "pending";
       mkTopic "C" "c" "pending"] 0 "beginner" in
  let ending :=
    mkSession 8 1 ["h"] ["a.pdf"] []
      [mkTopic "A" "a" "completed"; mkTopic "B" "b" "in-progress"] 1
      "beginner" in
  let w := mkWorld {[7%N := session]} ∅ in
  let w8 := mkWorld {[8%N := ending]} ∅ in
  (∃ text,
     stored (topic_handler (mkTopicEnv None None) 1 7 "0" "completed" w).2 7
     = Some (mkSession 7 1 ["h"] ["a.pdf"] [mkMessage "assistant" text]
               [mkTopic "A" "a" "completed"; mkTopic "B" "b" "in-progress";
                mkTopic "C" "c" "pending"] 1 "beginner") ∧
     names text "A" ∧ names text "B") ∧
  stored (topic_handler (mkTopicEnv None None) 1 8 "1" "completed" w8).2 8
  = Some (mkSession 8 1 ["h"] ["a.pdf"]
            [mkMessage "assistant"
               "Congratulations! You've completed the entire study plan! ðŸŽ“"]
            [mkTopic "A" "a" "completed"; mkTopic "B" "b" "completed"] 1
            "beginner").
Proof.
  intros session ending w w8. split.
  - destruct (manual_completed_transition (mkTopicEnv None None) 1 7 "0" w
                session 0 (mkTopic "A" "a" "in-progress"))
      as (plan' & i' & entries & Hrun & _ & Hcase);
      [vm_compute; reflexivity | reflexivity | reflexivity
      | vm_compute; reflexivity | reflexivity |].
    cbn in Hcase. destruct Hcase as (-> & _ & -> & text & -> & Ha & Hb).
    exists text. split; [| split; [exact Ha | exact Hb]].
    rewrite Hrun. unfold stored. cbn. apply lookup_insert_eq.
  - destruct (manual_completed_transition (mkTopicEnv None None) 1 8 "1" w8
                ending 1 (mkTopic "B" "b" "in-progress"))
      as (plan' & i' & entries & Hrun & _ & Hcase);
      [vm_compute; reflexivity | reflexivity | reflexivity
      | vm_compute; reflexivity | reflexivity |].
    cbn in Hcase. destruct Hcase as (-> & -> & ->).
    rewrite Hrun. unfold stored. cbn. apply lookup_insert_eq.
Defined.

Lemma complete_left_to_right_witness :
  let session := mkSession 7 1 ["h"] ["a.pdf"] [] [] (-1) "beginner" in
  let w := mkWorld {[7%N := session]} ∅ in
  let items :=
    [mkPlanItem "A" "a" None; mkPlanItem "B" "b" None;
     mkPlanItem "C" "c" None] in
  let penv := mkPlanEnv None (λ _, inr items) None in
  let tenv := mkTopicEnv None None in
  let generated := (plan_handler penv 1 7 w).2 in
  (∃ s, stored (complete_in_order tenv 1 7 ["0"; "1"] generated) 7 = Some s ∧
        in_progress_count s = 1%nat) ∧
  (∃ s, stored (complete_in_order tenv 1 7 ["0"; "1"; "2"] generated) 7
        = Some s ∧
        in_progress_count s = 0%nat ∧
        count_status "completed" (studyPlan s) = 3%nat).
Proof.
  intros session w items penv tenv generated.
  split.
  - destruct (complete_left_to_right penv tenv 1 7 w session items 2)
      as (s & Hs & Hcount & _);
      [vm_compute; reflexivity | reflexivity | reflexivity | reflexivity
      | reflexivity | reflexivity | simpl; lia | lia |].
    exists s. split; [exact Hs | exact Hcount].
  - destruct (complete_left_to_right penv tenv 1 7 w session items 3)
      as (s & Hs & Hcount & Hall);
      [vm_compute; reflexivity | reflexivity | reflexivity | reflexivity
      | reflexivity | reflexivity | simpl; lia | lia |].
    exists s. split; [exact Hs |]. split; [exact Hcount |].
    apply Hall. reflexivity.
Defined.

Lemma generate_plan_replaces_witness :
  let session :=
    mkSession 7 1 ["h"] ["a.pdf"] [] [mkTopic "X" "x" "completed"] 0
      "beginner" in
  let w := mkWorld {[7%N := session]} ∅ in
  let first :=
    mkPlanEnv None
      (λ _, inr [mkPlanItem "A" "a" None; mkPlanItem "B" "b" (Some "completed")])
      None in
  let second := mkPlanEnv None (λ _, inr [mkPlanItem "C" "c" None]) None in
  (stored (plan_handler first 1 7 w).2 7
   = Some (mkSession 7 1 ["h"] ["a.pdf"]
             [mkMessage "assistant"
                ("**Study Plan Generated!** ðŸ“š" +:+ nl +:+ nl +:+
                 "I've created a study plan based on your documents. "
                 +:+ "We'll start with: **A**." +:+ nl +:+ nl +:+ "a")]
             [mkTopic "A" "a" "in-progress"; mkTopic "B" "b" "pending"] 0
             "beginner")) ∧
  (studyPlan <$> stored (plan_handler second 1 7 (plan_handler first 1 7 w).2).2 7
   = Some [mkTopic "C" "c" "in-progress"]).
Proof.
  intros session w first second.
  destruct (generate_plan_replaces first 1 7 w session
              [mkPlanItem "A" "a" None; mkPlanItem "B" "b" (Some "completed")])
    as (plan' & i' & entries & Hrun & Hlen & Hlookup & [-> ->] & Hagain);
    [vm_compute; reflexivity | reflexivity | reflexivity | reflexivity |].
  split.
  - rewrite Hrun. unfold stored. cbn. rewrite lookup_insert_eq.
    do 2 f_equal. apply list_eq. intros j. rewrite Hlookup.
    by destruct j as [|[|j]].
  - apply (Hagain second [mkPlanItem "C" "c" None]); reflexivity.
Defined.

Lemma chat_service_failure_witness :
  let session :=
    mkSession 7 1 ["h"] ["a.pdf"] [] [mkTopic "A" "a" "in-progress"] 0
      "beginner" in
  let w := mkWorld {[7%N := session]} ∅ in
  let refused := plain_error "connect ECONNREFUSED 127.0.0.1:2002" in
  let env := mkChatEnv None None (λ _, inl refused) (Some refused) in
  (chat_handler env 1 (Some "Hello") (Some 7%N) w).1
  = status_json 500 (BMessage "connect ECONNREFUSED 127.0.0.1:2002") ∧
  stored (chat_handler env 1 (Some "Hello") (Some 7%N) w).2 7
  = Some (mkSession 7 1 ["h"] ["a.pdf"] [mkMessage "user" "Hello"]
            [mkTopic "A" "a" "in-progress"] 0 "beginner").
Proof.
  intros session w refused env.
  rewrite (chat_service_failure env 1 "Hello" 7 w session refused);
    [| discriminate | vm_compute; reflexivity | reflexivity | reflexivity
     | reflexivity].
  split; [reflexivity |]. unfold stored. cbn. apply lookup_insert_eq.
Defined.

Lemma level_of_missing_session_witness :
  let w := mkWorld ∅ ∅ in
  level_handler None 1 7 "advanced" w = (json (BSession None), w) ∧
  res_status (level_handler None 1 7 "expert" w).1 ≠ 200%nat.
Proof.
  intros w. split.
  - apply (level_of_missing_session None 1 7 "advanced" w);
      [reflexivity | vm_compute; reflexivity | vm_compute; reflexivity].
  - apply (level_of_missing_session None 1 7 "expert" w); [reflexivity |].
    intros Hin. repeat (apply elem_of_cons in Hin as [Hin | Hin];
                        [discriminate Hin |]).
    by apply elem_of_nil in Hin.
Defined.

Lemma documents_deduplicated_witness :
  let digest := λ data : string, "sha256:" +:+ data in
  let env :=
    mkUploadEnv None (λ _, inr (mkIngestData false (Some "A summary."))) 7
      None in
  let upload name w :=
    (post_upload digest (-1) "beginner" env 1
       (Some (mkFilePart name "%PDF-1.4")) "3f9a" (Some 7%N) w).2 in
  (∃ s, stored (upload "notes.pdf" empty_world) 7 = Some s ∧
        fileHashes s = ["sha256:%PDF-1.4"] ∧ filenames s = ["notes.pdf"]) ∧
  (∃ s, stored (upload "copy.pdf" (upload "notes.pdf" empty_world)) 7 = Some s ∧
        fileHashes s = ["sha256:%PDF-1.4"] ∧ filenames s = ["notes.pdf"] ∧
        NoDup (fileHashes s) ∧
        List.length (filenames s) = List.length (fileHashes s)).
Proof.
  intros digest env upload.
  destruct (documents_deduplicated digest (-1) "beginner") as [Hsame Hok].
  assert (∃ s, stored (upload "notes.pdf" empty_world) 7 = Some s ∧
               lookup_owned (db (upload "notes.pdf" empty_world)) 7 1 = Some s ∧
               fileHashes s = ["sha256:%PDF-1.4"] ∧
               filenames s = ["notes.pdf"]) as (s1 & Hs1 & Hfound1 & Hh1 & Hn1).
  { vm_compute. eexists. repeat split; reflexivity. }
  split; [by exists s1 |].
  destruct (Hsame env 1%N (mkFilePart "copy.pdf" "%PDF-1.4") "3f9a" 7%N
              (upload "notes.pdf" empty_world) s1 Hfound1)
    as (s2 & Hs2 & Hh2 & Hn2).
  { rewrite Hh1. vm_compute. apply list_elem_of_here. }
  exists s2. split; [exact Hs2 |].
  split; [by rewrite Hh2 |]. split; [by rewrite Hn2 |].
  apply (Hok (upload "copy.pdf" (upload "notes.pdf" empty_world)) 7%N s2);
    [| exact Hs2].
  eapply rtc_l; [apply step_upload |].
  eapply rtc_l; [apply step_upload |].
  apply rtc_refl.
Defined.

Lemma at_most_one_in_progress_witness :
  let digest := λ data : string, "sha256:" +:+ data in
  let uenv :=
    mkUploadEnv None (λ _, inr (mkIngestData false (Some "A summary."))) 7
      None in
  let penv :=
    mkPlanEnv None
      (λ _, inr [mkPlanItem "A" "a" None; mkPlanItem "B" "b" None]) None in
  let uploaded :=
    (post_upload digest (-1) "beginner" uenv 1
       (Some (mkFilePart "notes.pdf" "%PDF-1.4")) "3f9a" None empty_world).2 in
  let planned := (plan_handler penv 1 7 uploaded).2 in
  let advanced :=
    (topic_handler (mkTopicEnv None None) 1 7 "0" "completed" planned).2 in
  ∃ s, stored advanced 7 = Some s ∧
       studyPlan s
       = [mkTopic "A" "a" "completed"; mkTopic "B" "b" "in-progress"] ∧
       (in_progress_count s ≤ 1)%nat.
Proof.
  intros digest uenv penv uploaded planned advanced.
  assert (∃ s, stored advanced 7 = Some s ∧
               studyPlan s
               = [mkTopic "A" "a" "completed"; mkTopic "B" "b" "in-progress"])
    as (s & Hs & Hplan).
  { vm_compute. eexists. split; reflexivity. }
  exists s. split; [exact Hs |]. split; [exact Hplan |].
  apply (at_most_one_in_progress digest (-1) "beginner" advanced 7 s);
    [| exact Hs].
  eapply rtc_l; [apply step_upload |].
  eapply rtc_l; [apply step_plan |].
  eapply rtc_l; [| apply rtc_refl].
  apply step_topic. right.
  assert (∃ s0, lookup_owned (db planned) 7 1 = Some s0 ∧
                currentTopicIndex s0 = 0%Z) as (s0 & Hs0 & Hcursor).
  { vm_compute. eexists. split; reflexivity. }
  exists s0. split; [exact Hs0 |]. rewrite Hcursor. reflexivity.
Defined.

(** C4, as the spec states it, fails: after plan generation, one call of
    the topic-status route with the status ['in-progress'] at index 1
    leaves two topics in progress. *)
Lemma two_topics_in_progress :
  ¬ (∀ w id s,
       reachable (λ data : string, "sha256:" +:+ data) (-1) "beginner" w →
       stored w id = Some s →
       (in_progress_count s ≤ 1)%nat).
Proof.
  intros Hclaim.
  set (digest := λ data : string, "sha256:" +:+ data).
  set (uenv := mkUploadEnv None
                 (λ _, inr (mkIngestData false (Some "A summary."))) 7 None).
  set (penv := mkPlanEnv None
                 (λ _, inr [mkPlanItem "A" "a" None; mkPlanItem "B" "b" None])
                 None).
  set (uploaded :=
         (post_upload digest (-1) "beginner" uenv 1
            (Some (mkFilePart "notes.pdf" "%PDF-1.4")) "3f9a" None
            empty_world).2).
  set (planned := (plan_handler penv 1 7 uploaded).2).
  set (both :=
         (topic_handler (mkTopicEnv None None) 1 7 "1" "in-progress"
            planned).2).
  assert (∃ s, stored both 7 = Some s ∧ in_progress_count s = 2%nat)
    as (s & Hs & Hcount).
  { vm_compute. eexists. split; reflexivity. }
  assert (reachable digest (-1) "beginner" both) as Hreach.
  { eapply rtc_l; [apply step_upload |].
    eapply rtc_l; [apply step_plan |].
    eapply rtc_l; [| apply rtc_refl].
    by apply step_topic. }
  specialize (Hclaim both 7%N s Hreach Hs). lia.
Qed.

(** C7.  An upload during which the ingest call fails: the handler answers
    500 and the temporary file that multer wrote for the request is still
    on disk. *)
Theorem upload_failure_keeps_temp_file :
  let refused := plain_error "connect ECONNREFUSED 127.0.0.1:2002" in
  let env := mkUploadEnv None (λ _, inl refused) 7 None in
  let after :=
    post_upload (λ data : string, "sha256:" +:+ data) (-1) "beginner" env 1
      (Some (mkFilePart "notes.pdf" "%PDF-1.4")) "3f9a" None empty_world in
  files empty_world !! "uploads/3f9a" = None ∧
  after.1 = status_json 500
              (BFailure "Upload failed" "connect ECONNREFUSED 127.0.0.1:2002") ∧
  files after.2 !! "uploads/3f9a" = Some "%PDF-1.4".
Proof.
  intros refused env after. split; [reflexivity |].
  apply (upload_failure_leaves_file (λ data : string, "sha256:" +:+ data)
           (-1) "beginner" env 1 (mkFilePart "notes.pdf" "%PDF-1.4") "3f9a"
           None empty_world refused).
  reflexivity.
Qed.


(** * The further properties at concrete requests *)

Lemma foreign_sessions_untouched_witness :
  let mine := mkSession 7 1 ["h"] ["a.pdf"] [] [] (-1) "beginner" in
  let theirs := mkSession 8 2 ["g"] ["b.pdf"] [] [] (-1) "beginner" in
  let w := mkWorld (<[8%N := theirs]> {[7%N := mine]}) ∅ in
  db (delete_handler None 1 8 w).2 !! 8%N = Some theirs ∧
  db (level_handler None 1 8 "advanced" w).2 !! 8%N = Some theirs.
Proof.
  intros mine theirs w.
  split.
  - apply (foreign_sessions_untouched (λ data, "sha256:" +:+ data) (-1)
             "beginner" 1 w (delete_handler None 1 8 w).2 8 theirs);
      [apply by_delete | discriminate | vm_compute; reflexivity].
  - apply (foreign_sessions_untouched (λ data, "sha256:" +:+ data) (-1)
             "beginner" 1 w (level_handler None 1 8 "advanced" w).2 8 theirs);
      [apply by_level | discriminate | vm_compute; reflexivity].
Defined.

Lemma transcript_append_only_witness :
  let session :=
    mkSession 7 1 ["h"] ["a.pdf"] [mkMessage "assistant" "Welcome."]
      [mkTopic "A" "a" "in-progress"] 0 "beginner" in
  let w := mkWorld {[7%N := session]} ∅ in
  let env :=
    mkChatEnv None None (λ _, inr (mkChatData "Well done." true)) None in
  ∃ s' entries,
    db (chat_handler env 1 (Some "Done?") (Some 7%N) w).2 !! 7%N = Some s' ∧
    messages s' = mkMessage "assistant" "Welcome." :: entries ∧
    List.length entries = 3%nat ∧
    Forall (λ m, role m = "user" ∨ role m = "assistant") entries.
Proof.
  intros session w env.
  assert (∃ s', db (chat_handler env 1 (Some "Done?") (Some 7%N) w).2 !! 7%N
                = Some s' ∧ List.length (messages s') = 4%nat)
    as (s' & Hs' & Hlen).
  { vm_compute. eexists. split; reflexivity. }
  destruct (transcript_append_only (λ data, "sha256:" +:+ data) (-1)
              "beginner" 1 w
              (chat_handler env 1 (Some "Done?") (Some 7%N) w).2 7 session s')
    as (entries & Hm & Hroles);
    [apply by_chat | vm_compute; reflexivity | exact Hs' |].
  exists s', entries. split; [exact Hs' |]. split; [exact Hm |].
  split; [| exact Hroles].
  rewrite Hm in Hlen. simpl in Hlen. lia.
Defined.

Lemma identity_and_documents_kept_witness :
  let digest := λ data : string, "sha256:" +:+ data in
  let session := mkSession 7 1 ["h"] ["a.pdf"] [] [] (-1) "beginner" in
  let w := mkWorld {[7%N := session]} ∅ in
  let env :=
    mkUploadEnv None (λ _, inr (mkIngestData false None)) 9 None in
  let w' :=
    (post_upload digest (-1) "beginner" env 1
       (Some (mkFilePart "b.pdf" "%PDF-1.4")) "3f9a" (Some 7%N) w).2 in
  ∃ s', db w' !! 7%N = Some s' ∧
        _id s' = 7%N ∧ userId s' = 1%N ∧
        ["h"] `prefix_of` fileHashes s' ∧ ["a.pdf"] `prefix_of` filenames s'.
Proof.
  intros digest session w env w'.
  assert (∃ s', db w' !! 7%N = Some s') as (s' & Hs').
  { vm_compute. eexists. reflexivity. }
  exists s'. split; [exact Hs' |].
  apply (identity_and_documents_kept digest (-1) "beginner" 1 w w' 7
           session s');
    [apply by_upload | vm_compute; reflexivity | exact Hs'].
Defined.

Lemma cursor_addresses_topic_witness :
  let digest := λ data : string, "sha256:" +:+ data in
  let uenv :=
    mkUploadEnv None (λ _, inr (mkIngestData false (Some "A summary."))) 7
      None in
  let penv :=
    mkPlanEnv None
      (λ _, inr [mkPlanItem "A" "a" None; mkPlanItem "B" "b" None]) None in
  let cenv :=
    mkChatEnv None None (λ _, inr (mkChatData "Well done." true)) None in
  let uploaded :=
    (post_upload digest (-1) "beginner" uenv 1
       (Some (mkFilePart "notes.pdf" "%PDF-1.4")) "3f9a" None empty_world).2 in
  let planned := (plan_handler penv 1 7 uploaded).2 in
  let advanced := (chat_handler cenv 1 (Some "Done?") (Some 7%N) planned).2 in
  ∃ s t, db advanced !! 7%N = Some s ∧
         currentTopicIndex s = 1%Z ∧
         at_index (studyPlan s) (currentTopicIndex s) = Some t.
Proof.
  intros digest uenv penv cenv uploaded planned advanced.
  assert (∃ s, db advanced !! 7%N = Some s ∧ currentTopicIndex s = 1%Z ∧
               studyPlan s ≠ []) as (s & Hs & Hc & Hplan).
  { vm_compute. eexists. repeat split. discriminate. }
  destruct (cursor_addresses_topic digest (-1) "beginner" advanced 7 s)
    as [t Ht]; [| exact Hs | exact Hplan |].
  - eapply rtc_l; [apply step_upload |].
    eapply rtc_l; [apply step_plan |].
    eapply rtc_l; [apply step_chat | apply rtc_refl].
  - by exists s, t.
Defined.

Lemma transcript_roles_witness :
  let digest := λ data : string, "sha256:" +:+ data in
  let uenv :=
    mkUploadEnv None (λ _, inr (mkIngestData false (Some "A summary."))) 7
      None in
  let cenv :=
    mkChatEnv None None (λ _, inr (mkChatData "Hello." false)) None in
  let uploaded :=
    (post_upload digest (-1) "beginner" uenv 1
       (Some (mkFilePart "notes.pdf" "%PDF-1.4")) "3f9a" None empty_world).2 in
  let chatted := (chat_handler cenv 1 (Some "Hi") (Some 7%N) uploaded).2 in
  ∃ s, db chatted !! 7%N = Some s ∧
       List.length (messages s) = 3%nat ∧
       ∀ m, m ∈ messages s → role m = "user" ∨ role m = "assistant".
Proof.
  intros digest uenv cenv uploaded chatted.
  assert (∃ s, db chatted !! 7%N = Some s ∧
               List.length (messages s) = 3%nat) as (s & Hs & Hlen).
  { vm_compute. eexists. split; reflexivity. }
  exists s. split; [exact Hs |]. split; [exact Hlen |].
  intros m Hm.
  apply (transcript_roles digest (-1) "beginner" chatted 7 s m);
    [| exact Hs | exact Hm].
  eapply rtc_l; [apply step_upload |].
  eapply rtc_l; [apply step_chat | apply rtc_refl].
Defined.

Lemma topics_only_change_status_witness :
  let session :=
    mkSession 7 1 ["h"] ["a.pdf"] []
      [mkTopic "A" "a" "in-progress"; mkTopic "B" "b" "pending"] 0
      "beginner" in
  let w := mkWorld {[7%N := session]} ∅ in
  let cenv :=
    mkChatEnv None None (λ _, inr (mkChatData "Well done." true)) None in
  ∃ s1 s2,
    db (chat_handler cenv 1 (Some "Done?") (Some 7%N) w).2 !! 7%N = Some s1 ∧
    topic_names (studyPlan s1) = [("A", "a"); ("B", "b")] ∧
    db (topic_handler (mkTopicEnv None None) 1 7 "1" "skipped" w).2 !! 7%N
    = Some s2 ∧
    topic_names (studyPlan s2) = [("A", "a"); ("B", "b")].
Proof.
  intros session w cenv.
  assert (∃ s1, db (chat_handler cenv 1 (Some "Done?") (Some 7%N) w).2 !! 7%N
                = Some s1) as (s1 & Hs1)
    by (vm_compute; eexists; reflexivity).
  assert (∃ s2,
            db (topic_handler (mkTopicEnv None None) 1 7 "1" "skipped" w).2
            !! 7%N = Some s2) as (s2 & Hs2)
    by (vm_compute; eexists; reflexivity).
  exists s1, s2.
  assert (db w !! 7%N = Some session) as Hs by (vm_compute; reflexivity).
  split; [exact Hs1 |]. split.
  - apply (proj1 (topics_only_change_status (-1) "beginner" 1 7 session s1 w Hs)
             cenv (Some "Done?") (Some 7%N) Hs1).
  - split; [exact Hs2 |].
    apply (proj2 (topics_only_change_status (-1) "beginner" 1 7 session s2 w Hs)
             (mkTopicEnv None None) 7%N "1" "skipped" Hs2).
Defined.

Lemma working_environment_succeeds_witness :
  let session :=
    mkSession 7 1 ["h"] ["a.pdf"] []
      [mkTopic "A" "a" "completed"; mkTopic "B" "b" "in-progress"] 5
      "beginner" in
  let w := mkWorld {[7%N := session]} ∅ in
  let cenv :=
    mkChatEnv None None (λ _, inr (mkChatData "Well done." true)) None in
  let penv := mkPlanEnv None (λ _, inr []) None in
  (chat_handler cenv 1 (Some "Done?") (Some 7%N) w).1
  = json (BChat "Well done." true) ∧
  res_status (plan_handler penv 1 7 w).1 = 200%nat ∧
  res_status (topic_handler (mkTopicEnv None None) 1 7 "1" "completed" w).1
  = 200%nat.
Proof.
  intros session w cenv penv.
  destruct (working_environment_succeeds 1 7 w session)
    as (Hchat & Hplan & Htopic); [vm_compute; reflexivity |].
  split; [| split].
  - apply (Hchat cenv "Done?" (mkChatData "Well done." true));
      [discriminate | reflexivity | reflexivity | reflexivity | reflexivity].
  - apply (Hplan penv []); reflexivity.
  - apply (Htopic (mkTopicEnv None None) "1" "completed" 1%Z
             (mkTopic "B" "b" "in-progress")); reflexivity.
Defined.

Lemma manual_other_status_witness :
  let session :=
    mkSession 7 1 ["h"] ["a.pdf"] []
      [mkTopic "A" "a" "in-progress"; mkTopic "B" "b" "pending"] 0
      "beginner" in
  let w := mkWorld {[7%N := session]} ∅ in
  stored (topic_handler (mkTopicEnv None None) 1 7 "1" "in-progress" w).2 7
  = Some (mkSession 7 1 ["h"] ["a.pdf"] []
            [mkTopic "A" "a" "in-progress"; mkTopic "B" "b" "in-progress"] 1
            "beginner") ∧
  stored (topic_handler (mkTopicEnv None None) 1 7 "0" "pending" w).2 7
  = Some (mkSession 7 1 ["h"] ["a.pdf"] []
            [mkTopic "A" "a" "pending"; mkTopic "B" "b" "pending"] 0
            "beginner").
Proof.
  intros session w. split.
  - rewrite (manual_other_status (mkTopicEnv None None) 1 7 "1" "in-progress"
               w session 1 (mkTopic "B" "b" "pending"));
      [| vm_compute; reflexivity | reflexivity | reflexivity | reflexivity
       | reflexivity | discriminate].
    unfold stored. cbn. apply lookup_insert_eq.
  - rewrite (manual_other_status (mkTopicEnv None None) 1 7 "0" "pending"
               w session 0 (mkTopic "A" "a" "in-progress"));
      [| vm_compute; reflexivity | reflexivity | reflexivity | reflexivity
       | reflexivity | discriminate].
    unfold stored. cbn. apply lookup_insert_eq.
Defined.

Lemma chat_without_signal_witness :
  let session :=
    mkSession 7 1 ["h"] ["a.pdf"] [] [mkTopic "A" "a" "in-progress"] 0
      "beginner" in
  let w := mkWorld {[7%N := session]} ∅ in
  let env :=
    mkChatEnv None None (λ _, inr (mkChatData "Not yet." false)) None in
  stored (chat_handler env 1 (Some "Done?") (Some 7%N) w).2 7
  = Some (mkSession 7 1 ["h"] ["a.pdf"]
            [mkMessage "user" "Done?"; mkMessage "assistant" "Not yet."]
            [mkTopic "A" "a" "in-progress"] 0 "beginner").
Proof.
  intros session w env.
  rewrite (chat_without_signal env 1 "Done?" 7 w session
             (mkChatData "Not yet." false));
    [| discriminate | vm_compute; reflexivity | reflexivity | reflexivity
     | reflexivity | reflexivity | reflexivity].
  unfold stored. cbn. apply lookup_insert_eq.
Defined.

Lemma level_update_witness :
  let session :=
    mkSession 7 1 ["h"] ["a.pdf"] [] [] (-1) "beginner" in
  let w := mkWorld {[7%N := session]} ∅ in
  let leveled := (level_handler None 1 7 "advanced" w).2 in
  let penv :=
    mkPlanEnv None
      (λ request,
         if String.eqb (plan_learning_level request) "advanced"
         then inr [mkPlanItem "Proofs" "p" None]
         else inl (plain_error "wrong level")) None in
  stored leveled 7
  = Some (mkSession 7 1 ["h"] ["a.pdf"] [] [] (-1) "advanced") ∧
  studyPlan <$> stored (plan_handler penv 1 7 leveled).2 7
  = Some [mkTopic "Proofs" "p" "in-progress"].
Proof.
  intros session w leveled penv.
  destruct (level_update 1 7 "advanced" w session) as [Hrun Hnext];
    [vm_compute; reflexivity
    | apply list_elem_of_further, list_elem_of_further, list_elem_of_here |].
  subst leveled. rewrite Hrun. cbn [snd]. split.
  - unfold stored. cbn. apply lookup_insert_eq.
  - apply (Hnext penv [mkPlanItem "Proofs" "p" None]); reflexivity.
Defined.

Lemma foreign_session_like_absent_witness :
  let theirs := mkSession 8 2 ["g"] ["b.pdf"] [] [] (-1) "beginner" in
  let w := mkWorld {[8%N := theirs]} ∅ in
  let env :=
    mkChatEnv None None (λ _, inr (mkChatData "Hello." false)) None in
  chat_handler env 1 (Some "Hi") (Some 8%N) w
  = (status_json 404 (BMessage "Session not found"), w) ∧
  topic_handler (mkTopicEnv None None) 1 8 "0" "completed" w
  = (status_json 404 (BMessage "Session not found"), w).
Proof.
  intros theirs w env.
  destruct (foreign_session_like_absent 1 8 w empty_world)
    as (Hchat & _ & _ & _ & _ & Htopic);
    [vm_compute; reflexivity | vm_compute; reflexivity |].
  split.
  - destruct (Hchat env (Some "Hi")) as [Hw Hr].
    rewrite (surjective_pairing (chat_handler env 1 (Some "Hi") (Some 8%N) w)).
    rewrite Hw, Hr. reflexivity.
  - destruct (Htopic (mkTopicEnv None None) "0" "completed") as [Hw Hr].
    rewrite (surjective_pairing
               (topic_handler (mkTopicEnv None None) 1 8 "0" "completed" w)).
    rewrite Hw, Hr. reflexivity.
Defined.

Lemma upload_creates_session_witness :
  let digest := λ data : string, "sha256:" +:+ data in
  let theirs := mkSession 8 2 ["g"] ["b.pdf"] [] [] (-1) "beginner" in
  let w := mkWorld {[8%N := theirs]} ∅ in
  let env :=
    mkUploadEnv None (λ _, inr (mkIngestData false None)) 9 None in
  let after :=
    post_upload digest (-1) "beginner" env 1
      (Some (mkFilePart "notes.pdf" "%PDF-1.4")) "3f9a" (Some 8%N) w in
  after.1 = json (BUpload "File processed" 9 false None) ∧
  db after.2 !! 9%N
  = Some (mkSession 9 1 ["sha256:%PDF-1.4"] ["notes.pdf"]
            [mkMessage "assistant" "I've analyzed **notes.pdf**. "]
            [] (-1) "beginner") ∧
  db after.2 !! 8%N = Some theirs ∧
  files after.2 !! "uploads/3f9a" = None.
Proof.
  intros digest theirs w env after. subst after.
  rewrite (upload_creates_session digest (-1) "beginner" env 1
             (mkFilePart "notes.pdf" "%PDF-1.4") "3f9a" (Some 8%N) w
             (mkIngestData false None));
    [| split; [reflexivity | vm_compute; reflexivity] | reflexivity
     | reflexivity | vm_compute; reflexivity].
  repeat split; vm_compute; reflexivity.
Defined.

Lemma upload_appends_document_witness :
  let digest := λ data : string, "sha256:" +:+ data in
  let session := mkSession 7 1 ["h"] ["a.pdf"] [] [] (-1) "beginner" in
  let w := mkWorld {[7%N := session]} ∅ in
  let env :=
    mkUploadEnv None (λ _, inr (mkIngestData true (Some "Short."))) 9 None in
  let after :=
    post_upload digest (-1) "beginner" env 1
      (Some (mkFilePart "b.pdf" "%PDF-1.4")) "3f9a" (Some 7%N) w in
  (fileHashes <$> db after.2 !! 7%N) = Some ["h"; "sha256:%PDF-1.4"] ∧
  (filenames <$> db after.2 !! 7%N) = Some ["a.pdf"; "b.pdf"] ∧
  files after.2 !! "uploads/3f9a" = None.
Proof.
  intros digest session w env after. subst after.
  rewrite (upload_appends_document digest (-1) "beginner" env 1
             (mkFilePart "b.pdf" "%PDF-1.4") "3f9a" 7 w session
             (mkIngestData true (Some "Short.")));
    [| vm_compute; reflexivity | | reflexivity | reflexivity | reflexivity].
  - repeat split; vm_compute; reflexivity.
  - intros Hin. apply list_elem_of_singleton in Hin. discriminate Hin.
Defined.

Lemma plan_service_failure_witness :
  let session :=
    mkSession 7 1 ["h"] ["a.pdf"] [] [mkTopic "A" "a" "in-progress"] 0
      "beginner" in
  let w := mkWorld {[7%N := session]} ∅ in
  let busy := mkExn "Request failed with status code 503"
                (Some (mkErrorResponse 503 (Some "Model is loading"))) in
  let refused := plain_error "connect ECONNREFUSED 127.0.0.1:2002" in
  plan_handler (mkPlanEnv None (λ _, inl busy) None) 1 7 w
  = (status_json 500 (BMessage "Model is loading"), w) ∧
  plan_handler (mkPlanEnv None (λ _, inl refused) None) 1 7 w
  = (status_json 500 (BMessage "Failed to generate plan"), w).
Proof.
  intros session w busy refused. split.
  - apply (plan_service_failure (mkPlanEnv None (λ _, inl busy) None) 1 7 w
             session busy); [vm_compute; reflexivity | reflexivity..].
  - apply (plan_service_failure (mkPlanEnv None (λ _, inl refused) None) 1 7
             w session refused); [vm_compute; reflexivity | reflexivity..].
Defined.

Lemma signalled_replies_advance_witness :
  let session := mkSession 7 1 ["h"] ["a.pdf"] [] [] (-1) "beginner" in
  let w := mkWorld {[7%N := session]} ∅ in
  let items := [mkPlanItem "A" "a" None; mkPlanItem "B" "b" None] in
  let penv := mkPlanEnv None (λ _, inr items) None in
  let cenv :=
    mkChatEnv None None (λ _, inr (mkChatData "Well done." true)) None in
  let generated := (plan_handler penv 1 7 w).2 in
  (∃ s, stored (chat_in_order cenv 1 7 ["one"] generated) 7 = Some s ∧
        studyPlan s
        = [mkTopic "A" "a" "completed"; mkTopic "B" "b" "in-progress"]) ∧
  (∃ s, stored (chat_in_order cenv 1 7 ["one"; "two"; "three"] generated) 7
        = Some s ∧
        studyPlan s
        = [mkTopic "A" "a" "completed"; mkTopic "B" "b" "completed"] ∧
        in_progress_count s = 0%nat).
Proof.
  intros session w items penv cenv generated.
  split.
  - destruct (signalled_replies_advance penv cenv 1 7 w session items ["one"])
      as (s & Hs & Hplan & _);
      [vm_compute; reflexivity | reflexivity | reflexivity | reflexivity
      | reflexivity | reflexivity | reflexivity
      | intros request; by exists "Well done."
      | repeat constructor; discriminate |].
    by exists s.
  - destruct (signalled_replies_advance penv cenv 1 7 w session items
                ["one"; "two"; "three"])
      as (s & Hs & Hplan & Hcount & _);
      [vm_compute; reflexivity | reflexivity | reflexivity | reflexivity
      | reflexivity | reflexivity | reflexivity
      | intros request; by exists "Well done."
      | repeat constructor; discriminate |].
    by exists s.
Defined.

Lemma stored_level_is_valid_witness :
  let digest := λ data : string, "sha256:" +:+ data in
  let uenv :=
    mkUploadEnv None (λ _, inr (mkIngestData false (Some "A summary."))) 7
      None in
  let uploaded :=
    (post_upload digest (-1) "novice" uenv 1
       (Some (mkFilePart "notes.pdf" "%PDF-1.4")) "3f9a" None empty_world).2 in
  let leveled := (level_handler None 1 7 "intermediate" uploaded).2 in
  ∃ s, db leveled !! 7%N = Some s ∧
       (learningLevel s = "novice" ∨
        learningLevel s ∈ ["beginner"; "intermediate"; "advanced"]).
Proof.
  intros digest uenv uploaded leveled.
  assert (∃ s, db leveled !! 7%N = Some s) as (s & Hs)
    by (vm_compute; eexists; reflexivity).
  exists s. split; [exact Hs |].
  apply (stored_level_is_valid digest (-1) "novice" leveled 7 s);
    [| exact Hs].
  eapply rtc_l; [apply step_upload |].
  eapply rtc_l; [apply step_level | apply rtc_refl].
Defined.

Lemma index_param_suffix_ignored_witness :
  let session :=
    mkSession 7 1 ["h"] ["a.pdf"] []
      [mkTopic "A" "a" "in-progress"; mkTopic "B" "b" "pending"] 0
      "beginner" in
  let w := mkWorld {[7%N := session]} ∅ in
  parseInt "1abc" = parseInt "1" ∧
  parseInt "1abc" = Num 1 ∧
  topic_handler (mkTopicEnv None None) 1 7 "1abc" "completed" w
  = topic_handler (mkTopicEnv None None) 1 7 "1" "completed" w.
Proof.
  intros session w.
  destruct (index_param_suffix_ignored (mkTopicEnv None None) 1 7 1 "abc"
              "completed" w) as (Hsame & Hvalue & Hrun);
    [reflexivity | discriminate |].
  split; [exact Hsame |]. split; [| exact Hrun].
  apply Hvalue. vm_compute. reflexivity.
Defined.
